(** * Ledger and payment core of the banking microservices

    A shallow embedding of the transaction service (ledger entries and
    per-account balances, [POST /] and [POST /transfer]) and of the payment
    service (fraud check, payment creation, cancellation and the cron sweep
    of scheduled payments), followed by the readers of both services, the
    JWT middleware they share and the account service with its cache.

    Conventions of the model:
    - money is counted in cents ([Z]): amounts pass [Joi.number().positive()
      .precision(2)] and are stored in [DECIMAL(15,2)] columns;
    - time is counted in milliseconds ([Z]); [new Date()] reads the clock
      value handed to the handler, and so does [NOW()] on a connection that
      is in no transaction;
    - [uuidv4()] draws from a counter kept next to the database;
    - the RabbitMQ [channel] variable is either set or still undefined;
    - a request body carries every key with its JSON type, so that the Joi
      schema is left with the checks on values;
    - a table has the columns that the handlers' statements name, with the
      types and constraints that [database/init.sql] declares for them.

    The handlers are given in two layers.  [TransactionService] and
    [PaymentService] give them for values that fit the column types, on
    clients that the pool hands out in no transaction.
    [TransactionStatements] and [PaymentConnections] add what the first
    layer leaves out: the statements that raise, with the [ROLLBACK] and
    the 500 answer of the handler's [catch], and the pooled clients that
    the payment service releases inside a transaction.  Where the first
    layer applies, the second is shown to agree with it. *)

From stdpp Require Import gmap strings list.
From Stdlib Require Import ZArith Lia.

Local Open Scope Z_scope.

(** [uuidv4()] values. *)
Definition uuid := N.

(** [Joi.number()] refuses a number above [Number.MAX_SAFE_INTEGER]. *)
Definition MAX_SAFE_INTEGER : Z := 9007199254740991.

(** [Joi.number().integer().positive()] *)
Definition positive_integer (n : Z) : bool := (0 <? n) && (n <=? MAX_SAFE_INTEGER).

(** [Joi.number().positive().precision(2)], on an amount given in cents. *)
Definition positive_amount (cents : Z) : bool :=
  (0 <? cents) && (cents <=? MAX_SAFE_INTEGER * 100).

(* ===================================================================== *)
(** * Transaction service                                                 *)
(* ===================================================================== *)

Module TransactionService.

(** ** Tables of [banking_transactions] *)

(** [transaction_type VARCHAR(20) CHECK (... IN ('debit', 'credit'))] *)
Inductive transaction_type := debit | credit.

#[global] Instance transaction_type_eq_dec : EqDecision transaction_type.
Proof. solve_decision. Defined.

(** The [reference_id] column holds either the caller's [referenceId] or
    the [transferId] drawn by [POST /transfer]. *)
Inductive reference :=
  | caller_reference (s : string)
  | transfer_reference (transferId : uuid).

#[global] Instance reference_eq_dec : EqDecision reference.
Proof. solve_decision. Defined.

(** A row of [transactions]; [status] is always ['completed'] and
    [created_at] is never read by the service, so neither is kept. *)
Record transaction_row := {
  id : uuid;
  account_id : Z;
  row_type : transaction_type;
  amount : Z;
  description : string;
  reference_id : option reference
}.

Record database := {
  transactions : list transaction_row;
  account_balances : gmap Z Z;           (* account_id -> balance *)
  account_ownership : list (Z * Z)       (* (account_id, user_id) *)
}.

(** ** Events on the [banking.events] exchange *)

Inductive event_data :=
  | transaction_created (transactionId : uuid) (accountId amount : Z)
      (type : transaction_type) (userId : Z)
  | transfer_completed (transferId : uuid) (fromAccountId toAccountId amount : Z)
      (userId : Z).

Record event := {
  event_id : uuid;
  event_type : string;
  data : event_data
}.

(** The process: its database, the [channel] variable, what was published
    and the uuid supply. *)
Record server := {
  db : database;
  channel : bool;
  banking_events : list event;
  next_uuid : N
}.

Definition set_db (s : server) (d : database) : server :=
  {| db := d; channel := channel s; banking_events := banking_events s;
     next_uuid := next_uuid s |}.

(** [uuidv4()] *)
Definition uuidv4 (s : server) : uuid * server :=
  (next_uuid s,
   {| db := db s; channel := channel s; banking_events := banking_events s;
      next_uuid := N.succ (next_uuid s) |}).

(** [publishEvent(eventType, data)]: a no-op while [channel] is undefined. *)
Definition publishEvent (eventType : string) (d : event_data) (s : server) : server :=
  if channel s then
    let (eid, s1) := uuidv4 s in
    {| db := db s1; channel := channel s1;
       banking_events := banking_events s1 ++ [{| event_id := eid; event_type := eventType; data := d |}];
       next_uuid := next_uuid s1 |}
  else s.

(** ** Requests and answers *)

Record transaction_body := {
  tx_accountId : Z;
  tx_amount : Z;
  tx_type : transaction_type;
  tx_description : string;
  tx_referenceId : option string
}.

Record transfer_body := {
  fromAccountId : Z;
  toAccountId : Z;
  transfer_amount : Z;
  transfer_description : string
}.

(** The [error] member of a JSON answer: Joi's [error.details[0].message]
    (kept as the key it complains about) or a fixed message. *)
Inductive error_message :=
  | joi_message (key : string)
  | message (text : string).

Inductive response :=
  | res_201_transaction (transaction : transaction_row)
  | res_201_transfer (transferId : uuid) (debitTransaction creditTransaction : transaction_row)
  | res_400 (error : error_message)
  | res_403 (error : error_message).

(** [Joi.string().max(255).required()]: an empty string is refused too. *)
Definition description_ok (d : string) : bool :=
  negb (String.eqb d "") && (Z.of_nat (String.length d) <=? 255).

(** [transactionSchema.validate(req.body)], first failing key. *)
Definition transactionSchema_validate (b : transaction_body) : option string :=
  if negb (positive_integer (tx_accountId b)) then Some "accountId"%string
  else if negb (positive_amount (tx_amount b)) then Some "amount"%string
  else if negb (description_ok (tx_description b)) then Some "description"%string
  else match tx_referenceId b with
       | Some r => if String.eqb r "" then Some "referenceId"%string else None
       | None => None
       end.

(** [transferSchema.validate(req.body)], first failing key. *)
Definition transferSchema_validate (b : transfer_body) : option string :=
  if negb (positive_integer (fromAccountId b)) then Some "fromAccountId"%string
  else if negb (positive_integer (toAccountId b)) then Some "toAccountId"%string
  else if negb (positive_amount (transfer_amount b)) then Some "amount"%string
  else if negb (description_ok (transfer_description b)) then Some "description"%string
  else None.

(** ** Queries *)

(** [SELECT user_id FROM account_ownership WHERE account_id = $1 AND
    user_id = $2], then [rows.length === 0] negated. *)
Definition ownershipCheck (d : database) (accountId userId : Z) : bool :=
  existsb (fun r => (r.1 =? accountId) && (r.2 =? userId)) (account_ownership d).

Inductive balance_check :=
  | valid (currentBalance : Z)
  | invalid (error : string).

(** [verifyAccountBalance(accountId, amount, type)] *)
Definition verifyAccountBalance (d : database) (accountId amount : Z)
    (type : transaction_type) : balance_check :=
  match account_balances d !! accountId with
  | None => invalid "Account not found"
  | Some currentBalance =>
      if bool_decide (type = debit) && (currentBalance <? amount)
      then invalid "Insufficient funds"
      else valid currentBalance
  end.

(** [INSERT INTO transactions ... RETURNING *] *)
Definition insert_transaction (r : transaction_row) (d : database) : database :=
  {| transactions := transactions d ++ [r];
     account_balances := account_balances d;
     account_ownership := account_ownership d |}.

(** [INSERT INTO account_balances (account_id, balance) VALUES ($1, $2)
    ON CONFLICT (account_id) DO UPDATE SET balance = on_conflict balance]:
    the inserted value is [$2] itself, whichever way the update goes. *)
Definition upsert_balance (accountId inserted : Z) (on_conflict : Z -> Z)
    (d : database) : database :=
  {| transactions := transactions d;
     account_balances :=
       match account_balances d !! accountId with
       | None => <[accountId := inserted]> (account_balances d)
       | Some balance => <[accountId := on_conflict balance]> (account_balances d)
       end;
     account_ownership := account_ownership d |}.

(** ** Handlers

    Each handler is cut at the point where its checks have passed and its
    first write is about to be issued: [BEGIN] was sent, nothing was
    written, and the handler is suspended on an [await].  The writes that
    follow run inside one transaction and become visible at [COMMIT].

    This is the first layer: no statement raises here.  A handler whose
    statement raises sends [ROLLBACK] and answers 500, which leaves the
    tables as they were; [TransactionStatements] has these paths. *)

Inductive request :=
  | POST_transaction (userId : Z) (body : transaction_body)
  | POST_transfer (userId : Z) (body : transfer_body).

Inductive checked :=
  | transaction_checked (userId : Z) (value : transaction_body) (transactionId : uuid)
  | transfer_checked (userId : Z) (value : transfer_body) (transferId : uuid).

(** [app.post('/')] up to the balance verification. *)
Definition transaction_checks (s : server) (userId : Z) (body : transaction_body)
    : (response + checked) * server :=
  match transactionSchema_validate body with
  | Some key => (inl (res_400 (joi_message key)), s)
  | None =>
      let (transactionId, s1) := uuidv4 s in
      if negb (ownershipCheck (db s1) (tx_accountId body) userId)
      then (inl (res_403 (message "Account access denied")), s1)
      else
        match tx_type body with
        | debit =>
            match verifyAccountBalance (db s1) (tx_accountId body) (tx_amount body) debit with
            | invalid e => (inl (res_400 (message e)), s1)
            | valid _ => (inr (transaction_checked userId body transactionId), s1)
            end
        | credit => (inr (transaction_checked userId body transactionId), s1)
        end
  end.

(** [app.post('/')] from the [INSERT] to the answer. *)
Definition transaction_commit (s : server) (userId : Z) (value : transaction_body)
    (transactionId : uuid) : response * server :=
  let transaction :=
    {| id := transactionId;
       account_id := tx_accountId value;
       row_type := tx_type value;
       amount := tx_amount value;
       description := tx_description value;
       reference_id := caller_reference <$> tx_referenceId value |} in
  let balanceUpdate :=
    if bool_decide (tx_type value = credit) then tx_amount value else - tx_amount value in
  let d1 := insert_transaction transaction (db s) in
  let d2 := upsert_balance (tx_accountId value) balanceUpdate
              (fun balance => balance + balanceUpdate) d1 in
  let s1 := publishEvent "transaction.created"
              (transaction_created (id transaction) (account_id transaction)
                 (amount transaction) (row_type transaction) userId)
              (set_db s d2) in
  (res_201_transaction transaction, s1).

(** [app.post('/transfer')] up to the balance verification. *)
Definition transfer_checks (s : server) (userId : Z) (body : transfer_body)
    : (response + checked) * server :=
  match transferSchema_validate body with
  | Some key => (inl (res_400 (joi_message key)), s)
  | None =>
      let (transferId, s1) := uuidv4 s in
      if negb (ownershipCheck (db s1) (fromAccountId body) userId)
      then (inl (res_403 (message "Source account access denied")), s1)
      else
        match verifyAccountBalance (db s1) (fromAccountId body) (transfer_amount body) debit with
        | invalid e => (inl (res_400 (message e)), s1)
        | valid _ => (inr (transfer_checked userId body transferId), s1)
        end
  end.

(** [app.post('/transfer')] from the first [INSERT] to the answer. *)
Definition transfer_commit (s : server) (userId : Z) (value : transfer_body)
    (transferId : uuid) : response * server :=
  let (debitId, s1) := uuidv4 s in
  let debitTransaction :=
    {| id := debitId;
       account_id := fromAccountId value;
       row_type := debit;
       amount := transfer_amount value;
       description := "Transfer: " +:+ transfer_description value;
       reference_id := Some (transfer_reference transferId) |} in
  let (creditId, s2) := uuidv4 s1 in
  let creditTransaction :=
    {| id := creditId;
       account_id := toAccountId value;
       row_type := credit;
       amount := transfer_amount value;
       description := "Transfer received: " +:+ transfer_description value;
       reference_id := Some (transfer_reference transferId) |} in
  let d1 := insert_transaction debitTransaction (db s2) in
  let d2 := insert_transaction creditTransaction d1 in
  let d3 := upsert_balance (fromAccountId value) (transfer_amount value)
              (fun balance => balance - transfer_amount value) d2 in
  let d4 := upsert_balance (toAccountId value) (transfer_amount value)
              (fun balance => balance + transfer_amount value) d3 in
  let s3 := publishEvent "transfer.completed"
              (transfer_completed transferId (fromAccountId value) (toAccountId value)
                 (transfer_amount value) userId)
              (set_db s2 d4) in
  (res_201_transfer transferId debitTransaction creditTransaction, s3).

Definition checks (s : server) (r : request) : (response + checked) * server :=
  match r with
  | POST_transaction userId body => transaction_checks s userId body
  | POST_transfer userId body => transfer_checks s userId body
  end.

Definition commit (s : server) (k : checked) : response * server :=
  match k with
  | transaction_checked userId value transactionId =>
      transaction_commit s userId value transactionId
  | transfer_checked userId value transferId =>
      transfer_commit s userId value transferId
  end.

(** A request served with no other request in flight. *)
Definition handle (s : server) (r : request) : response * server :=
  match checks s r with
  | (inl res, s1) => (res, s1)
  | (inr k, s1) => commit s1 k
  end.

Definition transfer (s : server) (userId : Z) (body : transfer_body) : response * server :=
  handle s (POST_transfer userId body).

Definition create_transaction (s : server) (userId : Z) (body : transaction_body)
    : response * server :=
  handle s (POST_transaction userId body).

(** Requests served one after the other, answers in order. *)
Fixpoint serve (s : server) (rs : list request) : list response * server :=
  match rs with
  | [] => ([], s)
  | r :: rs' =>
      let (res, s1) := handle s r in
      let (out, s2) := serve s1 rs' in
      (res :: out, s2)
  end.

(** ** Requests in flight together

    Node serves requests on one thread and switches between handlers at
    their [await]s.  A handler arrives and runs its checks against the
    committed tables; later it is resumed and commits its writes.  Any
    number of other handlers may run in between. *)

Record node := {
  srv : server;
  in_flight : list (option checked);   (* one slot per arrival, in order *)
  answers : list (nat * response)      (* (slot, answer), in order *)
}.

Inductive action :=
  | arrive (r : request)
  | resume (slot : nat).

Definition step (n : node) (a : action) : node :=
  match a with
  | arrive r =>
      let slot := length (in_flight n) in
      match checks (srv n) r with
      | (inl res, s1) =>
          {| srv := s1; in_flight := in_flight n ++ [None];
             answers := answers n ++ [(slot, res)] |}
      | (inr k, s1) =>
          {| srv := s1; in_flight := in_flight n ++ [Some k];
             answers := answers n |}
      end
  | resume slot =>
      match in_flight n !! slot with
      | Some (Some k) =>
          let (res, s1) := commit (srv n) k in
          {| srv := s1; in_flight := <[slot := None]> (in_flight n);
             answers := answers n ++ [(slot, res)] |}
      | _ => n
      end
  end.

Definition run (n : node) (sched : list action) : node := foldl step n sched.

Definition boot (s : server) : node :=
  {| srv := s; in_flight := []; answers := [] |}.

(** ** The ledger read back *)

Definition signed_amount (t : transaction_row) : Z :=
  match row_type t with
  | credit => amount t
  | debit => - amount t
  end.

(** Entries of one account. *)
Definition entries_of (a : Z) (l : list transaction_row) : list transaction_row :=
  filter (fun t => account_id t = a) l.

(** Signed sum of the entries of one account. *)
Definition ledger_sum (a : Z) (l : list transaction_row) : Z :=
  foldr (fun t acc => signed_amount t + acc) 0 (entries_of a l).

(** Stored balance, 0 for an account that has no row. *)
Definition balance_of (d : database) (a : Z) : Z :=
  default 0 (account_balances d !! a).

(** Each balance row is the signed sum of the account's entries, and an
    account with no row has no entry. *)
Definition ledger_invariant (d : database) : Prop :=
  forall a,
    match account_balances d !! a with
    | Some balance => balance = ledger_sum a (transactions d)
    | None => entries_of a (transactions d) = []
    end.

(** ** Vocabulary of the statements *)

(** An entry together with the balance update of its account. *)
Definition posting (t : transaction_row) (ins : Z) (f : Z -> Z) (d : database) : database :=
  upsert_balance (account_id t) ins f (insert_transaction t d).

(** The two rows [POST /transfer] inserts. *)
Definition debit_leg (debitId : uuid) (value : transfer_body) (transferId : uuid)
    : transaction_row :=
  {| id := debitId;
     account_id := fromAccountId value;
     row_type := debit;
     amount := transfer_amount value;
     description := "Transfer: " +:+ transfer_description value;
     reference_id := Some (transfer_reference transferId) |}.

Definition credit_leg (creditId : uuid) (value : transfer_body) (transferId : uuid)
    : transaction_row :=
  {| id := creditId;
     account_id := toAccountId value;
     row_type := credit;
     amount := transfer_amount value;
     description := "Transfer received: " +:+ transfer_description value;
     reference_id := Some (transfer_reference transferId) |}.

(** The row [POST /] inserts. *)
Definition transaction_row_of (value : transaction_body) (transactionId : uuid)
    : transaction_row :=
  {| id := transactionId;
     account_id := tx_accountId value;
     row_type := tx_type value;
     amount := tx_amount value;
     description := tx_description value;
     reference_id := caller_reference <$> tx_referenceId value |}.

(** The account a suspended handler has verified, if it verified one. *)
Definition verified_account (k : checked) : option Z :=
  match k with
  | transaction_checked _ value _ =>
      match tx_type value with
      | debit => Some (tx_accountId value)
      | credit => None
      end
  | transfer_checked _ value _ => Some (fromAccountId value)
  end.

(** Every account verified by a handler in flight still has its row. *)
Definition verified_rows_present (n : node) : Prop :=
  forall slot k a,
    in_flight n !! slot = Some (Some k) ->
    verified_account k = Some a ->
    is_Some (account_balances (db (srv n)) !! a).

Definition is_201_transfer (r : response) : bool :=
  match r with
  | res_201_transfer _ _ _ => true
  | _ => false
  end.

(** ** Sample data *)

(** The service on empty tables. *)
Definition fresh_server (ownership : list (Z * Z)) (up : bool) : server :=
  {| db := {| transactions := []; account_balances := ∅;
              account_ownership := ownership |};
     channel := up;
     banking_events := [];
     next_uuid := 0%N |}.

(** User 7 owns account 1, which holds the 1000.00 of one deposit. *)
Definition opening_deposit : transaction_row :=
  {| id := 0%N; account_id := 1; row_type := credit; amount := 100000;
     description := "opening deposit"; reference_id := None |}.

Definition sample_server : server :=
  {| db := {| transactions := [opening_deposit];
              account_balances := {[ 1 := 100000 ]};
              account_ownership := [(1, 7)] |};
     channel := true;
     banking_events := [];
     next_uuid := 1%N |}.

Definition sample_transfer (to amount : Z) : transfer_body :=
  {| fromAccountId := 1; toAccountId := to; transfer_amount := amount;
     transfer_description := "rent" |}.

Definition sample_deposit : transaction_body :=
  {| tx_accountId := 1; tx_amount := 2500; tx_type := credit;
     tx_description := "deposit"; tx_referenceId := None |}.

End TransactionService.

(* ===================================================================== *)
(** * Payment service                                                     *)
(* ===================================================================== *)

Module PaymentService.

(** ** Tables of [banking_payments] *)

(** [Joi.string().valid('transfer', 'payment', 'bill_pay')] *)
Inductive payment_type := transfer | payment | bill_pay.

Record external_payee := {
  name : string;
  accountNumber : string;
  routingNumber : string;
  bankName : string
}.

(** A row of [payments], with the columns that the handlers' statements
    write or read ([database/init.sql] declares the table without
    [external_payee], [risk_score] and [updated_at], and with a [SERIAL]
    [id], where the handlers store and look up their [uuidv4()]);
    [status] is free text, as in the table. *)
Record payment_row := {
  id : uuid;
  from_account_id : Z;
  to_account_id : option Z;
  amount : Z;
  currency : string;
  row_type : payment_type;
  description : string;
  status : string;
  scheduled_at : option Z;
  payee : option external_payee;
  risk_score : Z;
  created_at : Z;
  updated_at : option Z
}.

Record database := {
  payments : list payment_row;
  account_ownership : list (Z * Z)       (* (account_id, user_id) *)
}.

(** ** The broker *)

(** Messages of the [payment.processing] queue, the way into execution. *)
Inductive processing_message :=
  | process_created (paymentId : uuid) (userId : Z)   (* { paymentId, userId } *)
  | process_scheduled (paymentId : uuid).             (* { paymentId, scheduled: true } *)

Inductive event_data :=
  | payment_created (paymentId : uuid) (fromAccountId : Z) (toAccountId : option Z)
      (amount : Z) (status : string) (userId : Z)
  | payment_cancelled (paymentId : uuid) (userId : Z).

Record event := {
  event_id : uuid;
  event_type : string;
  data : event_data
}.

Record server := {
  db : database;
  channel : bool;
  payment_processing : list processing_message;
  banking_events : list event;
  next_uuid : N
}.

Definition set_db (s : server) (d : database) : server :=
  {| db := d; channel := channel s; payment_processing := payment_processing s;
     banking_events := banking_events s; next_uuid := next_uuid s |}.

(** [uuidv4()] *)
Definition uuidv4 (s : server) : uuid * server :=
  (next_uuid s,
   {| db := db s; channel := channel s; payment_processing := payment_processing s;
      banking_events := banking_events s; next_uuid := N.succ (next_uuid s) |}).

(** [publishEvent(eventType, data)]: a no-op while [channel] is undefined. *)
Definition publishEvent (eventType : string) (d : event_data) (s : server) : server :=
  if channel s then
    let (eid, s1) := uuidv4 s in
    {| db := db s1; channel := channel s1; payment_processing := payment_processing s1;
       banking_events :=
         banking_events s1 ++ [{| event_id := eid; event_type := eventType; data := d |}];
       next_uuid := next_uuid s1 |}
  else s.

(** [if (channel) { await channel.sendToQueue('payment.processing', ...) }] *)
Definition sendToQueue_if_channel (m : processing_message) (s : server) : server :=
  if channel s then
    {| db := db s; channel := channel s;
       payment_processing := payment_processing s ++ [m];
       banking_events := banking_events s; next_uuid := next_uuid s |}
  else s.

(** ** Requests and answers *)

Record payment_body := {
  fromAccountId : Z;
  toAccountId : option Z;
  body_amount : Z;
  body_currency : option string;         (* defaults to 'USD' *)
  paymentType : payment_type;
  body_description : string;
  scheduledAt : option Z;
  externalPayee : option external_payee
}.

Inductive error_message :=
  | joi_message (key : string)
  | message (text : string).

Inductive response :=
  | res_201 (created : payment_row)
  | res_200 (text : string)
  | res_400 (error : error_message)
  | res_403 (error : error_message)
  | res_404 (error : error_message).

Definition nonempty (x : string) : bool := negb (String.eqb x "").

(** [paymentSchema.validate(req.body)], first failing key. *)
Definition paymentSchema_validate (b : payment_body) : option string :=
  if negb (positive_integer (fromAccountId b)) then Some "fromAccountId"%string
  else if negb (from_option positive_integer true (toAccountId b))
  then Some "toAccountId"%string
  else if negb (positive_amount (body_amount b)) then Some "amount"%string
  else if negb (from_option (fun c => Nat.eqb (String.length c) 3) true (body_currency b))
  then Some "currency"%string
  else if negb (nonempty (body_description b)
                && (Z.of_nat (String.length (body_description b)) <=? 255))
  then Some "description"%string
  else match externalPayee b with
       | Some e =>
           if negb (nonempty (name e)) then Some "externalPayee.name"%string
           else if negb (nonempty (accountNumber e)) then Some "externalPayee.accountNumber"%string
           else if negb (nonempty (routingNumber e)) then Some "externalPayee.routingNumber"%string
           else if negb (nonempty (bankName e)) then Some "externalPayee.bankName"%string
           else None
       | None => None
       end.

(** ** Fraud detection *)

Record fraud_check := {
  riskScore : Z;
  riskFactors : list string;
  requiresReview : bool
}.

(** One hour, the [INTERVAL '1 hour'] of the frequency query. *)
Definition one_hour : Z := 3600000.

(** [SELECT COUNT( * ) FROM payments WHERE from_account_id = $1 AND
    created_at > NOW() - INTERVAL '1 hour'] *)
Definition recentPayments (d : database) (now : Z) (account : Z) : Z :=
  Z.of_nat (length (List.filter
    (fun p => (from_account_id p =? account) && (now - one_hour <? created_at p))
    (payments d))).

(** [detectFraud(paymentData, userId)]; 10000 dollars are 1000000 cents. *)
Definition detectFraud (d : database) (now : Z) (paymentData : payment_body)
    (userId : Z) : fraud_check :=
  let large_amount :=
    if 1000000 <? body_amount paymentData then ["large_amount"%string] else [] in
  let high_frequency :=
    if 5 <? recentPayments d now (fromAccountId paymentData)
    then ["high_frequency"%string] else [] in
  let riskFactors := large_amount ++ high_frequency in
  let riskScore := Z.of_nat (length riskFactors) * 25 in
  {| riskScore := riskScore;
     riskFactors := riskFactors;
     requiresReview := 50 <? riskScore |}.

(** ** Handlers *)

Definition ownershipCheck (d : database) (accountId userId : Z) : bool :=
  existsb (fun r => (r.1 =? accountId) && (r.2 =? userId)) (account_ownership d).

(** [paymentData.scheduledAt && new Date(paymentData.scheduledAt) > new Date()] *)
Definition isScheduled (now : Z) (paymentData : payment_body) : bool :=
  match scheduledAt paymentData with
  | Some at_ => now <? at_
  | None => false
  end.

(** [isScheduled ? 'scheduled' : (requiresReview ? 'pending_review' : 'processing')] *)
Definition initial_status (scheduled review : bool) : string :=
  if scheduled then "scheduled"
  else if review then "pending_review"
  else "processing".

Definition insert_payment (p : payment_row) (d : database) : database :=
  {| payments := payments d ++ [p]; account_ownership := account_ownership d |}.

(** [app.post('/')]: create payment, on a client in no transaction and
    for a row that the table accepts.  [PaymentConnections.post_payment]
    adds the [catch] and the client that the 400 answer leaves inside the
    transaction opened by [BEGIN]. *)
Definition create_payment (now : Z) (s : server) (userId : Z) (body : payment_body)
    : response * server :=
  match paymentSchema_validate body with
  | Some key => (res_400 (joi_message key), s)
  | None =>
      let paymentData := body in
      let (paymentId, s1) := uuidv4 s in
      if negb (ownershipCheck (db s1) (fromAccountId paymentData) userId)
      then (res_403 (message "Account access denied"), s1)
      else
        let fraudCheck := detectFraud (db s1) now paymentData userId in
        let scheduled := isScheduled now paymentData in
        let status := initial_status scheduled (requiresReview fraudCheck) in
        let row :=
          {| id := paymentId;
             from_account_id := fromAccountId paymentData;
             to_account_id := toAccountId paymentData;
             amount := body_amount paymentData;
             currency := default "USD"%string (body_currency paymentData);
             row_type := paymentType paymentData;
             description := body_description paymentData;
             status := status;
             scheduled_at := scheduledAt paymentData;
             payee := externalPayee paymentData;
             risk_score := riskScore fraudCheck;
             created_at := now;
             updated_at := None |} in
        let s2 := set_db s1 (insert_payment row (db s1)) in
        let s3 :=
          if negb scheduled && negb (requiresReview fraudCheck)
          then sendToQueue_if_channel (process_created (id row) userId) s2
          else s2 in
        let s4 := publishEvent "payment.created"
                    (payment_created (id row) (from_account_id row) (to_account_id row)
                       (amount row) (status) userId) s3 in
        (res_201 row, s4)
  end.

(** The [WHERE] clause of the cancelling [UPDATE]. *)
Definition cancellable (d : database) (paymentId : uuid) (userId : Z)
    (p : payment_row) : bool :=
  (id p =? paymentId)%N
  && ownershipCheck d (from_account_id p) userId
  && (String.eqb (status p) "scheduled" || String.eqb (status p) "pending_review").

(** [SET status = 'cancelled', updated_at = NOW()] *)
Definition cancelled_row (now : Z) (p : payment_row) : payment_row :=
  {| id := id p; from_account_id := from_account_id p; to_account_id := to_account_id p;
     amount := amount p; currency := currency p; row_type := row_type p;
     description := description p; status := "cancelled";
     scheduled_at := scheduled_at p; payee := payee p; risk_score := risk_score p;
     created_at := created_at p; updated_at := Some now |}.

(** [UPDATE payments p SET ... FROM account_ownership ao WHERE ...
    RETURNING p.*]: the table after it and the rows it returns. *)
Definition update_cancel (now : Z) (d : database) (paymentId : uuid) (userId : Z)
    : database * list payment_row :=
  ({| payments :=
        map (fun p => if cancellable d paymentId userId p then cancelled_row now p else p)
            (payments d);
      account_ownership := account_ownership d |},
   map (cancelled_row now) (List.filter (cancellable d paymentId userId) (payments d))).

(** [app.delete('/:paymentId')]: cancel payment, the [UPDATE] being sent
    on a client in no transaction, where it is committed at once.
    [PaymentConnections.delete_payment] has the other clients too. *)
Definition cancel_payment (now : Z) (s : server) (userId : Z) (paymentId : uuid)
    : response * server :=
  let (d1, rows) := update_cancel now (db s) paymentId userId in
  let s1 := set_db s d1 in
  match rows with
  | [] => (res_404 (message "Payment not found or cannot be cancelled"), s1)
  | row :: _ =>
      let s2 := publishEvent "payment.cancelled" (payment_cancelled (id row) userId) s1 in
      (res_200 "Payment cancelled successfully", s2)
  end.

(** [WHERE status = 'scheduled' AND scheduled_at <= NOW()]; a row whose
    [scheduled_at] is [NULL] is not selected. *)
Definition due (now : Z) (p : payment_row) : bool :=
  String.eqb (status p) "scheduled"
  && match scheduled_at p with
     | Some at_ => at_ <=? now
     | None => false
     end.

(** The body of [cron.schedule('* * * * *', ...)], one tick, the [SELECT]
    being sent on a client in no transaction: [NOW()] is the time of the
    tick.  [PaymentConnections.sweep] has the other clients too. *)
Definition scheduled_payment_processor (now : Z) (s : server) : server :=
  let rows := List.filter (due now) (payments (db s)) in
  foldl (fun s1 row => sendToQueue_if_channel (process_scheduled (id row)) s1) s rows.

(** Ticks at the given clock values, one after the other. *)
Definition ticks (s : server) (clock : list Z) : server :=
  foldl (fun s1 now => scheduled_payment_processor now s1) s clock.

(** How often a payment was handed to the queue. *)
Definition message_payment (m : processing_message) : uuid :=
  match m with
  | process_created paymentId _ => paymentId
  | process_scheduled paymentId => paymentId
  end.

Definition handed (paymentId : uuid) (s : server) : nat :=
  length (List.filter (fun m => (message_payment m =? paymentId)%N) (payment_processing s)).

(** [PRIMARY KEY (id)] of [payments]. *)
Definition payments_pkey (d : database) : Prop := NoDup (map id (payments d)).

(** ** Sample data *)

Definition sample_row (paymentId : uuid) (st : string) (at_ : option Z) : payment_row :=
  {| id := paymentId; from_account_id := 1; to_account_id := Some 2; amount := 2500;
     currency := "USD"; row_type := transfer; description := "rent"; status := st;
     scheduled_at := at_; payee := None; risk_score := 0; created_at := 0;
     updated_at := None |}.

(** User 7 owns account 1; payment 0 is scheduled for time 1000, payment 1
    is being processed. *)
Definition sample_server (up : bool) : server :=
  {| db := {| payments := [sample_row 0%N "scheduled" (Some 1000);
                           sample_row 1%N "processing" None];
              account_ownership := [(1, 7)] |};
     channel := up;
     payment_processing := [];
     banking_events := [];
     next_uuid := 2%N |}.

Definition sample_body (at_ : option Z) : payment_body :=
  {| fromAccountId := 1; toAccountId := Some 2; body_amount := 2500;
     body_currency := None; paymentType := transfer; body_description := "rent";
     scheduledAt := at_; externalPayee := None |}.

End PaymentService.

(* ===================================================================== *)
(** * Observations on the transaction service                             *)
(* ===================================================================== *)

Module LedgerObservations.
Import TransactionService.

(** A [201] answer of either handler. *)
Definition is_201 (r : response) : bool :=
  match r with
  | res_201_transaction _ => true
  | res_201_transfer _ _ _ => true
  | _ => false
  end.

(** The money held by the service: the sum of all balance rows. *)
Definition total_balance (d : database) : Z :=
  map_fold (fun _ balance acc => balance + acc) 0 (account_balances d).

(** No balance row is negative. *)
Definition no_overdraft (d : database) : Prop :=
  forall a balance, account_balances d !! a = Some balance -> 0 <= balance.

(** The schedule that serves the requests one by one: each handler is
    resumed before the next one arrives. *)
Fixpoint one_by_one (slot : nat) (rs : list request) : list action :=
  match rs with
  | [] => []
  | r :: rs' => arrive r :: resume slot :: one_by_one (S slot) rs'
  end.

(** Number of [201] answers given so far. *)
Definition count_201 (n : node) : nat :=
  length (List.filter (fun a => is_201 a.2) (answers n)).

End LedgerObservations.

(* ===================================================================== *)
(** * Transaction service: the history of an account                      *)
(* ===================================================================== *)

Module TransactionHistory.
Import TransactionService.

Record pagination := {
  page : Z;
  limit : Z;
  total : Z;
  pages : option Z     (* [null] when [Math.ceil(count / limit)] is not finite *)
}.

Inductive history_response :=
  | history_200 (rows : list transaction_row) (p : pagination)
  | history_403 (error : string)
  | history_500 (error : string).

Section History.

(** [ORDER BY created_at DESC].  The rows carry no [created_at] here, and
    SQL leaves the order of rows of equal [created_at] open, so the order
    is a parameter: the way the database lists the entries of one account,
    the same way at each query. *)
Variable newest_first : list transaction_row -> list transaction_row.

(** [app.get('/history/:accountId')].  [page] and [limit] are the query
    parameters when given (integers), [accountId] the path parameter.
    A negative [LIMIT] or [OFFSET] makes the [SELECT] raise.  This is the
    first layer, for ids within [INTEGER] and pages within [BIGINT];
    [TransactionStatements.get_history] has the other parameters too. *)
Definition history (d : database) (userId accountId : Z) (page limit : option Z)
    : history_response :=
  let page := default 1 page in
  let limit := default 20 limit in
  let offset := (page - 1) * limit in
  if negb (ownershipCheck d accountId userId)
  then history_403 "Account access denied"
  else if (limit <? 0) || (offset <? 0)
  then history_500 "Failed to retrieve transaction history"
  else
    let result :=
      take (Z.to_nat limit)
        (drop (Z.to_nat offset) (newest_first (entries_of accountId (transactions d)))) in
    let count := Z.of_nat (length (entries_of accountId (transactions d))) in
    history_200 result
      {| page := page;
         limit := limit;
         total := count;
         pages := if limit =? 0 then None else Some ((count + limit - 1) / limit) |}.

(** The rows of an answer, none for a refusal. *)
Definition page_rows (r : history_response) : list transaction_row :=
  match r with
  | history_200 rows _ => rows
  | _ => []
  end.

(** Pages [1 .. n] of one account, read one after the other. *)
Definition read_pages (d : database) (userId accountId limit : Z) (n : nat)
    : list transaction_row :=
  concat (map (fun i => page_rows (history d userId accountId
                                     (Some (Z.of_nat i + 1)) (Some limit)))
              (seq 0 n)).

End History.

End TransactionHistory.

(* ===================================================================== *)
(** * Payment service: reading payments, and sequences of operations      *)
(* ===================================================================== *)

Module PaymentOperations.
Import PaymentService.

Inductive lookup_response :=
  | lookup_200 (found : payment_row)
  | lookup_404 (error : string).

(** The [WHERE] clause of both readers: the payment is joined with the
    ownership rows of its source account, of which the caller must be
    one.  [(account_id, user_id)] is the primary key of
    [account_ownership], so a payment is joined with at most one row. *)
Definition visible_to (d : database) (userId : Z) (p : payment_row) : bool :=
  ownershipCheck d (from_account_id p) userId.

(** [app.get('/:paymentId')]: get payment status. *)
Definition get_payment (d : database) (userId : Z) (paymentId : uuid) : lookup_response :=
  match List.filter (fun p => (id p =? paymentId)%N && visible_to d userId p) (payments d) with
  | [] => lookup_404 "Payment not found"
  | found :: _ => lookup_200 found
  end.

Inductive list_response :=
  | list_200 (rows : list payment_row)
  | list_500 (error : string).

(** [if (status) { query += ' AND p.status = ...' }]: an empty [status]
    parameter is no filter. *)
Definition status_filter (status : option string) (p : payment_row) : bool :=
  match status with
  | Some wanted => if String.eqb wanted "" then true else String.eqb (PaymentService.status p) wanted
  | None => true
  end.

Section Listing.

(** [ORDER BY p.created_at DESC], the order of rows of equal [created_at]
    being the database's. *)
Variable newest_first : list payment_row -> list payment_row.

(** [app.get('/')]: get user payments.  A negative [LIMIT] or [OFFSET]
    makes the [SELECT] raise. *)
Definition list_payments (d : database) (userId : Z) (page limit : option Z)
    (status : option string) : list_response :=
  let page := default 1 page in
  let limit := default 20 limit in
  let offset := (page - 1) * limit in
  if (limit <? 0) || (offset <? 0)
  then list_500 "Failed to retrieve payments"
  else
    list_200
      (take (Z.to_nat limit)
         (drop (Z.to_nat offset)
            (newest_first
               (List.filter (fun p => visible_to d userId p && status_filter status p)
                  (payments d))))).

End Listing.

(** ** Sequences of operations *)

Inductive operation :=
  | POST_payment (now userId : Z) (body : payment_body)
  | DELETE_payment (now userId : Z) (paymentId : uuid)
  | cron_tick (now : Z).

Definition perform (s : server) (op : operation) : server :=
  match op with
  | POST_payment now userId body => (create_payment now s userId body).2
  | DELETE_payment now userId paymentId => (cancel_payment now s userId paymentId).2
  | cron_tick now => scheduled_payment_processor now s
  end.

Definition perform_all (s : server) (ops : list operation) : server := foldl perform s ops.

(** Every id in the table was drawn before: the supply is ahead of it. *)
Definition ids_below_supply (s : server) : Prop :=
  forall p, In p (payments (db s)) -> (id p < next_uuid s)%N.

(** A row and what became of it: nothing, or its cancellation while it
    was 'scheduled' or 'pending_review'. *)
Definition same_or_cancelled (p p' : payment_row) : Prop :=
  p' = p
  \/ exists now, p' = cancelled_row now p
       /\ (status p = "scheduled"%string \/ status p = "pending_review"%string).

End PaymentOperations.

(* ===================================================================== *)
(** * The JWT middleware of the services                                  *)
(* ===================================================================== *)

Module Authentication.
Import Stdlib.Strings.Ascii.

(** [String.prototype.split(' ')]: the pieces between single spaces; two
    spaces in a row hold an empty piece between them. *)
Fixpoint split_space (s : string) : list string :=
  match s with
  | EmptyString => [EmptyString]
  | String c rest =>
      if Ascii.eqb c " "%char
      then EmptyString :: split_space rest
      else match split_space rest with
           | piece :: pieces => String c piece :: pieces
           | [] => [String c EmptyString]
           end
  end.

(** [authHeader && authHeader.split(' ')[1]]; [None] is [undefined]. *)
Definition token_of (authHeader : option string) : option string :=
  match authHeader with
  | None => None
  | Some header =>
      if String.eqb header "" then Some header
      else split_space header !! 1%nat
  end.

(** [!token] *)
Definition falsy (token : option string) : bool :=
  match token with
  | None => true
  | Some t => String.eqb t ""
  end.

Inductive outcome (user : Type) :=
  | next (req_user : user)             (* [req.user = user; next()] *)
  | res_401 (error : string)
  | res_403 (error : string).

Arguments next {user} req_user.
Arguments res_401 {user} error.
Arguments res_403 {user} error.

Section Authenticate.

Variable user : Type.

(** [jwt.verify(token, secret, callback)]: the payload handed to the
    callback, or [None] when it is handed an error. *)
Variable jwt_verify : string -> option user.

(** [authenticateToken(req, res, next)], on the [authorization] header. *)
Definition authenticateToken (authHeader : option string) : outcome user :=
  let token := token_of authHeader in
  if falsy token then res_401 "Access token required"
  else
    match token with
    | Some t =>
        match jwt_verify t with
        | Some payload => next payload
        | None => res_403 "Invalid token"
        end
    | None => res_401 "Access token required"
    end.

End Authenticate.

(** A string without a space. *)
Fixpoint no_space (s : string) : bool :=
  match s with
  | EmptyString => true
  | String c rest => negb (Ascii.eqb c " "%char) && no_space rest
  end.

End Authentication.

(* ===================================================================== *)
(** * Account service                                                     *)
(* ===================================================================== *)

Module AccountService.

(** ** The [accounts] table and the Redis cache *)

(** [account_type ... CHECK (account_type IN ('checking', 'savings'))] *)
Inductive account_type := checking | savings.

Record account_row := {
  id : Z;                    (* SERIAL *)
  user_id : Z;
  account_number : string;   (* UNIQUE *)
  type_of : account_type;
  balance : Z;
  currency : string;
  status : string;
  created_at : Z;
  updated_at : Z
}.

Record database := {
  accounts : list account_row;
  accounts_id_seq : Z        (* the next value of the SERIAL sequence *)
}.

(** A key [account:<id>] set with [setEx(key, 3600, JSON.stringify(account))]:
    the account as it was read, and the time the key expires. *)
Record cache_entry := {
  expires_at : Z;
  cached : account_row
}.

Record server := {
  db : database;
  redis : gmap Z cache_entry
}.

(** The hour of [setEx(key, 3600, ...)]. *)
Definition ttl : Z := 3600000.

(** [redisClient.setEx(`account:${account.id}`, 3600, JSON.stringify(account))] *)
Definition setEx (now : Z) (account : account_row) (s : server) : server :=
  {| db := db s;
     redis := <[id account := {| expires_at := now + ttl; cached := account |}]> (redis s) |}.

(** [redisClient.get(`account:${accountId}`)], then [JSON.parse]. *)
Definition cache_get (now : Z) (s : server) (accountId : Z) : option account_row :=
  match redis s !! accountId with
  | Some entry => if now <? expires_at entry then Some (cached entry) else None
  | None => None
  end.

(** ** Requests and answers *)

(** [initialDeposit] is given in cents and defaults to 0.  Joi asks for no
    precision here; a deposit with more than two decimals would be rounded
    by the [DECIMAL(15,2)] column, which is not modelled. *)
Record account_body := {
  accountType : account_type;
  initialDeposit : option Z
}.

Inductive error_message :=
  | joi_message (key : string)
  | message (text : string).

Inductive response :=
  | res_201 (account : account_row)
  | res_200 (account : account_row)
  | res_200_balance (balance : Z) (currency : string)
  | res_400 (error : error_message)
  | res_404 (error : error_message)
  | res_500 (error : error_message).

(** [createAccountSchema.validate(req.body)]: [Joi.number().min(0)]. *)
Definition createAccountSchema_validate (b : account_body) : option string :=
  match initialDeposit b with
  | Some deposit =>
      if (0 <=? deposit) && (deposit <=? MAX_SAFE_INTEGER * 100) then None
      else Some "initialDeposit"%string
  | None => None
  end.

(** [app.post('/')]: create account.  [accountNumber] is the string that
    [generateAccountNumber()] drew.  The sequence gives the id before the
    [UNIQUE] constraint on [account_number] is checked; when that fails
    the [INSERT] raises and the [catch] answers 500. *)
Definition create_account (now : Z) (accountNumber : string) (s : server) (userId : Z)
    (body : account_body) : response * server :=
  match createAccountSchema_validate body with
  | Some key => (res_400 (joi_message key), s)
  | None =>
      let account :=
        {| id := accounts_id_seq (db s);
           user_id := userId;
           account_number := accountNumber;
           type_of := accountType body;
           balance := default 0 (initialDeposit body);
           currency := "USD";
           status := "active";
           created_at := now;
           updated_at := now |} in
      if existsb (fun a => String.eqb (account_number a) accountNumber) (accounts (db s))
      then (res_500 (message "Internal server error"),
            {| db := {| accounts := accounts (db s);
                        accounts_id_seq := accounts_id_seq (db s) + 1 |};
               redis := redis s |})
      else
        let s1 := {| db := {| accounts := accounts (db s) ++ [account];
                              accounts_id_seq := accounts_id_seq (db s) + 1 |};
                     redis := redis s |} in
        (res_201 account, setEx now account s1)
  end.

(** [SELECT * FROM accounts WHERE id = $1 AND user_id = $2] *)
Definition select_account (d : database) (accountId userId : Z) : list account_row :=
  List.filter (fun a => (id a =? accountId) && (user_id a =? userId)) (accounts d).

(** [app.get('/:accountId')]: get account by id, the cache first. *)
Definition get_account (now : Z) (s : server) (userId accountId : Z) : response * server :=
  let from_database :=
    match select_account (db s) accountId userId with
    | [] => (res_404 (message "Account not found"), s)
    | account :: _ => (res_200 account, setEx now account s)
    end in
  match cache_get now s accountId with
  | Some account =>
      if user_id account =? userId then (res_200 account, s) else from_database
  | None => from_database
  end.

(** [app.get('/:accountId/balance')]: get account balance. *)
Definition get_balance (s : server) (userId accountId : Z) : response :=
  match select_account (db s) accountId userId with
  | [] => res_404 (message "Account not found")
  | account :: _ => res_200_balance (balance account) (currency account)
  end.

(** ** Sequences of requests *)

Inductive request :=
  | POST_account (now : Z) (accountNumber : string) (userId : Z) (body : account_body)
  | GET_account (now userId accountId : Z)
  | GET_balance (userId accountId : Z).

Definition handle (s : server) (r : request) : response * server :=
  match r with
  | POST_account now accountNumber userId body => create_account now accountNumber s userId body
  | GET_account now userId accountId => get_account now s userId accountId
  | GET_balance userId accountId => (get_balance s userId accountId, s)
  end.

Definition serve (s : server) (rs : list request) : server :=
  foldl (fun s1 r => (handle s1 r).2) s rs.

(** ** Vocabulary of the statements *)

(** The service before its first request: empty table, empty cache. *)
Definition fresh_server : server :=
  {| db := {| accounts := []; accounts_id_seq := 1 |}; redis := ∅ |}.

(** The same server with the cache flushed. *)
Definition without_cache (s : server) : server := {| db := db s; redis := ∅ |}.

(** Ids are unique and were all given by the sequence. *)
Definition well_keyed (d : database) : Prop :=
  NoDup (map id (accounts d))
  /\ forall a, In a (accounts d) -> id a < accounts_id_seq d.

(** Every cached account is a row of the table, under its own id. *)
Definition cache_coherent (s : server) : Prop :=
  forall k entry,
    redis s !! k = Some entry ->
    In (cached entry) (accounts (db s)) /\ id (cached entry) = k.

Definition sample_body : account_body :=
  {| accountType := checking; initialDeposit := Some 100000 |}.

End AccountService.

(* ===================================================================== *)
(** * Column types, and the statements that raise                         *)
(* ===================================================================== *)

(** [database/init.sql] gives the columns their types.  PostgreSQL refuses
    a parameter that does not fit the column it is compared with or
    stored in: the statement raises, the handler's [catch] sends
    [ROLLBACK] and the answer is 500. *)
Module ColumnTypes.

(** [INTEGER] *)
Definition fits_integer (n : Z) : bool :=
  (-2147483648 <=? n) && (n <=? 2147483647).

(** [BIGINT], the type of [LIMIT] and [OFFSET]. *)
Definition fits_bigint (n : Z) : bool :=
  (-9223372036854775808 <=? n) && (n <=? 9223372036854775807).

(** [DECIMAL(15,2)], on an amount in cents: fewer than 10^13 units. *)
Definition fits_decimal_15_2 (cents : Z) : bool :=
  (-1000000000000000 <? cents) && (cents <? 1000000000000000).

(** [TIMESTAMP] starts in 4713 BC, before the first [Date] of JavaScript;
    in milliseconds since 1970. *)
Definition fits_timestamp (ms : Z) : bool := -210866803200000 <=? ms.

(** [TEXT] and [VARCHAR]: a string with a NUL character is refused.
    Strings are taken character by character. *)
Fixpoint fits_text (s : string) : bool :=
  match s with
  | EmptyString => true
  | String c s' => negb (Ascii.eqb c Ascii.zero) && fits_text s'
  end.

Fixpoint only_spaces (s : string) : bool :=
  match s with
  | EmptyString => true
  | String c s' => Ascii.eqb c Ascii.Space && only_spaces s'
  end.

(** Storing into [VARCHAR(n)]: a longer string raises, unless what exceeds
    [n] characters is spaces, which are cut off. *)
Definition assign_varchar (n : nat) (s : string) : option string :=
  if negb (fits_text s) then None
  else if (String.length s <=? n)%nat then Some s
  else if only_spaces (String.substring n (String.length s - n) s)
  then Some (String.substring 0 n s)
  else None.

End ColumnTypes.

(* ===================================================================== *)
(** * Transaction service: the handlers with their [catch]                *)
(* ===================================================================== *)

(** [TransactionService] gives [POST /] and [POST /transfer] for values
    that fit the columns.  Here every statement checks its parameters
    first and the handlers have the 500 answer of their [catch].  A
    handler that raises has sent [ROLLBACK]: the tables are as before.

    The 400 answer to a body that the schema refuses leaves the client
    inside a transaction here too.  In this service such a transaction
    holds no write (the statements sent with [pool.query] only read), and
    a statement sent on the client reads the committed tables and writes
    as on any other client, so the pool is left out. *)
Module TransactionStatements.
Import TransactionService ColumnTypes.

Inductive answer :=
  | answered (res : response)
  | res_500 (error : error_message).

(** [SELECT user_id FROM account_ownership WHERE account_id = $1 AND
    user_id = $2] and [rows.length !== 0]; both columns are [INTEGER]. *)
Definition select_ownership (d : database) (accountId userId : Z) : option bool :=
  if fits_integer accountId && fits_integer userId
  then Some (ownershipCheck d accountId userId)
  else None.

(** The value stored in [reference_id VARCHAR(100)]. *)
Definition assign_reference (r : option reference) : option (option reference) :=
  match r with
  | Some (caller_reference x) =>
      (fun x' => Some (caller_reference x')) <$> assign_varchar 100 x
  | _ => Some r
  end.

(** [INSERT INTO transactions ... RETURNING *]: [account_id INTEGER],
    [amount DECIMAL(15,2)], [description TEXT], [reference_id
    VARCHAR(100)]; the row returned is the row as stored. *)
Definition try_insert_transaction (r : transaction_row) (d : database)
    : option (transaction_row * database) :=
  if fits_integer (account_id r) && fits_decimal_15_2 (amount r)
     && fits_text (description r)
  then
    stored_reference ← assign_reference (reference_id r);
    let stored :=
      {| id := id r; account_id := account_id r; row_type := row_type r;
         amount := amount r; description := description r;
         reference_id := stored_reference |} in
    Some (stored, insert_transaction stored d)
  else None.

(** [INSERT INTO account_balances ... ON CONFLICT ... DO UPDATE]:
    [account_id INTEGER], [balance DECIMAL(15,2)], for the value proposed
    for insertion and for the value the update computes. *)
Definition try_upsert_balance (accountId inserted : Z) (on_conflict : Z -> Z)
    (d : database) : option database :=
  if fits_integer accountId
     && fits_decimal_15_2 inserted
     && from_option (fun balance => fits_decimal_15_2 (on_conflict balance)) true
          (account_balances d !! accountId)
  then Some (upsert_balance accountId inserted on_conflict d)
  else None.

(** [app.post('/')]: create transaction.  [verifyAccountBalance] is called
    with an id that the ownership [SELECT] has taken: its query does not
    raise. *)
Definition post_transaction (s : server) (userId : Z) (body : transaction_body)
    : answer * server :=
  match transactionSchema_validate body with
  | Some key => (answered (res_400 (joi_message key)), s)
  | None =>
      let (transactionId, s1) := uuidv4 s in
      match select_ownership (db s1) (tx_accountId body) userId with
      | None => (res_500 (message "Transaction failed"), s1)
      | Some false => (answered (res_403 (message "Account access denied")), s1)
      | Some true =>
          let refused :=
            match tx_type body with
            | debit =>
                match verifyAccountBalance (db s1) (tx_accountId body) (tx_amount body) debit with
                | invalid e => Some e
                | valid _ => None
                end
            | credit => None
            end in
          match refused with
          | Some e => (answered (res_400 (message e)), s1)
          | None =>
              let balanceUpdate :=
                if bool_decide (tx_type body = credit)
                then tx_amount body else - tx_amount body in
              match
                inserted ← try_insert_transaction (transaction_row_of body transactionId) (db s1);
                d2 ← try_upsert_balance (tx_accountId body) balanceUpdate
                       (fun balance => balance + balanceUpdate) inserted.2;
                Some (inserted.1, d2)
              with
              | None => (res_500 (message "Transaction failed"), s1)
              | Some (transaction, d2) =>
                  (answered (res_201_transaction transaction),
                   publishEvent "transaction.created"
                     (transaction_created (id transaction) (account_id transaction)
                        (amount transaction) (row_type transaction) userId)
                     (set_db s1 d2))
              end
          end
      end
  end.

(** [app.post('/transfer')]: transfer between accounts. *)
Definition post_transfer (s : server) (userId : Z) (body : transfer_body)
    : answer * server :=
  match transferSchema_validate body with
  | Some key => (answered (res_400 (joi_message key)), s)
  | None =>
      let (transferId, s1) := uuidv4 s in
      match select_ownership (db s1) (fromAccountId body) userId with
      | None => (res_500 (message "Transfer failed"), s1)
      | Some false => (answered (res_403 (message "Source account access denied")), s1)
      | Some true =>
          match verifyAccountBalance (db s1) (fromAccountId body) (transfer_amount body) debit with
          | invalid e => (answered (res_400 (message e)), s1)
          | valid _ =>
              let (debitId, s2) := uuidv4 s1 in
              match try_insert_transaction (debit_leg debitId body transferId) (db s2) with
              | None => (res_500 (message "Transfer failed"), s2)
              | Some (debitTransaction, d1) =>
                  let (creditId, s3) := uuidv4 s2 in
                  match
                    inserted ← try_insert_transaction (credit_leg creditId body transferId) d1;
                    d3 ← try_upsert_balance (fromAccountId body) (transfer_amount body)
                           (fun balance => balance - transfer_amount body) inserted.2;
                    d4 ← try_upsert_balance (toAccountId body) (transfer_amount body)
                           (fun balance => balance + transfer_amount body) d3;
                    Some (inserted.1, d4)
                  with
                  | None => (res_500 (message "Transfer failed"), s3)
                  | Some (creditTransaction, d4) =>
                      (answered (res_201_transfer transferId debitTransaction creditTransaction),
                       publishEvent "transfer.completed"
                         (transfer_completed transferId (fromAccountId body)
                            (toAccountId body) (transfer_amount body) userId)
                         (set_db s3 d4))
                  end
              end
          end
      end
  end.

(** The caller's [referenceId] is stored as it is. *)
Definition reference_fits (body : transaction_body) : Prop :=
  match tx_referenceId body with
  | Some x => fits_text x = true /\ (String.length x <= 100)%nat
  | None => True
  end.

Section History.
Import TransactionHistory.

Variable newest_first : list transaction_row -> list transaction_row.

(** [app.get('/history/:accountId')]: the ownership [SELECT] raises for an
    id outside [INTEGER], the page [SELECT] for a [LIMIT] or [OFFSET] that
    is negative or outside [BIGINT]; the [catch] answers 500. *)
Definition get_history (d : database) (userId accountId : Z) (page limit : option Z)
    : history_response :=
  let page := default 1 page in
  let limit := default 20 limit in
  let offset := (page - 1) * limit in
  match select_ownership d accountId userId with
  | None => history_500 "Failed to retrieve transaction history"
  | Some false => history_403 "Account access denied"
  | Some true =>
      if (limit <? 0) || (offset <? 0) || negb (fits_bigint limit && fits_bigint offset)
      then history_500 "Failed to retrieve transaction history"
      else
        let result :=
          take (Z.to_nat limit)
            (drop (Z.to_nat offset) (newest_first (entries_of accountId (transactions d)))) in
        let count := Z.of_nat (length (entries_of accountId (transactions d))) in
        history_200 result
          {| page := page;
             limit := limit;
             total := count;
             pages := if limit =? 0 then None else Some ((count + limit - 1) / limit) |}
  end.

End History.

(** A transfer to an account id that only Joi accepts. *)
Definition far_transfer : transfer_body :=
  {| fromAccountId := 1; toAccountId := 3000000000; transfer_amount := 40000;
     transfer_description := "rent" |}.

End TransactionStatements.

(* ===================================================================== *)
(** * Pooled connections                                                  *)
(* ===================================================================== *)

(** [app.post] handlers take a client with [pool.connect()], send [BEGIN]
    and only then validate the body; on a validation error they answer 400
    without [ROLLBACK], and [client.release()] gives the client back to the
    pool inside its transaction.  The pool hands such a client out again
    like any other, to [pool.connect()] and to [pool.query()].  A handler
    that holds a client ends the transaction before it releases it on any
    other path ([COMMIT], or [ROLLBACK] before a 403 and in the [catch]),
    and [pool.query()] gives a client on which its statement raised back
    with the error, upon which the pool closes it.  So a client of the
    pool is in no transaction or in one that is in progress.  The pool is
    modelled by the list of its idle clients that are inside a
    transaction, with what the service needs to know of each ([T]). *)
Module ConnectionPool.

Section Pool.

Context {T : Type}.

(** The client that the pool hands out is the pool's choice: [Some i] is
    the [i]-th client left in a transaction, anything else a client that
    is in none. *)
Definition taken (l : list T) (pick : option nat) : option T :=
  pick ≫= (l !!.).

Definition others (l : list T) (pick : option nat) : list T :=
  match pick with
  | Some i => delete i l
  | None => l
  end.

(** [client.release()], or the end of [pool.query()]: the client goes back
    as [after] says, inside a transaction or not (also when the pool
    closes it). *)
Definition put_back (l : list T) (pick : option nat) (after : option T) : list T :=
  match pick, taken l pick, after with
  | Some i, Some _, Some t => <[i := t]> l
  | Some i, Some _, None => delete i l
  | _, _, Some t => l ++ [t]
  | _, _, None => l
  end.

(** The client on which a [pool.query()] is sent while the handler holds
    the client [pick]: another one. *)
Definition second_client (l : list T) (pick query_pick : option nat) : option T :=
  if bool_decide (query_pick = pick) then None else taken l query_pick.

(** The pool closes a client that stayed idle for [idleTimeoutMillis]; the
    database rolls its transaction back. *)
Definition idle_timeout (i : nat) (l : list T) : list T := delete i l.

End Pool.

End ConnectionPool.

(* ===================================================================== *)
(** * Payment service: pooled connections and the handlers' [catch]       *)
(* ===================================================================== *)

(** [PaymentService] gives the handlers on a connection that is in no
    transaction, for values that fit the columns.  Here every statement
    runs on the client that the pool hands out, among them the clients
    that [app.post('/')] has released inside a transaction, and the
    handlers have the 500 answer of their [catch].

    PostgreSQL runs a transaction at READ COMMITTED: each statement sees
    the committed rows and the writes of its own transaction, [NOW()] is
    the time the transaction began (the time of the statement when there
    is none), and an updated row stays locked until [COMMIT] or
    [ROLLBACK]. *)
Module PaymentConnections.
Import PaymentService ColumnTypes ConnectionPool.

(** A client released inside a transaction, which is in progress.
    [cancelled_here] lists the rows of [payments] (by position, rows are
    only ever appended) that it has updated and not committed. *)
Inductive open_transaction :=
  | in_progress (began_at : Z) (cancelled_here : list nat).

Definition cancelled_here (t : open_transaction) : list nat :=
  match t with
  | in_progress _ rows => rows
  end.

(** The process: what is committed and was sent, and the idle clients of
    the pool that are inside a transaction. *)
Record service := {
  live : server;
  left_open : list open_transaction
}.

(** [NOW()] of a statement sent on the client at clock value [clock]. *)
Definition now_of (c : option open_transaction) (clock : Z) : Z :=
  match c with
  | Some (in_progress began_at _) => began_at
  | None => clock
  end.

(** The rows of [payments] as a statement on the client reads them. *)
Definition rows_seen (c : option open_transaction) (committed : list payment_row)
    : list payment_row :=
  match c with
  | Some (in_progress began_at mine) =>
      imap (fun i p => if bool_decide (i ∈ mine) then cancelled_row began_at p else p)
        committed
  | None => committed
  end.

Definition tables_seen (c : option open_transaction) (d : database) : database :=
  {| payments := rows_seen c (payments d); account_ownership := account_ownership d |}.

(** The row is locked by one of the transactions. *)
Definition locked (l : list open_transaction) (i : nat) : bool :=
  existsb (fun t => bool_decide (i ∈ cancelled_here t)) l.

(** Positions of the rows that the cancelling [UPDATE] matches. *)
Definition matching (d : database) (paymentId : uuid) (userId : Z) : list nat :=
  fst <$> List.filter (fun ip => cancellable d paymentId userId ip.2)
            (imap pair (payments d)).

Inductive reply :=
  | answered (res : response)
  | res_500 (error : error_message)
  | waiting.       (* the statement waits for a row lock: no answer yet *)

Definition with_live (s : service) (s1 : server) : service :=
  {| live := s1; left_open := left_open s |}.

(** [app.delete('/:paymentId')]: cancel payment.  The [UPDATE] is sent with
    [pool.query]: on a client in no transaction it is committed at once,
    on a client left in a transaction it stays uncommitted.  It raises for
    a [userId] outside [INTEGER] ([account_ownership.user_id]); the pool
    then closes the client, which rolls back what its transaction had
    cancelled.  When a row it matches is locked by another transaction it
    waits; what happens when the wait ends is not modelled.  [paymentId]
    is taken among the values of [uuidv4()], which is what the [id] column
    holds. *)
Definition delete_payment (clock : Z) (pick : option nat) (s : service) (userId : Z)
    (paymentId : uuid) : reply * service :=
  let l := left_open s in
  let c := taken l pick in
  if negb (fits_integer userId)
  then (res_500 (message "Failed to cancel payment"),
        {| live := live s; left_open := put_back l pick None |})
  else
    let seen := tables_seen c (db (live s)) in
    if existsb (locked (others l pick)) (matching seen paymentId userId)
    then (waiting, s)
    else
      let (updated, rows) := update_cancel (now_of c clock) seen paymentId userId in
      let s1 :=
        match c with
        | Some (in_progress began_at mine) =>
            {| live := live s;
               left_open :=
                 put_back l pick
                   (Some (in_progress began_at (mine ++ matching seen paymentId userId))) |}
        | None => with_live s (set_db (live s) updated)
        end in
      match rows with
      | [] => (answered (res_404 (message "Payment not found or cannot be cancelled")), s1)
      | row :: _ =>
          (answered (res_200 "Payment cancelled successfully"),
           with_live s1
             (publishEvent "payment.cancelled" (payment_cancelled (id row) userId)
                (live s1)))
      end.

(** The body of [cron.schedule('* * * * *', ...)], one tick; the [SELECT]
    is sent with [pool.query] and has no parameter. *)
Definition sweep (clock : Z) (pick : option nat) (s : service) : service :=
  let c := taken (left_open s) pick in
  let rows := List.filter (due (now_of c clock)) (rows_seen c (payments (db (live s)))) in
  with_live s
    (foldl (fun s1 row => sendToQueue_if_channel (process_scheduled (id row)) s1)
       (live s) rows).

(** Ticks at the given clock values, each on the client the pool picks. *)
Definition sweeps (s : service) (ticks : list (Z * option nat)) : service :=
  foldl (fun s1 tick => sweep tick.1 tick.2 s1) s ticks.

(** [CHECK (payment_type IN ('transfer', 'payment'))] *)
Definition check_payment_type (t : payment_type) : bool :=
  match t with
  | transfer | payment => true
  | bill_pay => false
  end.

(** The [INSERT] of [app.post('/')] does not raise: [payment_type] passes
    its [CHECK], [amount] is [DECIMAL(15,2)], [to_account_id] is
    [INTEGER], [currency] and [description] are text and [scheduled_at]
    is [TIMESTAMP].  The columns that [database/init.sql] does not
    declare take what the handler stores in them. *)
Definition accepted (paymentData : payment_body) : bool :=
  check_payment_type (paymentType paymentData)
  && fits_decimal_15_2 (body_amount paymentData)
  && from_option fits_integer true (toAccountId paymentData)
  && fits_text (default "USD"%string (body_currency paymentData))
  && fits_text (body_description paymentData)
  && from_option fits_timestamp true (scheduledAt paymentData).

(** [app.post('/')]: create payment, at clock value [clock], on the client
    [pick], [detectFraud] sending its query on the client [fraud_pick].
    [BEGIN] on a client inside a transaction is a warning and nothing
    else.  The query of [detectFraud] has for parameter an account id that
    the ownership [SELECT] has taken: it does not raise. *)
Definition post_payment (clock : Z) (pick fraud_pick : option nat) (s : service)
    (userId : Z) (body : payment_body) : reply * service :=
  let l := left_open s in
  let c := taken l pick in
  let began_at := now_of c clock in
  let mine := from_option cancelled_here [] c in
  match paymentSchema_validate body with
  | Some key =>
      (answered (res_400 (joi_message key)),
       {| live := live s;
          left_open := put_back l pick (Some (in_progress began_at mine)) |})
  | None =>
      let paymentData := body in
      let (paymentId, s1) := uuidv4 (live s) in
      let rolled_back := {| live := s1; left_open := put_back l pick None |} in
      if negb (fits_integer (fromAccountId paymentData) && fits_integer userId)
      then (res_500 (message "Payment creation failed"), rolled_back)
      else if negb (ownershipCheck (db s1) (fromAccountId paymentData) userId)
      then (answered (res_403 (message "Account access denied")), rolled_back)
      else
        let c2 := second_client l pick fraud_pick in
        let fraudCheck :=
          detectFraud (tables_seen c2 (db s1)) (now_of c2 clock) paymentData userId in
        let scheduled := isScheduled clock paymentData in
        let status := initial_status scheduled (requiresReview fraudCheck) in
        if negb (accepted paymentData)
        then (res_500 (message "Payment creation failed"), rolled_back)
        else
          let row :=
            {| id := paymentId;
               from_account_id := fromAccountId paymentData;
               to_account_id := toAccountId paymentData;
               amount := body_amount paymentData;
               currency := default "USD"%string (body_currency paymentData);
               row_type := paymentType paymentData;
               description := body_description paymentData;
               status := status;
               scheduled_at := scheduledAt paymentData;
               payee := externalPayee paymentData;
               risk_score := riskScore fraudCheck;
               created_at := began_at;
               updated_at := None |} in
          (* [COMMIT]: with the row, whatever the transaction had
             cancelled before *)
          let s2 := set_db s1 (insert_payment row (tables_seen c (db s1))) in
          let s3 :=
            if negb scheduled && negb (requiresReview fraudCheck)
            then sendToQueue_if_channel (process_created (id row) userId) s2
            else s2 in
          let s4 := publishEvent "payment.created"
                      (payment_created (id row) (from_account_id row)
                         (to_account_id row) (amount row) status userId) s3 in
          (answered (res_201 row), {| live := s4; left_open := put_back l pick None |})
  end.

(** The pool closes the idle client [i]. *)
Definition closed (i : nat) (s : service) : service :=
  {| live := live s; left_open := idle_timeout i (left_open s) |}.

(** The committed status of the payments stored under an id. *)
Definition committed_status (s : service) (paymentId : uuid) : list string :=
  status <$> List.filter (fun p => (id p =? paymentId)%N) (payments (db (live s))).

(** ** Sample data *)

Definition sample_service (up : bool) : service :=
  {| live := sample_server up; left_open := [] |}.

(** A body that [paymentSchema] refuses. *)
Definition refused_body : payment_body :=
  {| fromAccountId := 1; toAccountId := Some 2; body_amount := 0;
     body_currency := None; paymentType := transfer; body_description := "rent";
     scheduledAt := None; externalPayee := None |}.

Definition bill_body : payment_body :=
  {| fromAccountId := 1; toAccountId := None; body_amount := 2500;
     body_currency := None; paymentType := bill_pay; body_description := "power";
     scheduledAt := None; externalPayee := None |}.

End PaymentConnections.

(* ===================================================================== *)
(** * Properties of the transaction service                               *)
(* ===================================================================== *)

Module TransactionServiceTheory.
Import TransactionService.

(** ** Bookkeeping: what the helpers leave alone *)

Lemma publishEvent_db e d s : db (publishEvent e d s) = db s.
Proof. unfold publishEvent. destruct (channel s); reflexivity. Qed.

(** ** Sums over the ledger *)

Lemma entries_of_app a l1 l2 :
  entries_of a (l1 ++ l2) = entries_of a l1 ++ entries_of a l2.
Proof. unfold entries_of. apply filter_app. Qed.

Lemma ledger_sum_app a l1 l2 :
  ledger_sum a (l1 ++ l2) = ledger_sum a l1 + ledger_sum a l2.
Proof.
  unfold ledger_sum. rewrite entries_of_app.
  induction (entries_of a l1) as [|t l IH]; simpl; [reflexivity | rewrite IH; lia].
Qed.

Lemma entries_of_single a t :
  entries_of a [t] = if decide (account_id t = a) then [t] else [].
Proof.
  unfold entries_of. rewrite filter_cons, filter_nil.
  destruct (decide (account_id t = a)); reflexivity.
Qed.

Lemma ledger_sum_single a t :
  ledger_sum a [t] = if decide (account_id t = a) then signed_amount t else 0.
Proof.
  unfold ledger_sum. rewrite entries_of_single.
  destruct (decide (account_id t = a)); simpl; lia.
Qed.

Lemma ledger_sum_no_entries a l : entries_of a l = [] -> ledger_sum a l = 0.
Proof. unfold ledger_sum. intros ->. reflexivity. Qed.

(** ** One posting: an entry and the balance update that goes with it *)

Lemma posting_invariant t ins f d :
  ledger_invariant d ->
  (forall balance, f balance = balance + signed_amount t) ->
  (account_balances d !! account_id t = None -> ins = signed_amount t) ->
  ledger_invariant (posting t ins f d).
Proof.
  intros Hinv Hf Hins a. specialize (Hinv a).
  unfold posting, upsert_balance, insert_transaction; simpl.
  destruct (decide (account_id t = a)) as [<-|Hne].
  - destruct (account_balances d !! account_id t) as [b|] eqn:Hb.
    + rewrite lookup_insert_eq, ledger_sum_app, ledger_sum_single, Hf.
      rewrite decide_True by reflexivity. lia.
    + rewrite lookup_insert_eq, ledger_sum_app, ledger_sum_single.
      rewrite decide_True by reflexivity.
      rewrite (ledger_sum_no_entries _ _ Hinv), Hins by reflexivity. lia.
  - assert (Hl : forall m v, <[account_id t := v]> m !! a = (m : gmap Z Z) !! a)
      by (intros; apply lookup_insert_ne; assumption).
    destruct (account_balances d !! account_id t); rewrite Hl;
      (destruct (account_balances d !! a);
       [ rewrite ledger_sum_app, ledger_sum_single, decide_False by assumption; lia
       | rewrite entries_of_app, entries_of_single, decide_False by assumption;
         rewrite Hinv; reflexivity ]).
Qed.

Lemma posting_keeps_rows t ins f d a :
  is_Some (account_balances d !! a) ->
  is_Some (account_balances (posting t ins f d) !! a).
Proof.
  intros Ha. unfold posting, upsert_balance, insert_transaction; simpl.
  destruct (decide (account_id t = a)) as [<-|Hne].
  - destruct (account_balances d !! account_id t); rewrite lookup_insert_eq; eauto.
  - destruct (account_balances d !! account_id t);
      rewrite lookup_insert_ne by assumption; exact Ha.
Qed.

(** ** What the two halves of a handler do to the database *)

Lemma transaction_checks_db s userId body : db (transaction_checks s userId body).2 = db s.
Proof.
  unfold transaction_checks.
  destruct (transactionSchema_validate body); [reflexivity|]. simpl.
  destruct (negb _); [reflexivity|].
  destruct (tx_type body); [|reflexivity].
  destruct (verifyAccountBalance _ _ _ _); reflexivity.
Qed.

Lemma transfer_checks_db s userId body : db (transfer_checks s userId body).2 = db s.
Proof.
  unfold transfer_checks.
  destruct (transferSchema_validate body); [reflexivity|]. simpl.
  destruct (negb _); [reflexivity|].
  destruct (verifyAccountBalance _ _ _ _); reflexivity.
Qed.

Lemma checks_db s r : db (checks s r).2 = db s.
Proof. destruct r; [apply transaction_checks_db | apply transfer_checks_db]. Qed.

Lemma verify_debit_valid d a amount currentBalance :
  verifyAccountBalance d a amount debit = valid currentBalance ->
  account_balances d !! a = Some currentBalance /\ amount <= currentBalance.
Proof.
  unfold verifyAccountBalance. destruct (account_balances d !! a) as [b|]; [|discriminate].
  rewrite bool_decide_eq_true_2 by reflexivity. simpl.
  destruct (b <? amount) eqn:Hlt; [discriminate|].
  intros [= <-]. split; [reflexivity | lia].
Qed.

(** A transfer that passes its checks: what was checked. *)
Lemma transfer_checks_passed s userId body k s1 :
  transfer_checks s userId body = (inr k, s1) ->
  k = transfer_checked userId body (next_uuid s)
  /\ s1 = (uuidv4 s).2
  /\ transferSchema_validate body = None
  /\ ownershipCheck (db s) (fromAccountId body) userId = true
  /\ exists currentBalance,
       account_balances (db s) !! fromAccountId body = Some currentBalance
       /\ transfer_amount body <= currentBalance.
Proof.
  unfold transfer_checks.
  destruct (transferSchema_validate body); [discriminate|]. simpl.
  destruct (ownershipCheck (db s) (fromAccountId body) userId); simpl; [|discriminate].
  destruct (verifyAccountBalance _ _ _ _) as [b|] eqn:Hv; [|discriminate].
  intros [= <- <-]. apply verify_debit_valid in Hv.
  repeat split; eauto.
Qed.

Lemma transaction_checks_passed s userId body k s1 :
  transaction_checks s userId body = (inr k, s1) ->
  k = transaction_checked userId body (next_uuid s)
  /\ (tx_type body = debit -> is_Some (account_balances (db s) !! tx_accountId body)).
Proof.
  unfold transaction_checks.
  destruct (transactionSchema_validate body); [discriminate|]. simpl.
  destruct (negb _); [discriminate|].
  destruct (tx_type body) eqn:Ht.
  - destruct (verifyAccountBalance _ _ _ _) as [b|] eqn:Hv; [|discriminate].
    intros [= <- <-]. apply verify_debit_valid in Hv. split; [reflexivity|]. intros _.
    destruct Hv as [-> _]. eauto.
  - intros [= <- <-]. split; [reflexivity | discriminate].
Qed.

Lemma transfer_commit_db s userId value transferId :
  db (transfer_commit s userId value transferId).2
  = posting (credit_leg (N.succ (next_uuid s)) value transferId)
      (transfer_amount value) (fun balance => balance + transfer_amount value)
      (posting (debit_leg (next_uuid s) value transferId)
         (transfer_amount value) (fun balance => balance - transfer_amount value)
         (db s)).
Proof. unfold transfer_commit. simpl. rewrite publishEvent_db. reflexivity. Qed.

Lemma transfer_commit_response s userId value transferId :
  (transfer_commit s userId value transferId).1
  = res_201_transfer transferId
      (debit_leg (next_uuid s) value transferId)
      (credit_leg (N.succ (next_uuid s)) value transferId).
Proof. reflexivity. Qed.

Lemma transaction_commit_db s userId value transactionId :
  db (transaction_commit s userId value transactionId).2
  = posting (transaction_row_of value transactionId)
      (signed_amount (transaction_row_of value transactionId))
      (fun balance => balance + signed_amount (transaction_row_of value transactionId))
      (db s).
Proof.
  unfold transaction_commit. simpl. rewrite publishEvent_db.
  unfold signed_amount, transaction_row_of; simpl.
  destruct (tx_type value); reflexivity.
Qed.

(** ** Transfers *)

(** C1 (as amended): a successful transfer appends exactly two entries, a
    debit on the source and a credit on the destination, of the same amount
    and with the transfer id as their reference, so the debit amount minus
    the credit amount is zero.  When the two accounts differ the source
    balance goes down by the amount and the destination balance (0 if it had
    no row) goes up by it; when they are the same account its balance is
    left as it was. *)
Theorem transfer_two_legs s userId body transferId debitTransaction creditTransaction s' :
  transfer s userId body
    = (res_201_transfer transferId debitTransaction creditTransaction, s') ->
  transactions (db s') = transactions (db s) ++ [debitTransaction; creditTransaction]
  /\ account_id debitTransaction = fromAccountId body
  /\ row_type debitTransaction = debit
  /\ account_id creditTransaction = toAccountId body
  /\ row_type creditTransaction = credit
  /\ amount debitTransaction = transfer_amount body
  /\ amount creditTransaction = transfer_amount body
  /\ reference_id debitTransaction = Some (transfer_reference transferId)
  /\ reference_id creditTransaction = Some (transfer_reference transferId)
  /\ amount debitTransaction + - amount creditTransaction = 0
  /\ (fromAccountId body <> toAccountId body ->
        account_balances (db s') !! fromAccountId body
          = Some (balance_of (db s) (fromAccountId body) - transfer_amount body)
        /\ account_balances (db s') !! toAccountId body
          = Some (balance_of (db s) (toAccountId body) + transfer_amount body))
  /\ (fromAccountId body = toAccountId body ->
        account_balances (db s') !! fromAccountId body
          = Some (balance_of (db s) (fromAccountId body)))
  /\ (forall a, a <> fromAccountId body -> a <> toAccountId body ->
        account_balances (db s') !! a = account_balances (db s) !! a).
Proof.
  unfold transfer, handle, checks.
  destruct (transfer_checks s userId body) as [[res|k] s1] eqn:Hc.
  - intros [= -> ->]. exfalso. revert Hc. unfold transfer_checks.
    destruct (transferSchema_validate body); [discriminate|]. simpl.
    destruct (negb _); [discriminate|].
    destruct (verifyAccountBalance _ _ _ _); discriminate.
  - apply transfer_checks_passed in Hc as (-> & -> & _ & _ & b & Hb & Hle).
    unfold commit. intros Hcommit.
    pose proof (f_equal fst Hcommit) as Hres. pose proof (f_equal snd Hcommit) as Hst.
    rewrite transfer_commit_response in Hres. cbn [fst] in Hres.
    injection Hres as <- <- <-.
    pose proof (f_equal db Hst) as Hdb. rewrite transfer_commit_db in Hdb.
    cbn [snd] in Hdb.
    rewrite <- Hdb. clear Hcommit Hst Hdb s'.
    unfold posting, upsert_balance, insert_transaction, balance_of; simpl.
    rewrite Hb; simpl.
    split; [rewrite <- app_assoc; reflexivity|].
    repeat (split; [reflexivity || lia|]).
    split; [|split].
    + intros Hne. rewrite lookup_insert_ne by assumption.
      destruct (account_balances (db s) !! toAccountId body) as [b'|]; simpl;
        rewrite lookup_insert_eq, lookup_insert_ne, lookup_insert_eq by congruence;
        split; f_equal; lia.
    + intros <-. rewrite lookup_insert_eq, lookup_insert_eq. f_equal. lia.
    + intros a Hf Ht.
      destruct (<[fromAccountId body := b - transfer_amount body]>
                  (account_balances (db s)) !! toAccountId body);
        rewrite !lookup_insert_ne by congruence; reflexivity.
Qed.

(** ** The balance invariant *)

Lemma commit_invariant s k :
  ledger_invariant (db s) ->
  (forall a, verified_account k = Some a -> is_Some (account_balances (db s) !! a)) ->
  ledger_invariant (db (commit s k).2).
Proof.
  intros Hinv Hrow. destruct k as [userId value transactionId | userId value transferId];
    cbn [commit].
  - rewrite transaction_commit_db. apply posting_invariant; [assumption | reflexivity..].
  - rewrite transfer_commit_db.
    apply posting_invariant; [apply posting_invariant | |]; try assumption.
    + intros balance. unfold signed_amount; simpl. lia.
    + simpl. intros Hnone. destruct (Hrow _ eq_refl) as [b Hb]. congruence.
    + intros balance. unfold signed_amount; simpl. lia.
    + reflexivity.
Qed.

Lemma commit_keeps_rows s k a :
  is_Some (account_balances (db s) !! a) ->
  is_Some (account_balances (db (commit s k).2) !! a).
Proof.
  intros Ha. destruct k; cbn [commit].
  - rewrite transaction_commit_db. apply posting_keeps_rows, Ha.
  - rewrite transfer_commit_db. apply posting_keeps_rows, posting_keeps_rows, Ha.
Qed.

Lemma checks_verified s r k s1 a :
  checks s r = (inr k, s1) ->
  verified_account k = Some a ->
  is_Some (account_balances (db s) !! a).
Proof.
  destruct r as [userId body | userId body]; simpl; intros Hc.
  - apply transaction_checks_passed in Hc as [-> Hrow]. simpl.
    destruct (tx_type body); [|discriminate]. intros [= <-]. apply Hrow. reflexivity.
  - apply transfer_checks_passed in Hc as (-> & _ & _ & _ & b & Hb & _). simpl.
    intros [= <-]. rewrite Hb. eauto.
Qed.

Lemma handle_invariant s r :
  ledger_invariant (db s) -> ledger_invariant (db (handle s r).2).
Proof.
  intros Hinv. unfold handle.
  destruct (checks s r) as [[res|k] s1] eqn:Hc;
    pose proof (checks_db s r) as Hdb; rewrite Hc in Hdb; simpl in Hdb.
  - simpl. rewrite Hdb. exact Hinv.
  - apply commit_invariant; rewrite Hdb; [exact Hinv|].
    intros a. eapply checks_verified, Hc.
Qed.

Lemma serve_invariant rs : forall s,
  ledger_invariant (db s) -> ledger_invariant (db (serve s rs).2).
Proof.
  induction rs as [|r rs IH]; intros s Hinv; simpl; [exact Hinv|].
  destruct (handle s r) as [res s1] eqn:Hh.
  specialize (IH s1). destruct (serve s1 rs) as [out s2]. simpl in *.
  apply IH. pose proof (handle_invariant s r Hinv) as H. rewrite Hh in H. exact H.
Qed.

Lemma step_invariant n a :
  ledger_invariant (db (srv n)) /\ verified_rows_present n ->
  ledger_invariant (db (srv (step n a))) /\ verified_rows_present (step n a).
Proof.
  intros [Hinv Hrows]. destruct a as [r | slot]; simpl.
  - destruct (checks (srv n) r) as [[res|k] s1] eqn:Hc;
      pose proof (checks_db (srv n) r) as Hdb; rewrite Hc in Hdb; simpl in Hdb;
      simpl; rewrite Hdb; (split; [exact Hinv|]);
      intros i k' a Hi Hk'; simpl in *; rewrite ?Hdb.
    + apply lookup_app_Some in Hi as [Hi | [_ Hi]]; [eapply Hrows; eassumption|].
      apply list_lookup_singleton_Some in Hi as [_ Hi]. discriminate.
    + apply lookup_app_Some in Hi as [Hi | [_ Hi]]; [eapply Hrows; eassumption|].
      apply list_lookup_singleton_Some in Hi as [_ [= <-]].
      eapply checks_verified; eassumption.
  - destruct (in_flight n !! slot) as [[k|]|] eqn:Hslot; [|split; assumption..].
    destruct (commit (srv n) k) as [res s1] eqn:Hk; simpl.
    assert (Hs1 : s1 = (commit (srv n) k).2) by (rewrite Hk; reflexivity).
    split.
    + rewrite Hs1. apply commit_invariant; [exact Hinv|]. intros a. eapply Hrows, Hslot.
    + intros i k' a Hi Hk'; simpl in *.
      destruct (decide (slot = i)) as [<-|Hne].
      * rewrite list_lookup_insert_eq in Hi by (eapply lookup_lt_Some, Hslot). discriminate.
      * rewrite list_lookup_insert_ne in Hi by assumption.
        rewrite Hs1. apply commit_keeps_rows. eapply Hrows; eassumption.
Qed.

Lemma run_invariant sched : forall n,
  ledger_invariant (db (srv n)) /\ verified_rows_present n ->
  ledger_invariant (db (srv (run n sched))) /\ verified_rows_present (run n sched).
Proof.
  unfold run. induction sched as [|a sched IH]; intros n Hn; simpl; [exact Hn|].
  apply IH, step_invariant, Hn.
Qed.

(** C2: when every balance row is the signed sum of the account's entries
    (credits positive, debits negative), it still is after any sequence of
    single-leg transactions and transfers, served one after the other or
    interleaved at their awaits. *)
Theorem balance_is_ledger_sum s :
  ledger_invariant (db s) ->
  (forall rs a, balance_of (db (serve s rs).2) a
                = ledger_sum a (transactions (db (serve s rs).2)))
  /\ (forall sched a, balance_of (db (srv (run (boot s) sched))) a
                = ledger_sum a (transactions (db (srv (run (boot s) sched))))).
Proof.
  intros Hinv.
  assert (Hread : forall d, ledger_invariant d ->
            forall a, balance_of d a = ledger_sum a (transactions d)).
  { intros d Hd a. specialize (Hd a). unfold balance_of.
    destruct (account_balances d !! a); simpl;
      [exact Hd | symmetry; apply ledger_sum_no_entries, Hd]. }
  split.
  - intros rs. apply Hread, serve_invariant, Hinv.
  - intros sched. apply Hread. apply run_invariant. split; [exact Hinv|].
    intros slot k a Hslot. simpl in Hslot. rewrite lookup_nil in Hslot. discriminate.
Qed.

Lemma fresh_server_invariant ownership up :
  ledger_invariant (db (fresh_server ownership up)).
Proof. intros a. simpl. rewrite lookup_empty. reflexivity. Qed.

Lemma sample_server_invariant : ledger_invariant (db sample_server).
Proof.
  intros a. simpl. destruct (decide (a = 1)) as [->|Hne].
  - rewrite lookup_singleton_eq. reflexivity.
  - rewrite lookup_singleton_ne by congruence.
    rewrite entries_of_single. apply decide_False. simpl. congruence.
Defined.

Lemma balance_is_ledger_sum_witness :
  ledger_invariant (db sample_server)
  /\ balance_of (db (serve sample_server
                       [POST_transfer 7 (sample_transfer 2 40000);
                        POST_transaction 7 sample_deposit]).2) 1
     = ledger_sum 1 (transactions (db (serve sample_server
                       [POST_transfer 7 (sample_transfer 2 40000);
                        POST_transaction 7 sample_deposit]).2)).
Proof.
  split; [exact sample_server_invariant|].
  apply (balance_is_ledger_sum sample_server sample_server_invariant).
Defined.

Lemma transfer_two_legs_witness :
  transfer sample_server 7 (sample_transfer 2 40000)
    = (res_201_transfer 1%N (debit_leg 2%N (sample_transfer 2 40000) 1%N)
         (credit_leg 3%N (sample_transfer 2 40000) 1%N),
       (transfer sample_server 7 (sample_transfer 2 40000)).2)
  /\ account_balances (db (transfer sample_server 7 (sample_transfer 2 40000)).2) !! 1
     = Some (100000 - 40000)
  /\ account_balances (db (transfer sample_server 7 (sample_transfer 2 40000)).2) !! 2
     = Some (0 + 40000).
Proof.
  assert (H : transfer sample_server 7 (sample_transfer 2 40000)
    = (res_201_transfer 1%N (debit_leg 2%N (sample_transfer 2 40000) 1%N)
         (credit_leg 3%N (sample_transfer 2 40000) 1%N),
       (transfer sample_server 7 (sample_transfer 2 40000)).2))
    by (vm_compute; reflexivity).
  split; [exact H|].
  apply (transfer_two_legs _ _ _ _ _ _ _ H). simpl. lia.
Defined.

(** C1 as stated fails when the two accounts are the same: the transfer
    succeeds and the source balance has not gone down by the amount. *)
Lemma transfer_to_same_account_keeps_balance :
  is_201_transfer (transfer sample_server 7 (sample_transfer 1 40000)).1 = true
  /\ balance_of (db sample_server) 1 = 100000
  /\ balance_of (db (transfer sample_server 7 (sample_transfer 1 40000)).2) 1 = 100000
  /\ balance_of (db (transfer sample_server 7 (sample_transfer 1 40000)).2) 1
     <> balance_of (db sample_server) 1 - 40000.
Proof. vm_compute. repeat split; discriminate. Qed.

(** ** Refusals *)

(** C3: for a valid transfer request of the owner of the source account,
    an amount above the source balance is answered with 'Insufficient
    funds', no entry is created and no balance is changed; an amount equal
    to the balance is not refused for lack of funds: the transfer is made. *)
Theorem transfer_insufficient_funds s userId body balance :
  transferSchema_validate body = None ->
  ownershipCheck (db s) (fromAccountId body) userId = true ->
  account_balances (db s) !! fromAccountId body = Some balance ->
  (balance < transfer_amount body ->
     (transfer s userId body).1 = res_400 (message "Insufficient funds")
     /\ db (transfer s userId body).2 = db s)
  /\ (transfer_amount body = balance ->
     (transfer s userId body).1 <> res_400 (message "Insufficient funds")
     /\ is_201_transfer (transfer s userId body).1 = true).
Proof.
  intros Hv Ho Hb. unfold transfer, handle, checks, transfer_checks.
  rewrite Hv. cbn [uuidv4 db]. rewrite Ho. cbn [negb].
  unfold verifyAccountBalance. rewrite Hb.
  rewrite bool_decide_eq_true_2 by reflexivity. cbn [andb].
  split; intros Ha.
  - assert ((balance <? transfer_amount body) = true) as -> by lia.
    split; reflexivity.
  - assert ((balance <? transfer_amount body) = false) as -> by lia.
    cbn [commit]. rewrite transfer_commit_response. cbn [fst is_201_transfer].
    split; [discriminate | reflexivity].
Qed.

Lemma transfer_insufficient_funds_witness :
  (transfer sample_server 7 (sample_transfer 2 150000)).1
    = res_400 (message "Insufficient funds")
  /\ db (transfer sample_server 7 (sample_transfer 2 150000)).2 = db sample_server.
Proof.
  apply (transfer_insufficient_funds sample_server 7 (sample_transfer 2 150000) 100000);
    [reflexivity | reflexivity | reflexivity | simpl; lia].
Defined.

(** ** Two transfers in flight *)

(** C4 fails on the code: with 1000.00 on account 1, two transfers of
    600.00 each are affordable alone and not together.  Served one after the
    other the second is refused; when both run their balance check before
    either commits, both are answered 201 and the balance ends at -200.00. *)
Theorem concurrent_transfers_both_succeed :
  let first := POST_transfer 7 (sample_transfer 2 60000) in
  let second := POST_transfer 7 (sample_transfer 3 60000) in
  let raced := run (boot sample_server) [arrive first; arrive second; resume 0; resume 1] in
  balance_of (db sample_server) 1 = 100000
  /\ is_201_transfer (handle sample_server first).1 = true
  /\ is_201_transfer (handle sample_server second).1 = true
  /\ map is_201_transfer (serve sample_server [first; second]).1 = [true; false]
  /\ map (fun a => (a.1, is_201_transfer a.2)) (answers raced) = [(0, true); (1, true)]%nat
  /\ balance_of (db (srv raced)) 1 = -20000
  /\ length (transactions (db (srv raced))) = 5%nat.
Proof. vm_compute. repeat split. Qed.

End TransactionServiceTheory.

(* ===================================================================== *)
(** * Properties of the payment service                                   *)
(* ===================================================================== *)

Module PaymentServiceTheory.
Import PaymentService.

(** ** Fraud detection *)

(** Case analysis on the two rules of [detectFraud]. *)
Ltac by_risk_factors :=
  unfold detectFraud; cbn [riskScore requiresReview riskFactors];
  destruct (1000000 <? _), (5 <? _); simpl; try reflexivity; try lia.

(** The count query, row by row: a row counts when it is a payment from
    the account and was created less than an hour before [now]. *)
Lemma recentPayments_counts d now account :
  recentPayments d now account
  = Z.of_nat (length (filter (fun p => from_account_id p = account
                                        /\ now - 3600000 < created_at p) (payments d))).
Proof.
  unfold recentPayments, one_hour. f_equal. f_equal.
  induction (payments d) as [|p l IH]; [reflexivity|].
  cbn [List.filter]. rewrite filter_cons.
  destruct (from_account_id p =? account) eqn:Ha, (now - 3600000 <? created_at p) eqn:Ht;
    cbn [andb].
  - rewrite decide_True by (split; lia). f_equal. exact IH.
  - rewrite decide_False by lia. exact IH.
  - rewrite decide_False by lia. exact IH.
  - rewrite decide_False by lia. exact IH.
Qed.

(** C7 (as amended): the risk score is the sum of 25 for an amount above
    10000.00 and of 25 for more than 5 rows of the payments table that are
    payments from the source account created within the hour before the
    [NOW()] of the count query, whatever their status; it lies between 0
    and 100; review is required exactly when the score is above 50; and
    the result depends on nothing but the amount and that count. *)
Theorem detectFraud_score d now paymentData userId :
  let recent :=
    filter (fun p => from_account_id p = fromAccountId paymentData
                     /\ now - 3600000 < created_at p) (payments d) in
  recentPayments d now (fromAccountId paymentData) = Z.of_nat (length recent)
  /\ riskFactors (detectFraud d now paymentData userId)
     = (if 1000000 <? body_amount paymentData then ["large_amount"%string] else [])
       ++ (if 5 <? Z.of_nat (length recent) then ["high_frequency"%string] else [])
  /\ riskScore (detectFraud d now paymentData userId)
     = (if 1000000 <? body_amount paymentData then 25 else 0)
       + (if 5 <? Z.of_nat (length recent) then 25 else 0)
  /\ 0 <= riskScore (detectFraud d now paymentData userId) <= 100
  /\ (requiresReview (detectFraud d now paymentData userId) = true
       <-> 50 < riskScore (detectFraud d now paymentData userId))
  /\ (forall d' now' paymentData' userId',
        body_amount paymentData' = body_amount paymentData ->
        recentPayments d' now' (fromAccountId paymentData')
          = recentPayments d now (fromAccountId paymentData) ->
        detectFraud d' now' paymentData' userId' = detectFraud d now paymentData userId).
Proof.
  intros recent. subst recent. split; [apply recentPayments_counts|].
  split; [unfold detectFraud; cbn [riskFactors]; rewrite recentPayments_counts;
          reflexivity|].
  split; [rewrite <- recentPayments_counts; by_risk_factors|].
  split; [by_risk_factors|]. split.
  - unfold detectFraud; cbn [riskScore requiresReview]. apply Z.ltb_lt.
  - intros d' now' paymentData' userId' Hamount Hcount.
    unfold detectFraud. rewrite Hamount, Hcount. reflexivity.
Qed.

(** C7 as stated fails: the count is over the payments table, not over the
    ledger.  Six deposits are six ledger entries against account 1 and no
    payment was made from it: the next payment from the account scores 0.
    Six payments from the account that were cancelled have left nothing in
    any ledger: the next payment scores 25 for 'high_frequency'. *)
Lemma ledger_entries_are_not_counted :
  let ledger :=
    (TransactionService.serve (TransactionService.fresh_server [(1, 7)] true)
       (replicate 6 (TransactionService.POST_transaction 7
                       TransactionService.sample_deposit))).2 in
  let no_payment := {| payments := []; account_ownership := [(1, 7)] |} in
  let cancelled_payments :=
    {| payments := map (fun i => sample_row i "cancelled" None) [0; 1; 2; 3; 4; 5]%N;
       account_ownership := [(1, 7)] |} in
  length (TransactionService.entries_of 1
            (TransactionService.transactions (TransactionService.db ledger))) = 6%nat
  /\ riskScore (detectFraud no_payment 5000 (sample_body None) 7) = 0
  /\ riskFactors (detectFraud no_payment 5000 (sample_body None) 7) = []
  /\ riskScore (detectFraud cancelled_payments 5000 (sample_body None) 7) = 25
  /\ riskFactors (detectFraud cancelled_payments 5000 (sample_body None) 7)
     = ["high_frequency"%string].
Proof. vm_compute. repeat split. Qed.

(** C10: the risk score never exceeds 50, so review is never required and
    no payment is created with status 'pending_review'. *)
Theorem detectFraud_never_requires_review now s userId body :
  riskScore (detectFraud (db s) now body userId) <= 50
  /\ requiresReview (detectFraud (db s) now body userId) = false
  /\ match (create_payment now s userId body).1 with
     | res_201 row => status row <> "pending_review"%string
     | _ => True
     end.
Proof.
  assert (Hreview : forall d, requiresReview (detectFraud d now body userId) = false)
    by (intros d; by_risk_factors).
  split; [|split].
  - by_risk_factors.
  - apply Hreview.
  - unfold create_payment.
    destruct (paymentSchema_validate body); [exact I|]. cbn [uuidv4].
    destruct (negb _); [exact I|]. cbn [fst status].
    rewrite Hreview. unfold initial_status.
    destruct (isScheduled now body); discriminate.
Qed.

(** ** Creation *)

Lemma publishEvent_keeps_queue e d s :
  payment_processing (publishEvent e d s) = payment_processing s.
Proof. unfold publishEvent. destruct (channel s); reflexivity. Qed.

Lemma publishEvent_keeps_db e d s : db (publishEvent e d s) = db s.
Proof. unfold publishEvent. destruct (channel s); reflexivity. Qed.

(** ** Cancellation *)

Lemma pkey_unique l p q :
  NoDup (map id l) -> In p l -> In q l -> id p = id q -> p = q.
Proof.
  induction l as [|x l IH]; simpl; [intros _ []|].
  intros Hnd Hp Hq Hid. apply NoDup_cons in Hnd as [Hx Hnd].
  assert (Hin : forall r, In r l -> id r <> id x).
  { intros r Hr Heq. apply Hx. rewrite <- Heq. apply list_elem_of_In, in_map, Hr. }
  destruct Hp as [<-|Hp], Hq as [<-|Hq].
  - reflexivity.
  - exfalso. apply (Hin q Hq). symmetry. exact Hid.
  - exfalso. apply (Hin p Hp). exact Hid.
  - apply IH; assumption.
Qed.

Lemma update_none (f : payment_row -> bool) g l :
  (forall q, In q l -> f q = false) ->
  map (fun q => if f q then g q else q) l = l /\ List.filter f l = [].
Proof.
  induction l as [|x l IH]; simpl; intros H; [split; reflexivity|].
  rewrite (H x) by (left; reflexivity).
  destruct IH as [-> ->]; [intros q Hq; apply H; right; exact Hq|].
  split; reflexivity.
Qed.

Lemma status_cancellable st :
  (String.eqb st "scheduled" || String.eqb st "pending_review") = true
  <-> st = "scheduled"%string \/ st = "pending_review"%string.
Proof.
  rewrite orb_true_iff, !String.eqb_eq. reflexivity.
Qed.

(** ** The sweep of scheduled payments *)

Lemma send_all s rows :
  let s' := foldl (fun s1 row => sendToQueue_if_channel (process_scheduled (id row)) s1)
              s rows in
  db s' = db s
  /\ channel s' = channel s
  /\ payment_processing s'
     = payment_processing s
       ++ (if channel s then map (fun row => process_scheduled (id row)) rows else []).
Proof.
  revert s. induction rows as [|row rows IH]; intros s; simpl.
  - repeat split. destruct (channel s); rewrite app_nil_r; reflexivity.
  - destruct (IH (sendToQueue_if_channel (process_scheduled (id row)) s)) as (Hd & Hc & Hq).
    rewrite Hd, Hc, Hq. unfold sendToQueue_if_channel.
    destruct (channel s) eqn:Hch; simpl; rewrite ?Hch; repeat split.
    rewrite <- app_assoc. reflexivity.
Qed.

Lemma due_iff now p :
  due now p = true
  <-> status p = "scheduled"%string
      /\ exists at_, scheduled_at p = Some at_ /\ at_ <= now.
Proof.
  unfold due. rewrite andb_true_iff, String.eqb_eq.
  destruct (scheduled_at p) as [at_|].
  - rewrite Z.leb_le. split.
    + intros [Hs Hle]. split; [exact Hs | exists at_; split; [reflexivity | exact Hle]].
    + intros [Hs (at' & [= <-] & Hle)]. split; assumption.
  - split; [intros [_ H]; discriminate H | intros [_ (at' & H & _)]; discriminate H].
Qed.

Lemma selected_once (f : payment_row -> bool) l p :
  NoDup (map id l) -> In p l ->
  length (List.filter (fun m => (message_payment m =? id p)%N)
            (map (fun row => process_scheduled (id row)) (List.filter f l)))
  = if f p then 1%nat else 0%nat.
Proof.
  induction l as [|x l IH]; simpl; [intros _ []|].
  intros Hnd Hp. apply NoDup_cons in Hnd as [Hx Hnd].
  assert (Hothers : forall r, In r l -> (id r =? id x)%N = false).
  { intros r Hr. apply N.eqb_neq. intros Heq. apply Hx. rewrite <- Heq.
    apply list_elem_of_In, in_map, Hr. }
  destruct Hp as [<-|Hp].
  - assert (Hrest : forall l', (forall r, In r l' -> In r l) ->
              List.filter (fun m => (message_payment m =? id x)%N)
                (map (fun row => process_scheduled (id row)) l') = []).
    { induction l' as [|y l' IH']; simpl; intros Hsub; [reflexivity|].
      rewrite (Hothers y) by (apply Hsub; left; reflexivity).
      apply IH'. intros r Hr. apply Hsub. right. exact Hr. }
    destruct (f x); simpl; rewrite ?N.eqb_refl; simpl;
      rewrite Hrest by (intros r Hr; apply filter_In in Hr; tauto); reflexivity.
  - rewrite <- (IH Hnd Hp).
    destruct (f x); simpl; [|reflexivity].
    assert ((id x =? id p)%N = false) as ->; [|reflexivity].
    rewrite N.eqb_sym. apply Hothers, Hp.
Qed.

End PaymentServiceTheory.

(* ===================================================================== *)
(** * Further properties of the transaction service                       *)
(* ===================================================================== *)

Module LedgerProperties.
Import TransactionService TransactionServiceTheory LedgerObservations.

(** ** What a handler leaves alone *)

Lemma checks_keep s r :
  db (checks s r).2 = db s
  /\ banking_events (checks s r).2 = banking_events s
  /\ channel (checks s r).2 = channel s.
Proof.
  destruct r as [userId body | userId body]; simpl.
  - unfold transaction_checks.
    destruct (transactionSchema_validate body); [auto|]. simpl.
    destruct (negb _); [auto|].
    destruct (tx_type body); [|auto].
    destruct (verifyAccountBalance _ _ _ _); auto.
  - unfold transfer_checks.
    destruct (transferSchema_validate body); [auto|]. simpl.
    destruct (negb _); [auto|].
    destruct (verifyAccountBalance _ _ _ _); auto.
Qed.

Lemma commit_is_201 s k : is_201 (commit s k).1 = true.
Proof. destruct k; reflexivity. Qed.

Lemma checks_refusal s r res s1 :
  checks s r = (inl res, s1) -> is_201 res = false.
Proof.
  destruct r as [userId body | userId body]; simpl.
  - unfold transaction_checks.
    destruct (transactionSchema_validate body); [intros [= <- _]; reflexivity|]. simpl.
    destruct (negb _); [intros [= <- _]; reflexivity|].
    destruct (tx_type body); [|discriminate].
    destruct (verifyAccountBalance _ _ _ _); [discriminate | intros [= <- _]; reflexivity].
  - unfold transfer_checks.
    destruct (transferSchema_validate body); [intros [= <- _]; reflexivity|]. simpl.
    destruct (negb _); [intros [= <- _]; reflexivity|].
    destruct (verifyAccountBalance _ _ _ _); [discriminate | intros [= <- _]; reflexivity].
Qed.

(** X1: a request that is not answered 201 (validation, ownership, account
    not found, insufficient funds) leaves every table as it was and
    publishes no event. *)
Theorem refusal_changes_nothing s r :
  is_201 (handle s r).1 = false ->
  db (handle s r).2 = db s
  /\ banking_events (handle s r).2 = banking_events s.
Proof.
  unfold handle. pose proof (checks_keep s r) as (Hd & He & _).
  destruct (checks s r) as [[res|k] s1]; simpl in *.
  - intros _. split; assumption.
  - rewrite commit_is_201. discriminate.
Qed.

Lemma refusal_changes_nothing_witness :
  is_201 (handle sample_server (POST_transfer 8 (sample_transfer 2 40000))).1 = false
  /\ db (handle sample_server (POST_transfer 8 (sample_transfer 2 40000))).2
     = db sample_server.
Proof.
  split; [reflexivity|].
  apply (refusal_changes_nothing sample_server (POST_transfer 8 (sample_transfer 2 40000))).
  reflexivity.
Defined.

(** ** Single-leg transactions *)

Lemma positive_amount_pos cents : positive_amount cents = true -> 0 < cents.
Proof. unfold positive_amount. intros H. apply andb_true_iff in H as [H _]. lia. Qed.

Lemma transaction_valid_amount body :
  transactionSchema_validate body = None -> 0 < tx_amount body.
Proof.
  unfold transactionSchema_validate.
  destruct (positive_integer (tx_accountId body)); [|discriminate]. simpl.
  destruct (positive_amount (tx_amount body)) eqn:Ha; [|discriminate].
  intros _. apply positive_amount_pos, Ha.
Qed.

Lemma transfer_valid_amount body :
  transferSchema_validate body = None -> 0 < transfer_amount body.
Proof.
  unfold transferSchema_validate.
  destruct (positive_integer (fromAccountId body)); [|discriminate]. simpl.
  destruct (positive_integer (toAccountId body)); [|discriminate]. simpl.
  destruct (positive_amount (transfer_amount body)) eqn:Ha; [|discriminate].
  intros _. apply positive_amount_pos, Ha.
Qed.

(** A single-leg transaction that passes its checks: what was checked. *)
Lemma transaction_checks_accept s userId body k s1 :
  transaction_checks s userId body = (inr k, s1) ->
  k = transaction_checked userId body (next_uuid s)
  /\ db s1 = db s
  /\ transactionSchema_validate body = None
  /\ (tx_type body = debit ->
      exists currentBalance,
        account_balances (db s) !! tx_accountId body = Some currentBalance
        /\ tx_amount body <= currentBalance).
Proof.
  unfold transaction_checks.
  destruct (transactionSchema_validate body); [discriminate|]. simpl.
  destruct (negb _); [discriminate|].
  destruct (tx_type body) eqn:Ht.
  - destruct (verifyAccountBalance _ _ _ _) as [b|] eqn:Hv; [|discriminate].
    intros [= <- <-]. apply verify_debit_valid in Hv.
    repeat split; eauto.
  - intros [= <- <-]. repeat split. discriminate.
Qed.

(** X2: a successful [POST /] appends exactly one entry, with the account,
    type and amount of the request; the balance of that account (0 if it
    had no row) moves by the signed amount and no other balance changes. *)
Theorem single_leg_posts_one_entry s userId body t s' :
  create_transaction s userId body = (res_201_transaction t, s') ->
  transactions (db s') = transactions (db s) ++ [t]
  /\ account_id t = tx_accountId body
  /\ row_type t = tx_type body
  /\ amount t = tx_amount body
  /\ 0 < amount t
  /\ account_balances (db s') !! tx_accountId body
     = Some (balance_of (db s) (tx_accountId body) + signed_amount t)
  /\ (forall a, a <> tx_accountId body ->
        account_balances (db s') !! a = account_balances (db s) !! a).
Proof.
  unfold create_transaction, handle. cbn [checks].
  destruct (transaction_checks s userId body) as [[res|k] s1] eqn:Hc.
  - intros [= -> ->].
    pose proof (checks_refusal s (POST_transaction userId body) _ _ Hc) as H.
    discriminate H.
  - apply transaction_checks_accept in Hc as (-> & Hdb & Hv & _).
    cbn [commit]. intros Hcommit.
    pose proof (f_equal fst Hcommit) as Hres. pose proof (f_equal snd Hcommit) as Hst.
    cbn [fst snd] in Hres, Hst.
    assert (Ht : t = transaction_row_of body (next_uuid s)) by (injection Hres as <-; reflexivity).
    pose proof (f_equal db Hst) as Hd. rewrite transaction_commit_db, Hdb in Hd.
    rewrite <- Hd, Ht. clear Hcommit Hres Hst Hd.
    unfold posting, upsert_balance, insert_transaction, balance_of; cbn.
    split; [reflexivity|]. do 3 (split; [reflexivity|]).
    split; [apply transaction_valid_amount, Hv|].
    split.
    + destruct (account_balances (db s) !! tx_accountId body); cbn;
        rewrite lookup_insert_eq; f_equal; lia.
    + intros a Ha.
      destruct (account_balances (db s) !! tx_accountId body);
        rewrite lookup_insert_ne by congruence; reflexivity.
Qed.

Lemma single_leg_posts_one_entry_witness :
  account_balances (db (create_transaction sample_server 7 sample_deposit).2) !! 1
  = Some (100000 + 2500).
Proof.
  apply (single_leg_posts_one_entry sample_server 7 sample_deposit
           (transaction_row_of sample_deposit 1%N)
           (create_transaction sample_server 7 sample_deposit).2).
  reflexivity.
Defined.

(** ** Requests served one after the other never overdraw *)

Lemma posting_no_overdraft t ins f d :
  no_overdraft d ->
  (forall balance, account_balances d !! account_id t = Some balance -> 0 <= f balance) ->
  (account_balances d !! account_id t = None -> 0 <= ins) ->
  no_overdraft (posting t ins f d).
Proof.
  intros Hd Hf Hins a b. unfold posting, upsert_balance, insert_transaction; simpl.
  destruct (decide (account_id t = a)) as [<-|Hne].
  - destruct (account_balances d !! account_id t) as [b0|] eqn:Hb;
      rewrite lookup_insert_eq; intros [= <-]; auto.
  - destruct (account_balances d !! account_id t);
      rewrite lookup_insert_ne by assumption; apply Hd.
Qed.

Lemma handle_no_overdraft s r :
  no_overdraft (db s) -> no_overdraft (db (handle s r).2).
Proof.
  intros Hs. unfold handle. pose proof (checks_keep s r) as (Hd & _ & _).
  destruct (checks s r) as [[res|k] s1] eqn:Hc; cbn [snd] in *.
  - rewrite Hd. exact Hs.
  - destruct r as [userId body | userId body]; cbn [checks] in Hc.
    + apply transaction_checks_accept in Hc as (-> & _ & Hv & Hfunds).
      cbn [commit]. rewrite transaction_commit_db, Hd.
      pose proof (transaction_valid_amount _ Hv) as Hpos.
      apply posting_no_overdraft; [exact Hs | |];
        unfold signed_amount, transaction_row_of; cbn.
      * intros balance Hb. destruct (tx_type body) eqn:Ht.
        -- destruct (Hfunds eq_refl) as (b & Hb' & Hle). rewrite Hb in Hb'.
           injection Hb' as <-. lia.
        -- specialize (Hs _ _ Hb). lia.
      * intros Hnone. destruct (tx_type body) eqn:Ht; [|lia].
        destruct (Hfunds eq_refl) as (b & Hb' & _). congruence.
    + apply transfer_checks_passed in Hc as (-> & -> & Hv & _ & b & Hb & Hle).
      cbn [commit]. rewrite transfer_commit_db. cbn [uuidv4 snd db].
      pose proof (transfer_valid_amount _ Hv) as Hpos.
      apply posting_no_overdraft; [apply posting_no_overdraft; [exact Hs | |] | |]; cbn.
      * intros balance Hb'. rewrite Hb in Hb'. injection Hb' as <-. lia.
      * intros Hnone. congruence.
      * intros balance Hb'.
        assert (Hd' : no_overdraft
                  (posting (debit_leg (next_uuid s) body (next_uuid s))
                     (transfer_amount body) (fun balance => balance - transfer_amount body)
                     (db s))).
        { apply posting_no_overdraft; [exact Hs | |]; cbn.
          - intros b0 Hb0. rewrite Hb in Hb0. injection Hb0 as <-. lia.
          - intros Hnone. congruence. }
        specialize (Hd' _ _ Hb'). lia.
      * intros _. lia.
Qed.

(** X4: served one after the other, requests never overdraw: if no balance
    row is negative, none is after any sequence of [POST /] and
    [POST /transfer] requests. *)
Theorem serve_never_overdraws s rs :
  no_overdraft (db s) -> no_overdraft (db (serve s rs).2).
Proof.
  revert s. induction rs as [|r rs IH]; intros s Hs; simpl; [exact Hs|].
  destruct (handle s r) as [res s1] eqn:Hh.
  specialize (IH s1). destruct (serve s1 rs) as [out s2]. cbn [snd] in *.
  apply IH. pose proof (handle_no_overdraft s r Hs) as H. rewrite Hh in H. exact H.
Qed.

Lemma serve_never_overdraws_witness :
  no_overdraft (db sample_server)
  /\ no_overdraft (db (serve sample_server
                         [POST_transfer 7 (sample_transfer 2 60000);
                          POST_transfer 7 (sample_transfer 3 60000)]).2).
Proof.
  assert (H : no_overdraft (db sample_server)).
  { intros a b. simpl. destruct (decide (a = 1)) as [->|Hne].
    - rewrite lookup_singleton_eq. intros [= <-]. lia.
    - rewrite lookup_singleton_ne by congruence. discriminate. }
  split; [exact H|]. apply (serve_never_overdraws sample_server _ H).
Defined.

(** ** Money is moved, not made *)

Lemma total_insert_new (m : gmap Z Z) k v :
  m !! k = None ->
  map_fold (fun _ balance acc => balance + acc) 0 (<[k := v]> m)
  = v + map_fold (fun _ balance acc => balance + acc) 0 m.
Proof.
  intros Hk. rewrite map_fold_insert_L; [reflexivity | | exact Hk].
  intros. lia.
Qed.

Lemma total_insert_over (m : gmap Z Z) k v b :
  m !! k = Some b ->
  map_fold (fun _ balance acc => balance + acc) 0 (<[k := v]> m)
  = v - b + map_fold (fun _ balance acc => balance + acc) 0 m.
Proof.
  intros Hk.
  rewrite <- (insert_delete_eq m k v).
  rewrite total_insert_new by apply lookup_delete_eq.
  rewrite <- (insert_delete_id m k b Hk) at 2.
  rewrite total_insert_new by apply lookup_delete_eq. lia.
Qed.

Lemma total_posting t ins f d :
  total_balance (posting t ins f d)
  = total_balance d
    + match account_balances d !! account_id t with
      | Some balance => f balance - balance
      | None => ins
      end.
Proof.
  unfold total_balance, posting, upsert_balance, insert_transaction; simpl.
  destruct (account_balances d !! account_id t) as [b|] eqn:Hb.
  - rewrite (total_insert_over _ _ _ _ Hb). lia.
  - rewrite (total_insert_new _ _ _ Hb). lia.
Qed.

(** X5: a transfer moves money and makes none: whatever its answer, the
    sum of all balance rows is the same before and after [POST /transfer];
    [POST /] changes the sum by the signed amount of the entry it makes,
    and not at all when it is refused. *)
Theorem handlers_conserve_money s r :
  total_balance (db (handle s r).2)
  = total_balance (db s)
    + match (handle s r).1 with
      | res_201_transaction t => signed_amount t
      | _ => 0
      end.
Proof.
  unfold handle. pose proof (checks_keep s r) as (Hd & _ & _).
  destruct (checks s r) as [[res|k] s1] eqn:Hc; cbn [fst snd] in *.
  - rewrite Hd. pose proof (checks_refusal _ _ _ _ Hc) as Hres.
    destruct res; try discriminate Hres; lia.
  - destruct r as [userId body | userId body]; cbn [checks] in Hc.
    + apply transaction_checks_accept in Hc as (-> & _ & _ & _).
      cbn [commit]. rewrite transaction_commit_db, Hd, total_posting.
      change (transaction_commit s1 userId body (next_uuid s)).1
        with (res_201_transaction (transaction_row_of body (next_uuid s))).
      cbn [account_id transaction_row_of].
      destruct (account_balances (db s) !! tx_accountId body); lia.
    + apply transfer_checks_passed in Hc as (-> & -> & _ & _ & b & Hb & _).
      cbn [commit]. rewrite transfer_commit_db, transfer_commit_response.
      cbn [uuidv4 snd db]. rewrite !total_posting.
      cbn [account_id debit_leg credit_leg]. rewrite Hb.
      match goal with |- context [match ?x with Some _ => _ | None => _ end] =>
        destruct x end; lia.
Qed.

(** ** The ledger only grows *)

Lemma posting_grows t ins f d :
  transactions (posting t ins f d) = transactions d ++ [t]
  /\ account_ownership (posting t ins f d) = account_ownership d.
Proof. split; reflexivity. Qed.

Lemma commit_grows s k :
  transactions (db s) `prefix_of` transactions (db (commit s k).2)
  /\ account_ownership (db (commit s k).2) = account_ownership (db s).
Proof.
  destruct k as [userId value tid | userId value tid]; cbn [commit].
  - rewrite transaction_commit_db. split; [|reflexivity].
    eexists. apply posting_grows.
  - rewrite transfer_commit_db. split; [|reflexivity].
    exists [debit_leg (next_uuid s) value tid; credit_leg (N.succ (next_uuid s)) value tid].
    cbn [posting upsert_balance insert_transaction transactions].
    rewrite <- app_assoc. reflexivity.
Qed.

Lemma step_grows n a :
  transactions (db (srv n)) `prefix_of` transactions (db (srv (step n a)))
  /\ account_ownership (db (srv (step n a))) = account_ownership (db (srv n))
  /\ (forall acct, is_Some (account_balances (db (srv n)) !! acct) ->
        is_Some (account_balances (db (srv (step n a))) !! acct)).
Proof.
  destruct a as [r | slot]; simpl.
  - pose proof (checks_keep (srv n) r) as (Hd & _ & _).
    destruct (checks (srv n) r) as [[res|k] s1]; cbn [snd srv] in *; rewrite Hd; auto.
  - destruct (in_flight n !! slot) as [[k|]|]; auto.
    pose proof (commit_grows (srv n) k) as [Hp Ho].
    pose proof (commit_keeps_rows (srv n) k) as Hr.
    destruct (commit (srv n) k) as [res s1]; cbn [snd srv] in *. auto.
Qed.

(** X6: whatever the schedule of arrivals and resumptions, the ledger only
    grows: the entries present before are still there, unchanged and in the
    same place, as a prefix of the table; the ownership table is never
    written; and no balance row ever disappears. *)
Theorem ledger_only_grows sched n :
  transactions (db (srv n)) `prefix_of` transactions (db (srv (run n sched)))
  /\ account_ownership (db (srv (run n sched))) = account_ownership (db (srv n))
  /\ (forall acct, is_Some (account_balances (db (srv n)) !! acct) ->
        is_Some (account_balances (db (srv (run n sched))) !! acct)).
Proof.
  unfold run. revert n. induction sched as [|a sched IH]; intros n; simpl.
  - split; [reflexivity | split; auto].
  - destruct (IH (step n a)) as (Hp & Ho & Hr).
    destruct (step_grows n a) as (Hp1 & Ho1 & Hr1).
    split; [etrans; eassumption|]. split; [congruence | auto].
Qed.

(** ** Serving one by one is one of the schedules *)

Lemma arrive_then_resume n r :
  step (step n (arrive r)) (resume (length (in_flight n)))
  = {| srv := (handle (srv n) r).2;
       in_flight := in_flight n ++ [None];
       answers := answers n ++ [(length (in_flight n), (handle (srv n) r).1)] |}.
Proof.
  unfold handle. cbn [step].
  destruct (checks (srv n) r) as [[res|k] s1]; cbn [step in_flight srv answers].
  - rewrite lookup_app_r, Nat.sub_diag by reflexivity. reflexivity.
  - rewrite lookup_app_r, Nat.sub_diag by reflexivity. cbn [lookup list_lookup].
    destruct (commit s1 k) as [res s2]. cbn [fst snd]. f_equal.
    rewrite insert_app_r_alt, Nat.sub_diag by reflexivity. reflexivity.
Qed.

Lemma one_by_one_run rs : forall n,
  srv (run n (one_by_one (length (in_flight n)) rs)) = (serve (srv n) rs).2
  /\ map snd (answers (run n (one_by_one (length (in_flight n)) rs)))
     = map snd (answers n) ++ (serve (srv n) rs).1.
Proof.
  unfold run. induction rs as [|r rs IH]; intros n.
  - simpl. rewrite app_nil_r. split; reflexivity.
  - cbn [one_by_one foldl serve]. rewrite arrive_then_resume.
    match goal with |- context [foldl step ?m _] => specialize (IH m) end.
    cbn [in_flight srv answers] in IH. rewrite length_app, Nat.add_1_r in IH.
    destruct IH as [IH1 IH2]. rewrite IH1, IH2.
    destruct (handle (srv n) r) as [res s1]. cbn [fst snd].
    destruct (serve s1 rs) as [out s2]. cbn [fst snd].
    rewrite map_app, <- app_assoc. split; reflexivity.
Qed.

(** Serving requests one after the other is the schedule in which
    each handler is resumed before the next request arrives: it ends in the
    same server and gives the same answers in the same order. *)
Theorem serve_is_a_schedule s rs :
  srv (run (boot s) (one_by_one 0 rs)) = (serve s rs).2
  /\ map snd (answers (run (boot s) (one_by_one 0 rs))) = (serve s rs).1.
Proof. apply (one_by_one_run rs (boot s)). Qed.

(** ** Events *)

Lemma publishEvent_publishes e d s :
  channel (publishEvent e d s) = channel s
  /\ length (banking_events (publishEvent e d s))
     = (length (banking_events s) + if channel s then 1 else 0)%nat.
Proof.
  unfold publishEvent. destruct (channel s) eqn:Hch; cbn.
  - rewrite length_app. split; [exact Hch | reflexivity].
  - split; [exact Hch | lia].
Qed.

Lemma commit_publishes s k :
  channel (commit s k).2 = channel s
  /\ length (banking_events (commit s k).2)
     = (length (banking_events s) + if channel s then 1 else 0)%nat.
Proof.
  destruct k as [userId value tid | userId value tid]; cbn [commit];
    unfold transaction_commit, transfer_commit; cbn [uuidv4 snd fst];
    match goal with |- context [publishEvent ?e ?d ?s0] =>
      destruct (publishEvent_publishes e d s0) as [Hch He] end;
    rewrite Hch, He; split; reflexivity.
Qed.

Lemma step_publishes n a :
  channel (srv (step n a)) = channel (srv n)
  /\ (length (banking_events (srv (step n a))) + (if channel (srv n) then count_201 n else 0)
      = length (banking_events (srv n))
        + (if channel (srv n) then count_201 (step n a) else 0))%nat.
Proof.
  destruct a as [r | slot]; simpl.
  - pose proof (checks_keep (srv n) r) as (_ & He & Hch).
    destruct (checks (srv n) r) as [[res|k] s1] eqn:Hc; cbn [snd srv answers] in *;
      rewrite He, Hch; (split; [reflexivity|]); [|reflexivity].
    unfold count_201; cbn [answers]. rewrite List.filter_app, length_app. cbn.
    rewrite (checks_refusal _ _ _ _ Hc). simpl. destruct (channel (srv n)); lia.
  - destruct (in_flight n !! slot) as [[k|]|]; [|split; reflexivity..].
    pose proof (commit_publishes (srv n) k) as [Hch He].
    pose proof (commit_is_201 (srv n) k) as H201.
    destruct (commit (srv n) k) as [res s1]; cbn [fst snd srv answers] in *.
    split; [exact Hch|]. rewrite He.
    unfold count_201; cbn [answers]. rewrite List.filter_app, length_app. cbn.
    rewrite H201. simpl. destruct (channel (srv n)); lia.
Qed.

Lemma events_count sched n :
  (length (banking_events (srv (run n sched))) + (if channel (srv n) then count_201 n else 0)
   = length (banking_events (srv n))
     + (if channel (srv n) then count_201 (run n sched) else 0))%nat.
Proof.
  unfold run. revert n. induction sched as [|a sched IH]; intros n; simpl; [reflexivity|].
  specialize (IH (step n a)). destruct (step_publishes n a) as [Hch Hs].
  rewrite Hch in IH. lia.
Qed.

Lemma step_silent n a :
  channel (srv n) = false ->
  banking_events (srv (step n a)) = banking_events (srv n).
Proof.
  intros Hch. destruct a as [r | slot]; simpl.
  - pose proof (checks_keep (srv n) r) as (_ & He & _).
    destruct (checks (srv n) r) as [[res|k] s1]; exact He.
  - destruct (in_flight n !! slot) as [[k|]|]; [|reflexivity..].
    destruct k as [userId value tid | userId value tid]; cbn [commit];
      unfold transaction_commit, transfer_commit, publishEvent;
      cbn [uuidv4 snd fst channel set_db srv]; rewrite Hch; reflexivity.
Qed.

(** X7: one event per 201, and none otherwise: over any schedule, while
    the channel is set the number of events published grows by exactly the
    number of 201 answers given; while it is undefined nothing is
    published at all, whatever is answered. *)
Theorem one_event_per_201 sched n :
  (channel (srv n) = true ->
     (length (banking_events (srv (run n sched))) + count_201 n
      = length (banking_events (srv n)) + count_201 (run n sched))%nat)
  /\ (channel (srv n) = false ->
     banking_events (srv (run n sched)) = banking_events (srv n)).
Proof.
  split; intros Hch.
  - pose proof (events_count sched n) as H. rewrite Hch in H. exact H.
  - unfold run. revert n Hch. induction sched as [|a sched IH]; intros n Hch; [reflexivity|].
    cbn [foldl]. rewrite IH.
    + apply step_silent, Hch.
    + destruct (step_publishes n a) as [-> _]. exact Hch.
Qed.

End LedgerProperties.

(* ===================================================================== *)
(** * Properties of the account history                                   *)
(* ===================================================================== *)

Module TransactionHistoryProperties.
Import TransactionService TransactionHistory.

(** Cutting a list into [k] pieces of [n] elements and gluing them back. *)
Lemma pages_glue {A} (n : nat) (k : nat) : forall l : list A,
  (length l <= k * n)%nat ->
  concat ((fun i => take n (drop (i * n)%nat l)) <$> seq 0 k) = l.
Proof.
  induction k as [|k IH]; intros l Hl.
  - destruct l; [reflexivity | simpl in Hl; lia].
  - cbn [seq fmap list_fmap concat]. rewrite drop_0.
    rewrite <- (fmap_S_seq 0 k), <- list_fmap_compose.
    transitivity (take n l ++ drop n l); [|apply take_drop]. f_equal.
    rewrite <- (IH (drop n l)) by (rewrite length_drop; lia).
    f_equal. apply list_fmap_ext. intros _ i _. cbn.
    rewrite drop_drop. f_equal; lia.
Qed.

Section History.

Variable newest_first : list transaction_row -> list transaction_row.
Hypothesis newest_first_perm : forall l, newest_first l ≡ₚ l.

Lemma pages_needed count limit :
  0 <= count -> 0 < limit ->
  0 <= (count + limit - 1) / limit /\ count <= (count + limit - 1) / limit * limit.
Proof.
  intros Hc Hl. split; [apply Z.div_pos; lia|].
  pose proof (Z.div_mod (count + limit - 1) limit ltac:(lia)) as Hdm.
  pose proof (Z.mod_pos_bound (count + limit - 1) limit Hl) as Hmod. nia.
Qed.

Lemma read_pages_glue d userId accountId limit :
  ownershipCheck d accountId userId = true ->
  0 < limit ->
  read_pages newest_first d userId accountId limit
    (Z.to_nat ((Z.of_nat (length (entries_of accountId (transactions d))) + limit - 1)
               / limit))
  = newest_first (entries_of accountId (transactions d)).
Proof.
  intros Ho Hlimit.
  assert (Hlen : length (newest_first (entries_of accountId (transactions d)))
                 = length (entries_of accountId (transactions d)))
    by (rewrite newest_first_perm; reflexivity).
  destruct (pages_needed (Z.of_nat (length (entries_of accountId (transactions d)))) limit
              ltac:(lia) Hlimit) as [Hpos Hpages].
  unfold read_pages.
  rewrite <- (pages_glue (Z.to_nat limit)
                (Z.to_nat ((Z.of_nat (length (entries_of accountId (transactions d)))
                            + limit - 1) / limit))
                (newest_first (entries_of accountId (transactions d))))
    by (rewrite Hlen; nia).
  f_equal. apply list_fmap_ext. intros _ i _. unfold history.
  cbn [default from_option Datatypes.id].
  rewrite Ho. cbn [negb].
  assert (((limit <? 0) || ((Z.of_nat i + 1 - 1) * limit <? 0)) = false) as ->
    by (apply orb_false_iff; split; apply Z.ltb_ge; nia).
  cbn [page_rows]. f_equal. f_equal. nia.
Qed.

(** X9: reading page after page gives the whole history: for an owner and
    a positive [limit], pages 1 to [pages] glued together are the entries
    of the account in the order of the database, each entry once; any
    later page is empty. *)
Theorem history_pages_cover d userId accountId limit :
  ownershipCheck d accountId userId = true ->
  0 < limit ->
  let count := Z.of_nat (length (entries_of accountId (transactions d))) in
  let pages := (count + limit - 1) / limit in
  read_pages newest_first d userId accountId limit (Z.to_nat pages)
    = newest_first (entries_of accountId (transactions d))
  /\ read_pages newest_first d userId accountId limit (Z.to_nat pages)
     ≡ₚ entries_of accountId (transactions d)
  /\ (forall page, pages < page ->
        page_rows (history newest_first d userId accountId (Some page) (Some limit)) = []).
Proof.
  intros Ho Hlimit count pages.
  pose proof (read_pages_glue d userId accountId limit Ho Hlimit) as Hglue.
  fold count in Hglue. fold pages in Hglue.
  split; [exact Hglue|]. split; [rewrite Hglue; apply newest_first_perm|].
  destruct (pages_needed count limit ltac:(unfold count; lia) Hlimit) as [Hpos Hpages].
  fold pages in Hpos, Hpages.
  assert (Hlen : length (newest_first (entries_of accountId (transactions d)))
                 = length (entries_of accountId (transactions d)))
    by (rewrite newest_first_perm; reflexivity).
  intros page Hpage. unfold history. cbn [default from_option Datatypes.id].
  rewrite Ho. cbn [negb].
  assert (((limit <? 0) || ((page - 1) * limit <? 0)) = false) as ->
    by (apply orb_false_iff; split; apply Z.ltb_ge; nia).
  cbn [page_rows]. rewrite drop_ge; [apply take_nil|].
  rewrite Hlen. unfold count in Hpages. nia.
Qed.

(** X10: the edges of paging, for an owner: a negative [limit], or a page
    below 1 with a positive [limit], is answered 500; [limit = 0] gives an
    empty page and no page count; without parameters the first 20 entries
    are given. *)
Theorem history_edges d userId accountId :
  ownershipCheck d accountId userId = true ->
  (forall page limit, limit < 0 ->
     history newest_first d userId accountId page (Some limit)
     = history_500 "Failed to retrieve transaction history")
  /\ (forall page limit, 0 < limit -> page < 1 ->
     history newest_first d userId accountId (Some page) (Some limit)
     = history_500 "Failed to retrieve transaction history")
  /\ (forall page, exists p,
     history newest_first d userId accountId page (Some 0) = history_200 [] p
     /\ pages p = None)
  /\ page_rows (history newest_first d userId accountId None None)
     = take 20 (newest_first (entries_of accountId (transactions d))).
Proof.
  intros Ho. unfold history. rewrite Ho. cbn [negb default from_option Datatypes.id].
  split; [|split; [|split]].
  - intros page limit Hl. assert ((limit <? 0) = true) as -> by lia. reflexivity.
  - intros page limit Hl Hp.
    assert ((limit <? 0) = false) as -> by lia.
    assert (((page - 1) * limit <? 0) = true) as -> by nia. reflexivity.
  - intros page. eexists. rewrite Z.mul_0_r. cbn. split; reflexivity.
  - reflexivity.
Qed.

(** X11: the history adds up to the balance: when the balance rows are
    the signed sums of the ledger (which the handlers maintain), the signed
    amounts of all the pages of an owner's history, credits counted
    positive and debits negative, sum to the balance of the account. *)
Theorem history_adds_up_to_balance d userId accountId limit :
  ledger_invariant d ->
  ownershipCheck d accountId userId = true ->
  0 < limit ->
  foldr (fun t acc => signed_amount t + acc) 0
    (read_pages newest_first d userId accountId limit
       (Z.to_nat ((Z.of_nat (length (entries_of accountId (transactions d))) + limit - 1)
                  / limit)))
  = balance_of d accountId.
Proof.
  intros Hinv Ho Hlimit.
  rewrite (read_pages_glue d userId accountId limit Ho Hlimit).
  transitivity (ledger_sum accountId (transactions d)).
  - unfold ledger_sum.
    apply foldr_permutation_proper; [apply _ | apply _ | | apply newest_first_perm].
    intros x y z. lia.
  - specialize (Hinv accountId). unfold balance_of.
    destruct (account_balances d !! accountId); cbn; [symmetry; exact Hinv|].
    unfold ledger_sum. rewrite Hinv. reflexivity.
Qed.

End History.

Lemma history_adds_up_to_balance_witness :
  foldr (fun t acc => signed_amount t + acc) 0
    (read_pages reverse (db sample_server) 7 1 5
       (Z.to_nat ((Z.of_nat (length (entries_of 1 (transactions (db sample_server)))) + 5 - 1)
                  / 5)))
  = balance_of (db sample_server) 1.
Proof.
  apply (history_adds_up_to_balance reverse reverse_Permutation (db sample_server) 7 1 5);
    [|reflexivity | lia].
  intros a. simpl. destruct (decide (a = 1)) as [->|Hne].
  - rewrite lookup_singleton_eq. reflexivity.
  - rewrite lookup_singleton_ne by congruence.
    unfold entries_of. rewrite filter_cons, filter_nil. apply decide_False. simpl. congruence.
Defined.

Lemma history_pages_cover_witness :
  read_pages reverse (db (transfer sample_server 7 (sample_transfer 1 500)).2) 7 1 2 2
  = reverse (entries_of 1 (transactions (db (transfer sample_server 7 (sample_transfer 1 500)).2))).
Proof.
  apply (history_pages_cover reverse reverse_Permutation
           (db (transfer sample_server 7 (sample_transfer 1 500)).2) 7 1 2);
    [reflexivity | lia].
Defined.

Lemma history_edges_witness :
  history reverse (db sample_server) 7 1 (Some 0) (Some 5)
  = history_500 "Failed to retrieve transaction history".
Proof.
  apply (history_edges reverse (db sample_server) 7 1); [reflexivity | lia | lia].
Defined.

End TransactionHistoryProperties.

(* ===================================================================== *)
(** * Further properties of the payment service                           *)
(* ===================================================================== *)

Module PaymentProperties.
Import PaymentService PaymentServiceTheory PaymentOperations.

(** ** Reading a payment *)

(** X12: [GET /:paymentId] answers with a payment only if it is in the
    table under that id and the caller owns its source account; it answers
    404 exactly when there is no such payment, so a payment of somebody
    else's account looks like one that does not exist. *)
Theorem payment_lookup_is_owned d userId paymentId :
  (forall found, get_payment d userId paymentId = lookup_200 found ->
     In found (payments d)
     /\ id found = paymentId
     /\ ownershipCheck d (from_account_id found) userId = true)
  /\ (get_payment d userId paymentId = lookup_404 "Payment not found"
      <-> forall p, In p (payments d) -> id p = paymentId ->
            ownershipCheck d (from_account_id p) userId = false).
Proof.
  unfold get_payment, visible_to.
  destruct (List.filter _ (payments d)) as [|x l] eqn:Hf.
  - split; [discriminate|]. split; [|reflexivity].
    intros _ p Hp Hid.
    destruct (ownershipCheck d (from_account_id p) userId) eqn:Ho; [|reflexivity].
    exfalso. assert (Hin : In p []); [|destruct Hin].
    rewrite <- Hf. apply filter_In. split; [exact Hp|].
    rewrite Hid, N.eqb_refl, Ho. reflexivity.
  - assert (Hx : In x (x :: l)) by (left; reflexivity).
    rewrite <- Hf in Hx. apply filter_In in Hx as [Hx Hc].
    apply andb_true_iff in Hc as [Hid Ho]. apply N.eqb_eq in Hid.
    split.
    + intros found [= <-]. auto.
    + split; [discriminate|]. intros H. rewrite (H x Hx Hid) in Ho. discriminate.
Qed.

Lemma create_payment_row now s userId body :
  paymentSchema_validate body = None ->
  ownershipCheck (db s) (fromAccountId body) userId = true ->
  exists row,
    (create_payment now s userId body).1 = res_201 row
    /\ id row = next_uuid s
    /\ from_account_id row = fromAccountId body
    /\ status row = initial_status (isScheduled now body)
                      (requiresReview (detectFraud (db s) now body userId))
    /\ scheduled_at row = scheduledAt body
    /\ payments (db (create_payment now s userId body).2) = payments (db s) ++ [row]
    /\ account_ownership (db (create_payment now s userId body).2) = account_ownership (db s)
    /\ channel (create_payment now s userId body).2 = channel s
    /\ (next_uuid s < next_uuid (create_payment now s userId body).2)%N
    /\ payment_processing (create_payment now s userId body).2
       = payment_processing s
         ++ (if negb (isScheduled now body)
                && negb (requiresReview (detectFraud (db s) now body userId))
                && channel s
             then [process_created (next_uuid s) userId] else []).
Proof.
  intros Hv Ho. unfold create_payment. rewrite Hv. cbn [uuidv4 db]. rewrite Ho. cbn [negb].
  eexists. split; [reflexivity|]. cbn [fst snd id from_account_id status scheduled_at].
  do 4 (split; [reflexivity|]).
  rewrite publishEvent_keeps_db, publishEvent_keeps_queue.
  unfold publishEvent, sendToQueue_if_channel, set_db.
  destruct (negb _ && negb _); cbn [channel next_uuid db payments account_ownership
                                     payment_processing andb];
    destruct (channel s); cbn [channel next_uuid db payments account_ownership
                                payment_processing uuidv4 snd fst];
    rewrite ?app_nil_r; repeat split; lia.
Qed.

(** X13: a payment can be read back: after a successful creation, on a
    server whose ids were all drawn from the supply, [GET /:paymentId] with
    the id of the answer gives the caller the row that was created. *)
Theorem create_then_get now s userId body row s' :
  ids_below_supply s ->
  create_payment now s userId body = (res_201 row, s') ->
  get_payment (db s') userId (id row) = lookup_200 row.
Proof.
  intros Hfresh Hc.
  assert (Hv : paymentSchema_validate body = None).
  { unfold create_payment in Hc. destruct (paymentSchema_validate body); [discriminate|].
    reflexivity. }
  assert (Ho : ownershipCheck (db s) (fromAccountId body) userId = true).
  { unfold create_payment in Hc. rewrite Hv in Hc. cbn [uuidv4 db] in Hc.
    destruct (ownershipCheck (db s) (fromAccountId body) userId); [reflexivity|].
    discriminate. }
  destruct (create_payment_row now s userId body Hv Ho)
    as (row' & Hres & Hid & Hfrom & _ & _ & Hp & Hown & _).
  rewrite Hc in Hres, Hp, Hown. cbn [fst snd] in Hres, Hp, Hown.
  injection Hres as <-.
  unfold get_payment, visible_to. rewrite Hp, List.filter_app.
  assert (Hold : List.filter
            (fun p => (id p =? id row)%N && ownershipCheck (db s') (from_account_id p) userId)
            (payments (db s)) = []).
  { refine (proj2 (update_none _ (fun p => p) _ _)). intros q Hq.
    apply Hfresh in Hq. apply andb_false_iff. left. apply N.eqb_neq. lia. }
  rewrite Hold. cbn [List.filter app]. rewrite N.eqb_refl. cbn [andb].
  unfold ownershipCheck at 1. rewrite Hown. fold (ownershipCheck (db s) (from_account_id row) userId).
  rewrite Hfrom, Ho. reflexivity.
Qed.

Lemma create_then_get_witness :
  exists row,
    (create_payment 5000 (sample_server true) 7 (sample_body None)).1 = res_201 row
    /\ get_payment (db (create_payment 5000 (sample_server true) 7 (sample_body None)).2)
         7 (id row) = lookup_200 row.
Proof.
  assert (Hfresh : ids_below_supply (sample_server true)).
  { intros p [<-|[<-|[]]]; cbn; lia. }
  eexists. split; [reflexivity|].
  apply (create_then_get 5000 (sample_server true) 7 (sample_body None) _ _ Hfresh).
  reflexivity.
Defined.

(** ** Cancelling somebody else's payment *)

Lemma cancel_nothing now s userId paymentId :
  (forall q, In q (payments (db s)) -> cancellable (db s) paymentId userId q = false) ->
  cancel_payment now s userId paymentId
  = (res_404 (message "Payment not found or cannot be cancelled"), s).
Proof.
  intros Hnone. unfold cancel_payment, update_cancel.
  destruct (update_none (cancellable (db s) paymentId userId) (cancelled_row now)
              (payments (db s)) Hnone) as [-> ->].
  cbn [map]. f_equal. destruct s as [[? ?] ? ? ? ?]; reflexivity.
Qed.

Lemma publishEvent_rest e d s :
  channel (publishEvent e d s) = channel s
  /\ (next_uuid s <= next_uuid (publishEvent e d s))%N.
Proof.
  unfold publishEvent. destruct (channel s) eqn:Hch; cbn; [|split; [exact Hch | lia]].
  split; [exact Hch | lia].
Qed.

Lemma cancel_payment_db now s userId paymentId :
  db (cancel_payment now s userId paymentId).2
  = {| payments :=
         map (fun p => if cancellable (db s) paymentId userId p
                       then cancelled_row now p else p) (payments (db s));
       account_ownership := account_ownership (db s) |}
  /\ payment_processing (cancel_payment now s userId paymentId).2 = payment_processing s
  /\ channel (cancel_payment now s userId paymentId).2 = channel s
  /\ (next_uuid s <= next_uuid (cancel_payment now s userId paymentId).2)%N.
Proof.
  unfold cancel_payment, update_cancel.
  destruct (map _ (List.filter _ _)) as [|row rows]; cbn [snd].
  - repeat split. cbn. lia.
  - rewrite publishEvent_keeps_db, publishEvent_keeps_queue.
    match goal with |- context [publishEvent ?e ?d ?s0] =>
      destruct (publishEvent_rest e d s0) as [Hch Hn] end.
    rewrite Hch. repeat split. exact Hn.
Qed.

(** X15: nobody cancels a payment of an account they do not own: when no
    payment with that id belongs to an account of the caller, the answer
    is 404 whatever the status, and nothing changes. *)
Theorem cancel_needs_ownership now s userId paymentId :
  (forall p, In p (payments (db s)) -> id p = paymentId ->
     ownershipCheck (db s) (from_account_id p) userId = false) ->
  cancel_payment now s userId paymentId
  = (res_404 (message "Payment not found or cannot be cancelled"), s).
Proof.
  intros Hno. apply cancel_nothing. intros q Hq. unfold cancellable.
  destruct (id q =? paymentId)%N eqn:Hid; [|reflexivity].
  apply N.eqb_eq in Hid. rewrite (Hno q Hq Hid). reflexivity.
Qed.

Lemma cancel_needs_ownership_witness :
  cancel_payment 500 (sample_server true) 8 0%N
  = (res_404 (message "Payment not found or cannot be cancelled"), sample_server true).
Proof.
  apply (cancel_needs_ownership 500 (sample_server true) 8 0%N).
  intros p [<-|[<-|[]]] _; reflexivity.
Defined.

(** ** What sequences of operations do to the table and the queue *)

(** A creation, accepted or not: at most one row and one message, both
    under the id that was next in the supply. *)
Lemma create_payment_effect now s userId body :
  exists added sent,
    payments (db (create_payment now s userId body).2) = payments (db s) ++ added
    /\ account_ownership (db (create_payment now s userId body).2) = account_ownership (db s)
    /\ payment_processing (create_payment now s userId body).2 = payment_processing s ++ sent
    /\ channel (create_payment now s userId body).2 = channel s
    /\ (next_uuid s <= next_uuid (create_payment now s userId body).2)%N
    /\ (forall r, In r added ->
          id r = next_uuid s
          /\ (next_uuid s < next_uuid (create_payment now s userId body).2)%N)
    /\ (forall m, In m sent -> message_payment m = next_uuid s).
Proof.
  destruct (paymentSchema_validate body) as [key|] eqn:Hv.
  - exists [], []. unfold create_payment. rewrite Hv. cbn [snd]. rewrite !app_nil_r.
    do 4 (split; [reflexivity|]). split; [lia|]. split; intros ? [].
  - destruct (ownershipCheck (db s) (fromAccountId body) userId) eqn:Ho.
    + destruct (create_payment_row now s userId body Hv Ho)
        as (row & _ & Hid & _ & _ & _ & Hp & Hown & Hch & Hn & Hq).
      eexists [row], _. split; [exact Hp|]. split; [exact Hown|]. split; [exact Hq|].
      split; [exact Hch|]. split; [lia|]. split.
      * intros r [<-|[]]. split; assumption.
      * intros m. destruct (_ && _ && _); [intros [<-|[]]; reflexivity | intros []].
    + exists [], []. unfold create_payment. rewrite Hv. cbn [uuidv4 db]. rewrite Ho.
      cbn. rewrite !app_nil_r.
      do 4 (split; [reflexivity|]). split; [lia|]. split; intros ? [].
Qed.

Lemma tick_effect now s :
  db (scheduled_payment_processor now s) = db s
  /\ channel (scheduled_payment_processor now s) = channel s
  /\ next_uuid (scheduled_payment_processor now s) = next_uuid s
  /\ payment_processing (scheduled_payment_processor now s)
     = payment_processing s
       ++ (if channel s
           then map (fun row => process_scheduled (id row))
                  (List.filter (due now) (payments (db s)))
           else []).
Proof.
  unfold scheduled_payment_processor.
  destruct (send_all s (List.filter (due now) (payments (db s)))) as (Hd & Hc & Hq).
  repeat split; try assumption.
  generalize (List.filter (due now) (payments (db s))). intros rows. clear.
  revert s. induction rows as [|row rows IH]; intros s; [reflexivity|].
  cbn [foldl]. rewrite IH. unfold sendToQueue_if_channel. destruct (channel s); reflexivity.
Qed.

Lemma same_or_cancelled_trans p p' p'' :
  same_or_cancelled p p' -> same_or_cancelled p' p'' -> same_or_cancelled p p''.
Proof.
  intros [->|(t & -> & Hst)]; [auto|].
  intros [->|(t' & _ & [H|H])]; [right; eauto | discriminate H..].
Qed.

Lemma perform_rows s op :
  exists rows' added,
    payments (db (perform s op)) = rows' ++ added
    /\ Forall2 same_or_cancelled (payments (db s)) rows'
    /\ account_ownership (db (perform s op)) = account_ownership (db s).
Proof.
  destruct op as [now userId body | now userId paymentId | now]; cbn [perform].
  - destruct (create_payment_effect now s userId body) as (added & _ & Hp & Ho & _).
    exists (payments (db s)), added. split; [exact Hp|]. split; [|exact Ho].
    apply Forall2_same_length_lookup_2; [reflexivity|].
    intros i x y Hx Hy. left. congruence.
  - destruct (cancel_payment_db now s userId paymentId) as (Hd & _). rewrite Hd.
    eexists _, []. rewrite app_nil_r. split; [reflexivity|]. split; [|reflexivity].
    cbn [payments]. clear Hd.
    induction (payments (db s)) as [|p l IH]; cbn [map]; [constructor|].
    constructor; [|exact IH].
    destruct (cancellable (db s) paymentId userId p) eqn:Hc; [|left; reflexivity].
    right. exists now. split; [reflexivity|].
    unfold cancellable in Hc. apply andb_true_iff in Hc as [_ Hst].
    apply status_cancellable, Hst.
  - destruct (tick_effect now s) as (-> & _).
    exists (payments (db s)), []. rewrite app_nil_r. split; [reflexivity|]. split; [|reflexivity].
    apply Forall2_same_length_lookup_2; [reflexivity|].
    intros i x y Hx Hy. left. congruence.
Qed.

(** X16: whatever creations, cancellations and ticks are performed, the
    rows that were in the table are still there, in place, each one either
    exactly as it was or cancelled from 'scheduled' or 'pending_review';
    new rows only come after them, and the ownership table is untouched.
    Nothing in the service completes, fails or deletes a payment. *)
Theorem rows_only_change_by_cancelling ops s :
  exists rows' added,
    payments (db (perform_all s ops)) = rows' ++ added
    /\ Forall2 same_or_cancelled (payments (db s)) rows'
    /\ account_ownership (db (perform_all s ops)) = account_ownership (db s).
Proof.
  unfold perform_all. revert s. induction ops as [|op ops IH]; intros s; cbn [foldl].
  - exists (payments (db s)), []. rewrite app_nil_r. split; [reflexivity|].
    split; [|reflexivity].
    apply Forall2_same_length_lookup_2; [reflexivity|].
    intros i x y Hx Hy. left. congruence.
  - destruct (perform_rows s op) as (r1 & a1 & Hp1 & Hf1 & Ho1).
    destruct (IH (perform s op)) as (r2 & a2 & Hp2 & Hf2 & Ho2).
    rewrite Hp1 in Hf2. apply Forall2_app_inv_l in Hf2 as (r2a & r2b & Hfa & Hfb & ->).
    exists r2a, (r2b ++ a2). rewrite Hp2, <- app_assoc. split; [reflexivity|].
    split; [|congruence].
    clear -Hf1 Hfa. revert r2a Hfa.
    induction Hf1 as [|p p' l l' Hpp' Hll' IHl]; intros r2a Hfa.
    + apply Forall2_nil_inv_l in Hfa as ->. constructor.
    + apply Forall2_cons_inv_l in Hfa as (p'' & l'' & Hp'' & Hl'' & ->).
      constructor; [eapply same_or_cancelled_trans; eassumption | apply IHl, Hl''].
Qed.

(** ** Payments that are not scheduled stay out of the queue *)

Lemma handed_app paymentId s sent (s' : server) :
  payment_processing s' = payment_processing s ++ sent ->
  (forall m, In m sent -> message_payment m <> paymentId) ->
  handed paymentId s' = handed paymentId s.
Proof.
  intros Hq Hsent. unfold handed. rewrite Hq, List.filter_app, length_app.
  assert (List.filter (fun m => (message_payment m =? paymentId)%N) sent = []) as ->.
  { clear Hq. induction sent as [|m sent IH]; [reflexivity|]. cbn [List.filter].
    assert ((message_payment m =? paymentId)%N = false) as ->
      by (apply N.eqb_neq, Hsent; left; reflexivity).
    apply IH. intros m' Hm'. apply Hsent. right. exact Hm'. }
  cbn. lia.
Qed.

Lemma perform_unscheduled paymentId s op :
  (paymentId < next_uuid s)%N ->
  (forall q, In q (payments (db s)) -> id q = paymentId -> status q <> "scheduled"%string) ->
  (paymentId < next_uuid (perform s op))%N
  /\ (forall q, In q (payments (db (perform s op))) -> id q = paymentId ->
        status q <> "scheduled"%string)
  /\ handed paymentId (perform s op) = handed paymentId s.
Proof.
  intros Hlt Hst.
  destruct op as [now userId body | now userId pid | now]; cbn [perform].
  - destruct (create_payment_effect now s userId body)
      as (added & sent & Hp & _ & Hq & _ & Hn & Hadded & Hsent).
    split; [lia|]. split.
    + intros q Hq'. rewrite Hp in Hq'. apply in_app_iff in Hq' as [Hq'|Hq'];
        [apply Hst, Hq'|]. intros Hid. apply Hadded in Hq' as [Hq' _]. lia.
    + apply (handed_app _ _ sent _ Hq). intros m Hm. apply Hsent in Hm. lia.
  - destruct (cancel_payment_db now s userId pid) as (Hd & Hq & _ & Hn).
    split; [lia|]. split.
    + rewrite Hd. cbn [payments]. intros q Hq'. apply in_map_iff in Hq' as (q0 & <- & Hq0).
      destruct (cancellable (db s) pid userId q0); [intros _; discriminate|].
      apply Hst, Hq0.
    + unfold handed. rewrite Hq. reflexivity.
  - destruct (tick_effect now s) as (Hd & _ & Hn & Hq).
    rewrite Hd, Hn. split; [exact Hlt|]. split; [exact Hst|].
    apply (handed_app _ _ _ _ Hq). intros m Hm.
    destruct (channel s); [|destruct Hm].
    apply in_map_iff in Hm as (row & <- & Hrow). apply filter_In in Hrow as [Hrow Hdue].
    cbn [message_payment]. intros Hid.
    apply (Hst row Hrow Hid). apply due_iff in Hdue as [Hs _]. exact Hs.
Qed.

(** X17: a payment that is not 'scheduled' (cancelled, under review, being
    processed) is never handed to the queue by anything that follows: with
    its id drawn from the supply and no row under that id 'scheduled', the
    number of messages for it stays the same over any sequence of
    creations, cancellations and ticks. *)
Theorem unscheduled_never_handed ops s paymentId :
  (paymentId < next_uuid s)%N ->
  (forall q, In q (payments (db s)) -> id q = paymentId -> status q <> "scheduled"%string) ->
  handed paymentId (perform_all s ops) = handed paymentId s.
Proof.
  unfold perform_all. revert s. induction ops as [|op ops IH]; intros s Hlt Hst; cbn [foldl];
    [reflexivity|].
  destruct (perform_unscheduled paymentId s op Hlt Hst) as (Hlt' & Hst' & Hh).
  rewrite (IH _ Hlt' Hst'). exact Hh.
Qed.

Lemma unscheduled_never_handed_witness :
  handed 0%N (perform_all (cancel_payment 500 (sample_server true) 7 0%N).2
                [cron_tick 2000; POST_payment 3000 7 (sample_body None); cron_tick 62000])
  = handed 0%N (cancel_payment 500 (sample_server true) 7 0%N).2.
Proof.
  apply (unscheduled_never_handed _ (cancel_payment 500 (sample_server true) 7 0%N).2 0%N).
  - vm_compute. reflexivity.
  - intros q [<-|[<-|[]]]; cbn; discriminate.
Defined.

(** ** The frequency count *)





(** ** Listing payments *)

Section Listing.

Variable newest_first : list payment_row -> list payment_row.
Hypothesis newest_first_perm : forall l, newest_first l ≡ₚ l.

(** X19: [GET /] lists only payments from the table whose source account
    the caller owns, only those of the wanted status when a non-empty
    [status] is given, and at most [limit] of them (20 by default). *)
Theorem list_shows_own_payments d userId page limit wanted rows :
  list_payments newest_first d userId page limit wanted = list_200 rows ->
  (forall p, p ∈ rows ->
     In p (payments d)
     /\ ownershipCheck d (from_account_id p) userId = true
     /\ (forall st, wanted = Some st -> st <> ""%string -> status p = st))
  /\ Z.of_nat (length rows) <= default 20 limit.
Proof.
  unfold list_payments. destruct (_ || _) eqn:Hneg; [discriminate|].
  apply orb_false_iff in Hneg as [Hl _]. intros [= <-]. split.
  - intros p Hp. apply subseteq_take, subseteq_drop in Hp.
    rewrite newest_first_perm in Hp.
    apply list_elem_of_In, filter_In in Hp as [Hp Hc].
    apply andb_true_iff in Hc as [Ho Hs]. split; [exact Hp|]. split; [exact Ho|].
    intros st -> Hne. unfold status_filter in Hs.
    destruct (String.eqb st "") eqn:He; [apply String.eqb_eq in He; contradiction|].
    apply String.eqb_eq, Hs.
  - rewrite length_take. lia.
Qed.

End Listing.

Lemma list_shows_own_payments_witness :
  list_payments reverse (db (sample_server true)) 7 None None (Some "scheduled"%string)
    = list_200 [sample_row 0%N "scheduled" (Some 1000)]
  /\ In (sample_row 0%N "scheduled" (Some 1000)) (payments (db (sample_server true)))
  /\ ownershipCheck (db (sample_server true))
       (from_account_id (sample_row 0%N "scheduled" (Some 1000))) 7 = true.
Proof.
  split; [reflexivity|].
  destruct (list_shows_own_payments reverse reverse_Permutation (db (sample_server true)) 7
              None None (Some "scheduled"%string) _ eq_refl) as [H _].
  destruct (H (sample_row 0%N "scheduled" (Some 1000))) as (H1 & H2 & _).
  - apply list_elem_of_singleton. reflexivity.
  - split; assumption.
Defined.

End PaymentProperties.

(* ===================================================================== *)
(** * Properties of the JWT middleware                                    *)
(* ===================================================================== *)

Module AuthenticationProperties.
Import Stdlib.Strings.Ascii.
Import Authentication.

Lemma split_space_nonempty s : split_space s <> [].
Proof.
  destruct s as [|c rest]; cbn; [discriminate|].
  destruct (Ascii.eqb c " "%char); [discriminate|].
  destruct (split_space rest); discriminate.
Qed.

Lemma split_space_word a b :
  no_space a = true ->
  split_space (a +:+ " " +:+ b) = a :: split_space b.
Proof.
  induction a as [|c a IH]; [reflexivity|].
  intros H. cbn in H. apply andb_true_iff in H as [Hc Ha].
  change (String c a +:+ " " +:+ b) with (String c (a +:+ " " +:+ b)).
  cbn [split_space]. rewrite (IH Ha).
  destruct (Ascii.eqb c " "%char); [discriminate | reflexivity].
Qed.

Lemma split_space_no_space a : no_space a = true -> split_space a = [a].
Proof.
  induction a as [|c a IH]; cbn; [reflexivity|].
  intros H. apply andb_true_iff in H as [Hc Ha].
  destruct (Ascii.eqb c " "%char); [discriminate|]. rewrite (IH Ha). reflexivity.
Qed.

Lemma append_empty a b : String.eqb (a +:+ " " +:+ b) "" = false.
Proof. destruct a; reflexivity. Qed.

Section Authenticate.

Variable user : Type.
Variable jwt_verify : string -> option user.

(** X21: the token is the second word of the header and the first word is
    never looked at: for any [scheme] and [token] without spaces, a header
    [scheme token], followed or not by a space and anything else, is
    answered by what [jwt.verify] says of [token] (403 when it refuses),
    and by 401 when [token] is empty. *)
Theorem second_word_is_the_token scheme token :
  no_space scheme = true ->
  no_space token = true ->
  let answer :=
    if String.eqb token "" then res_401 "Access token required"
    else match jwt_verify token with
         | Some payload => next payload
         | None => res_403 "Invalid token"
         end in
  authenticateToken user jwt_verify (Some (scheme +:+ " " +:+ token)) = answer
  /\ (forall more,
       authenticateToken user jwt_verify (Some (scheme +:+ " " +:+ token +:+ " " +:+ more))
       = answer).
Proof.
  intros Hs Ht answer. unfold authenticateToken, token_of.
  rewrite append_empty.
  rewrite (split_space_word scheme token Hs), (split_space_no_space token Ht).
  cbn [lookup list_lookup falsy]. split.
  - unfold answer. destruct (String.eqb token ""); reflexivity.
  - intros more. rewrite append_empty, (split_space_word scheme _ Hs).
    rewrite (split_space_word token more Ht). cbn [lookup list_lookup falsy].
    unfold answer. destruct (String.eqb token ""); reflexivity.
Qed.

(** X22: no handler without a verified token: the middleware calls
    [next()] only with a payload that [jwt.verify] returned for a non-empty
    second word of the header; a request with no header, an empty header or
    a header of a single word is answered 401. *)
Theorem next_needs_a_verified_token :
  (forall authHeader payload,
     authenticateToken user jwt_verify authHeader = next payload ->
     exists header token,
       authHeader = Some header
       /\ split_space header !! 1%nat = Some token
       /\ token <> ""%string
       /\ jwt_verify token = Some payload)
  /\ authenticateToken user jwt_verify None = res_401 "Access token required"
  /\ authenticateToken user jwt_verify (Some ""%string) = res_401 "Access token required"
  /\ (forall word, no_space word = true ->
        authenticateToken user jwt_verify (Some word) = res_401 "Access token required").
Proof.
  split; [|split; [reflexivity | split; [reflexivity|]]].
  - intros [header|] payload; unfold authenticateToken, token_of; [|discriminate].
    destruct (String.eqb header "") eqn:He; cbn [falsy]; [rewrite He; discriminate|].
    destruct (split_space header !! 1%nat) as [token|] eqn:Ht; cbn [falsy]; [|discriminate].
    destruct (String.eqb token "") eqn:Hte; [discriminate|].
    destruct (jwt_verify token) as [p|] eqn:Hv; [|discriminate].
    intros [= <-]. exists header, token.
    repeat split; try assumption. intros ->. discriminate.
  - intros word Hw. unfold authenticateToken, token_of.
    destruct (String.eqb word "") eqn:He; cbn [falsy]; [rewrite He; reflexivity|].
    rewrite (split_space_no_space word Hw). reflexivity.
Qed.

End Authenticate.

Lemma second_word_is_the_token_witness :
  authenticateToken nat (fun t => if String.eqb t "abc" then Some 7%nat else None)
    (Some "Anything abc"%string)
  = next 7%nat.
Proof.
  apply (second_word_is_the_token nat
           (fun t => if String.eqb t "abc" then Some 7%nat else None)
           "Anything"%string "abc"%string); reflexivity.
Defined.

End AuthenticationProperties.

(* ===================================================================== *)
(** * Properties of the account service                                   *)
(* ===================================================================== *)

Module AccountProperties.
Import AccountService.

Lemma select_account_spec d accountId userId a :
  In a (select_account d accountId userId)
  <-> In a (accounts d) /\ id a = accountId /\ user_id a = userId.
Proof.
  unfold select_account. rewrite filter_In, andb_true_iff, !Z.eqb_eq. reflexivity.
Qed.

Lemma select_account_head d accountId userId a l :
  select_account d accountId userId = a :: l ->
  In a (accounts d) /\ id a = accountId /\ user_id a = userId.
Proof.
  intros H. apply select_account_spec. rewrite H. left. reflexivity.
Qed.

(** X23: an account is only ever shown to its owner: whatever the cache
    holds, even entries that are stale or belong to somebody else,
    [GET /:accountId] answers 200 only with an account of the caller, and
    [GET /:accountId/balance] only with the balance of a row of the table
    that has the requested id and belongs to the caller. *)
Theorem account_shown_to_owner_only now s userId accountId :
  (forall account s',
     get_account now s userId accountId = (res_200 account, s') ->
     user_id account = userId)
  /\ (forall amount cur,
       get_balance s userId accountId = res_200_balance amount cur ->
       exists a, In a (accounts (db s)) /\ id a = accountId /\ user_id a = userId
                 /\ balance a = amount /\ currency a = cur).
Proof.
  split.
  - intros account s'. unfold get_account.
    assert (Hdb : match select_account (db s) accountId userId with
                  | [] => (res_404 (message "Account not found"), s)
                  | a :: _ => (res_200 a, setEx now a s)
                  end = (res_200 account, s') -> user_id account = userId).
    { destruct (select_account (db s) accountId userId) as [|a l] eqn:Hs; [discriminate|].
      intros [= <- _]. apply select_account_head in Hs. tauto. }
    destruct (cache_get now s accountId) as [a|]; [|exact Hdb].
    destruct (user_id a =? userId) eqn:Hu; [|exact Hdb].
    intros [= <- _]. apply Z.eqb_eq, Hu.
  - intros amount cur. unfold get_balance.
    destruct (select_account (db s) accountId userId) as [|a l] eqn:Hs; [discriminate|].
    intros [= <- <-]. exists a. apply select_account_head in Hs. tauto.
Qed.

(** ** The cache *)

Lemma account_unique l a b :
  NoDup (map id l) -> In a l -> In b l -> id a = id b -> a = b.
Proof.
  induction l as [|x l IH]; simpl; [intros _ []|].
  intros Hnd Ha Hb Hid. apply NoDup_cons in Hnd as [Hx Hnd].
  assert (Hin : forall r, In r l -> id r <> id x).
  { intros r Hr Heq. apply Hx. rewrite <- Heq. apply list_elem_of_In, in_map, Hr. }
  destruct Ha as [<-|Ha], Hb as [<-|Hb].
  - reflexivity.
  - exfalso. apply (Hin b Hb). symmetry. exact Hid.
  - exfalso. apply (Hin a Ha). exact Hid.
  - apply IH; assumption.
Qed.

Lemma select_account_unique d accountId userId a :
  NoDup (map id (accounts d)) ->
  In a (accounts d) -> id a = accountId -> user_id a = userId ->
  exists l, select_account d accountId userId = a :: l.
Proof.
  intros Hnd Ha Hid Hu.
  destruct (select_account d accountId userId) as [|b l] eqn:Hs.
  - exfalso. assert (Hin : In a []); [|destruct Hin].
    rewrite <- Hs. apply select_account_spec. auto.
  - exists l. f_equal. apply select_account_head in Hs as (Hb & Hbid & _).
    apply (account_unique _ _ _ Hnd Hb Ha). congruence.
Qed.

Lemma get_account_transparent now s userId accountId :
  well_keyed (db s) -> cache_coherent s ->
  (get_account now s userId accountId).1
  = (get_account now (without_cache s) userId accountId).1.
Proof.
  intros [Hnd _] Hc. unfold get_account, cache_get.
  cbn [without_cache redis db]. rewrite lookup_empty.
  destruct (redis s !! accountId) as [entry|] eqn:He;
    [|destruct (select_account (db s) accountId userId); reflexivity].
  destruct (now <? expires_at entry);
    [|destruct (select_account (db s) accountId userId); reflexivity].
  destruct (user_id (cached entry) =? userId) eqn:Hu;
    [|destruct (select_account (db s) accountId userId); reflexivity].
  destruct (Hc _ _ He) as [Hin Hid]. apply Z.eqb_eq in Hu.
  destruct (select_account_unique (db s) accountId userId _ Hnd Hin Hid Hu) as [l ->].
  reflexivity.
Qed.

Lemma handle_keeps s r :
  well_keyed (db s) -> cache_coherent s ->
  well_keyed (db (handle s r).2) /\ cache_coherent (handle s r).2
  /\ accounts (db s) `prefix_of` accounts (db (handle s r).2).
Proof.
  intros [Hnd Hlt] Hc.
  assert (Hsame : well_keyed (db s) /\ cache_coherent s
                  /\ accounts (db s) `prefix_of` accounts (db s))
    by (split; [split; assumption | split; [assumption | reflexivity]]).
  destruct r as [now number userId body | now userId accountId | userId accountId];
    cbn [handle snd].
  - unfold create_account.
    destruct (createAccountSchema_validate body); [exact Hsame|].
    destruct (existsb _ (accounts (db s)));
      unfold well_keyed, cache_coherent; cbn [snd db accounts accounts_id_seq setEx redis].
    + split; [split; [exact Hnd | intros a Ha; specialize (Hlt a Ha); lia]|].
      split; [exact Hc | reflexivity].
    + split; [split|split].
      * rewrite map_app. apply NoDup_app. split; [exact Hnd|]. split; [|apply NoDup_singleton].
        intros x Hx Hx'. apply list_elem_of_singleton in Hx'. subst x. cbn in Hx.
        apply list_elem_of_In, in_map_iff in Hx as (a & Ha & Hin).
        specialize (Hlt a Hin). lia.
      * intros a Ha. apply in_app_iff in Ha as [Ha|[<-|[]]]; [specialize (Hlt a Ha)|cbn]; lia.
      * intros k entry. cbn [id]. rewrite lookup_insert. case_decide as Hk.
        -- intros [= <-]. cbn [cached id]. split; [|exact Hk].
           apply in_app_iff. right. left. reflexivity.
        -- intros He. destruct (Hc _ _ He) as [Hin Hid]. split; [|exact Hid].
           apply in_app_iff. left. exact Hin.
      * apply prefix_app_r. reflexivity.
  - unfold get_account.
    assert (Hdb : let out := match select_account (db s) accountId userId with
                             | [] => (res_404 (message "Account not found"), s)
                             | a :: _ => (res_200 a, setEx now a s)
                             end in
                  well_keyed (db out.2) /\ cache_coherent out.2
                  /\ accounts (db s) `prefix_of` accounts (db out.2)).
    { destruct (select_account (db s) accountId userId) as [|a l] eqn:Hs; cbn [snd].
      - exact Hsame.
      - apply select_account_head in Hs as (Hin & Hid & _).
        cbn [setEx db]. split; [split; assumption|]. split; [|reflexivity].
        unfold cache_coherent. cbn [setEx redis db snd]. intros k entry. rewrite lookup_insert. case_decide as Hk.
        + intros [= <-]. cbn [cached]. split; [exact Hin | exact Hk].
        + apply Hc. }
    destruct (cache_get now s accountId) as [a|]; [|exact Hdb].
    destruct (user_id a =? userId); [|exact Hdb].
    exact Hsame.
  - exact Hsame.
Qed.

Lemma serve_keeps rs : forall s,
  well_keyed (db s) -> cache_coherent s ->
  well_keyed (db (serve s rs)) /\ cache_coherent (serve s rs)
  /\ accounts (db s) `prefix_of` accounts (db (serve s rs)).
Proof.
  unfold serve. induction rs as [|r rs IH]; intros s Hk Hc; cbn [foldl].
  - split; [exact Hk | split; [exact Hc | reflexivity]].
  - destruct (handle_keeps s r Hk Hc) as (Hk1 & Hc1 & Hp1).
    destruct (IH _ Hk1 Hc1) as (Hk2 & Hc2 & Hp2).
    split; [exact Hk2|]. split; [exact Hc2|]. etrans; eassumption.
Qed.

(** X24: the cache is transparent.  Starting from a table with unique ids
    given by the sequence and a cache that holds only rows of the table,
    after any sequence of creations and reads [GET /:accountId] gives the
    answer it would give with the cache flushed, at any time and for any
    caller; and the accounts that were in the table are still there
    unchanged. *)
Theorem cache_is_transparent s rs :
  well_keyed (db s) ->
  cache_coherent s ->
  (forall now userId accountId,
     (get_account now (serve s rs) userId accountId).1
     = (get_account now (without_cache (serve s rs)) userId accountId).1)
  /\ accounts (db s) `prefix_of` accounts (db (serve s rs)).
Proof.
  intros Hk Hc. destruct (serve_keeps rs s Hk Hc) as (Hk' & Hc' & Hp).
  split; [|exact Hp]. intros now userId accountId.
  apply get_account_transparent; assumption.
Qed.

Lemma fresh_server_well_keyed : well_keyed (db fresh_server) /\ cache_coherent fresh_server.
Proof.
  split; [split; [apply NoDup_nil_2 | intros a []]|].
  intros k entry. cbn. rewrite lookup_empty. discriminate.
Defined.

Lemma cache_is_transparent_witness :
  (get_account 9000 (serve fresh_server
                       [POST_account 1000 "1234567890" 7 sample_body;
                        GET_account 2000 7 1]) 7 1).1
  = (get_account 9000 (without_cache (serve fresh_server
                       [POST_account 1000 "1234567890" 7 sample_body;
                        GET_account 2000 7 1])) 7 1).1.
Proof.
  apply (cache_is_transparent fresh_server
           [POST_account 1000 "1234567890" 7 sample_body; GET_account 2000 7 1]
           (proj1 fresh_server_well_keyed) (proj2 fresh_server_well_keyed)).
Defined.

(** X25: a created account can be read back by its owner and by nobody
    else: after a successful creation on a well-keyed table, at any later
    time [GET /:accountId] with the new id gives the creator the account
    that was answered, before and after the cached copy expires, and gives
    404 to any other user. *)
Theorem create_then_get_account now number s userId body account s' :
  well_keyed (db s) ->
  create_account now number s userId body = (res_201 account, s') ->
  user_id account = userId
  /\ (forall later, (get_account later s' userId (id account)).1 = res_200 account)
  /\ (forall later other, other <> userId ->
        (get_account later s' other (id account)).1
        = res_404 (message "Account not found")).
Proof.
  intros [Hnd Hlt]. unfold create_account.
  destruct (createAccountSchema_validate body); [discriminate|].
  destruct (existsb _ (accounts (db s))); [discriminate|].
  intros [= <- <-]. cbn [user_id id]. split; [reflexivity|].
  set (account := {| id := accounts_id_seq (db s); user_id := userId;
                     account_number := number; type_of := accountType body;
                     balance := default 0 (initialDeposit body); currency := "USD";
                     status := "active"; created_at := now; updated_at := now |}).
  assert (Hsel : forall u, select_account
                   {| accounts := accounts (db s) ++ [account];
                      accounts_id_seq := accounts_id_seq (db s) + 1 |}
                   (accounts_id_seq (db s)) u
                 = if userId =? u then [account] else []).
  { intros u. unfold select_account. cbn [accounts]. rewrite List.filter_app.
    assert (List.filter (fun a => (id a =? accounts_id_seq (db s)) && (user_id a =? u))
              (accounts (db s)) = []) as ->.
    { clear -Hlt. revert Hlt. generalize (accounts_id_seq (db s)) as next_id.
      generalize (accounts (db s)) as l.
      induction l as [|a l IH]; intros next_id Hlt; [reflexivity|]. cbn [List.filter].
      assert ((id a =? next_id) = false) as ->.
      { apply Z.eqb_neq. specialize (Hlt a (or_introl eq_refl)). lia. }
      apply IH. intros b Hb. apply Hlt. right. exact Hb. }
    cbn. rewrite Z.eqb_refl. cbn. destruct (userId =? u); reflexivity. }
  split.
  - intros later. unfold get_account, cache_get. cbn [setEx redis db].
    change (id account) with (accounts_id_seq (db s)).
    rewrite lookup_insert_eq. cbn [expires_at cached].
    rewrite Hsel, !Z.eqb_refl.
    destruct (later <? now + ttl);
      [change (user_id account) with userId; rewrite Z.eqb_refl|]; reflexivity.
  - intros later other Hne. unfold get_account, cache_get. cbn [setEx redis db].
    change (id account) with (accounts_id_seq (db s)).
    rewrite lookup_insert_eq. cbn [expires_at cached].
    rewrite Hsel.
    assert (Hother : (userId =? other) = false) by (apply Z.eqb_neq; congruence).
    rewrite Hother.
    destruct (later <? now + ttl);
      [change (user_id account) with userId; rewrite Hother|]; reflexivity.
Qed.

Lemma create_then_get_account_witness :
  exists account,
    (create_account 1000 "1234567890" fresh_server 7 sample_body).1 = res_201 account
    /\ (get_account 9000000 (create_account 1000 "1234567890" fresh_server 7 sample_body).2
          7 (id account)).1 = res_200 account.
Proof.
  eexists. split; [reflexivity|].
  apply (create_then_get_account 1000 "1234567890" fresh_server 7 sample_body _ _
           (proj1 fresh_server_well_keyed) eq_refl).
Defined.

(** X26: the balance shown by the account service never moves: nothing in
    the service writes to an existing row, so once
    [GET /:accountId/balance] has answered with a balance, it answers the
    same balance after any sequence of creations and reads. *)
Theorem shown_balance_never_moves s rs userId accountId amount cur :
  well_keyed (db s) ->
  cache_coherent s ->
  get_balance s userId accountId = res_200_balance amount cur ->
  get_balance (serve s rs) userId accountId = res_200_balance amount cur.
Proof.
  intros Hk Hc. destruct (serve_keeps rs s Hk Hc) as (_ & _ & [more Hp]).
  unfold get_balance, select_account. rewrite Hp, List.filter_app.
  destruct (List.filter _ (accounts (db s))) as [|a l]; [discriminate|].
  intros [= <- <-]. reflexivity.
Qed.

Lemma shown_balance_never_moves_witness :
  get_balance (serve (create_account 1000 "1234567890" fresh_server 7 sample_body).2
                 [POST_account 2000 "1234567891" 7 sample_body; GET_account 3000 7 1]) 7 1
  = res_200_balance 100000 "USD".
Proof.
  assert (H := handle_keeps fresh_server (POST_account 1000 "1234567890" 7 sample_body)
                 (proj1 fresh_server_well_keyed) (proj2 fresh_server_well_keyed)).
  destruct H as (Hk & Hc & _).
  apply (shown_balance_never_moves _ _ 7 1 100000 "USD"%string Hk Hc). reflexivity.
Defined.

End AccountProperties.

(* ===================================================================== *)
(** * Properties of the handlers with their [catch]                       *)
(* ===================================================================== *)

Module TransactionStatementsTheory.
Import TransactionService TransactionStatements ColumnTypes.

(** ** What a statement does when it does not raise *)

Lemma select_ownership_fits d accountId userId :
  fits_integer accountId = true -> fits_integer userId = true ->
  select_ownership d accountId userId = Some (ownershipCheck d accountId userId).
Proof. intros Ha Hu. unfold select_ownership. rewrite Ha, Hu. reflexivity. Qed.

Lemma try_insert_transaction_some r d stored d' :
  try_insert_transaction r d = Some (stored, d') ->
  d' = insert_transaction stored d
  /\ fits_integer (account_id r) = true
  /\ fits_decimal_15_2 (amount r) = true
  /\ assign_reference (reference_id r) = Some (reference_id stored)
  /\ id stored = id r /\ account_id stored = account_id r
  /\ row_type stored = row_type r /\ amount stored = amount r
  /\ description stored = description r.
Proof.
  unfold try_insert_transaction.
  destruct (fits_integer (account_id r)); [|discriminate].
  destruct (fits_decimal_15_2 (amount r)); [|discriminate].
  destruct (fits_text (description r)); [|discriminate]. cbn [andb].
  destruct (assign_reference (reference_id r)) as [x|]; [|discriminate].
  cbn. intros [= <- <-]. repeat split.
Qed.

Lemma try_insert_transaction_kept r d :
  fits_integer (account_id r) = true ->
  fits_decimal_15_2 (amount r) = true ->
  fits_text (description r) = true ->
  assign_reference (reference_id r) = Some (reference_id r) ->
  try_insert_transaction r d = Some (r, insert_transaction r d).
Proof.
  intros Ha Hm Ht Hr. unfold try_insert_transaction. rewrite Ha, Hm, Ht, Hr. cbn.
  destruct r; reflexivity.
Qed.

Lemma try_insert_transaction_none r d :
  try_insert_transaction r d = None <->
  fits_integer (account_id r) = false
  \/ fits_decimal_15_2 (amount r) = false
  \/ fits_text (description r) = false
  \/ assign_reference (reference_id r) = None.
Proof.
  unfold try_insert_transaction.
  destruct (fits_integer (account_id r)), (fits_decimal_15_2 (amount r)),
    (fits_text (description r)); cbn [andb];
    try (split; [intros _; auto | reflexivity]).
  destruct (assign_reference (reference_id r)); cbn.
  - split; [discriminate | intros [?|[?|[?|?]]]; discriminate].
  - split; [auto | reflexivity].
Qed.

Lemma try_upsert_balance_some accountId inserted on_conflict d d' :
  try_upsert_balance accountId inserted on_conflict d = Some d' ->
  d' = upsert_balance accountId inserted on_conflict d.
Proof.
  unfold try_upsert_balance. destruct (_ && _); [|discriminate]. intros [= <-]. reflexivity.
Qed.

Lemma try_upsert_balance_kept accountId inserted on_conflict d :
  fits_integer accountId = true ->
  fits_decimal_15_2 inserted = true ->
  (forall balance, account_balances d !! accountId = Some balance ->
     fits_decimal_15_2 (on_conflict balance) = true) ->
  try_upsert_balance accountId inserted on_conflict d
  = Some (upsert_balance accountId inserted on_conflict d).
Proof.
  intros Ha Hi Hb. unfold try_upsert_balance. rewrite Ha, Hi. cbn [andb].
  destruct (account_balances d !! accountId) as [balance|]; cbn [from_option];
    [rewrite (Hb balance eq_refl)|]; reflexivity.
Qed.

Lemma try_upsert_balance_none accountId inserted on_conflict d balance :
  account_balances d !! accountId = Some balance ->
  fits_decimal_15_2 (on_conflict balance) = false ->
  try_upsert_balance accountId inserted on_conflict d = None.
Proof.
  intros Hb Hf. unfold try_upsert_balance. rewrite Hb. cbn [from_option]. rewrite Hf.
  rewrite andb_false_r. reflexivity.
Qed.

Lemma assign_varchar_short n x :
  fits_text x = true -> (String.length x <= n)%nat -> assign_varchar n x = Some x.
Proof.
  intros Ht H. unfold assign_varchar. rewrite Ht.
  assert ((String.length x <=? n)%nat = true) as -> by (apply Nat.leb_le, H). reflexivity.
Qed.

Lemma fits_text_app x y : fits_text (x +:+ y) = fits_text x && fits_text y.
Proof.
  induction x as [|c x IH]; [reflexivity|].
  change (String c x +:+ y) with (String c (x +:+ y)). cbn [fits_text].
  rewrite IH, andb_assoc. reflexivity.
Qed.

Lemma assign_reference_fits body :
  reference_fits body ->
  assign_reference (caller_reference <$> tx_referenceId body)
  = Some (caller_reference <$> tx_referenceId body).
Proof.
  unfold reference_fits. destruct (tx_referenceId body) as [x|]; cbn; [|reflexivity].
  intros [Ht H]. rewrite assign_varchar_short by assumption. reflexivity.
Qed.

Lemma fits_decimal_15_2_iff cents :
  fits_decimal_15_2 cents = true <-> -1000000000000000 < cents < 1000000000000000.
Proof. unfold fits_decimal_15_2. rewrite andb_true_iff, !Z.ltb_lt. reflexivity. Qed.

Lemma valid_transfer_amount body :
  transferSchema_validate body = None -> 0 < transfer_amount body.
Proof.
  unfold transferSchema_validate, positive_amount.
  destruct (negb (positive_integer (fromAccountId body))); [discriminate|].
  destruct (negb (positive_integer (toAccountId body))); [discriminate|].
  destruct (0 <? transfer_amount body) eqn:H; cbn; [|discriminate]. lia.
Qed.

Lemma valid_transaction_amount body :
  transactionSchema_validate body = None -> 0 < tx_amount body.
Proof.
  unfold transactionSchema_validate, positive_amount.
  destruct (negb (positive_integer (tx_accountId body))); [discriminate|].
  destruct (0 <? tx_amount body) eqn:H; cbn; [|discriminate]. lia.
Qed.

(** ** The two layers agree *)

(** Whatever [post_transfer] answers from its own [return]s is what
    [transfer] answers, with the same state of the process after it. *)
Lemma post_transfer_answered s userId body res s' :
  post_transfer s userId body = (answered res, s') ->
  transfer s userId body = (res, s').
Proof.
  unfold post_transfer, transfer, handle, checks, transfer_checks.
  destruct (transferSchema_validate body); [intros [= <- <-]; reflexivity|].
  cbn [uuidv4 db]. unfold select_ownership.
  destruct (fits_integer (fromAccountId body) && fits_integer userId); [|discriminate].
  destruct (ownershipCheck (db s) (fromAccountId body) userId); cbn [negb];
    [|intros [= <- <-]; reflexivity].
  destruct (verifyAccountBalance (db s) (fromAccountId body) (transfer_amount body)
              debit);
    [|intros [= <- <-]; reflexivity].
  cbn [commit]. unfold transfer_commit. cbn [uuidv4 db].
  destruct (try_insert_transaction _ _) as [[debitTransaction d1]|] eqn:H1; [|discriminate].
  destruct (try_insert_transaction _ d1) as [[creditTransaction d2]|] eqn:H2;
    [|discriminate].
  apply try_insert_transaction_some in H1 as (-> & _ & _ & Hr1 & Hi1).
  apply try_insert_transaction_some in H2 as (-> & _ & _ & Hr2 & Hi2).
  cbn [mbind option_bind fst snd].
  destruct (try_upsert_balance _ _ _ _) as [d3|] eqn:H3; [|discriminate].
  apply try_upsert_balance_some in H3 as ->. cbn [mbind option_bind].
  destruct (try_upsert_balance (toAccountId body) _ _ _) as [d4|] eqn:H4; [|discriminate].
  apply try_upsert_balance_some in H4 as ->. cbn [mbind option_bind].
  cbn in Hr1, Hr2. injection Hr1 as Hr1. injection Hr2 as Hr2.
  assert (debitTransaction
          = debit_leg (N.succ (next_uuid s)) body (next_uuid s)) as ->.
  { destruct debitTransaction; cbn in *. unfold debit_leg.
    destruct Hi1 as (-> & -> & -> & -> & ->). rewrite Hr1. reflexivity. }
  assert (creditTransaction
          = credit_leg (N.succ (N.succ (next_uuid s))) body (next_uuid s))
    as ->.
  { destruct creditTransaction; cbn in *. unfold credit_leg.
    destruct Hi2 as (-> & -> & -> & -> & ->). rewrite Hr2. reflexivity. }
  intros [= <- <-]. reflexivity.
Qed.

(** Likewise for [post_transaction] and [create_transaction], when the
    caller's reference is stored as it is. *)
Lemma post_transaction_answered s userId body res s' :
  reference_fits body ->
  post_transaction s userId body = (answered res, s') ->
  create_transaction s userId body = (res, s').
Proof.
  intros Hfit.
  unfold post_transaction, create_transaction, handle, checks, transaction_checks.
  destruct (transactionSchema_validate body); [intros [= <- <-]; reflexivity|].
  cbn [uuidv4 db]. unfold select_ownership.
  destruct (fits_integer (tx_accountId body) && fits_integer userId); [|discriminate].
  destruct (ownershipCheck (db s) (tx_accountId body) userId); cbn [negb];
    [|intros [= <- <-]; reflexivity].
  assert (Hcommit :
    match
      inserted ← try_insert_transaction (transaction_row_of body (next_uuid s))
                   (db s);
      d2 ← try_upsert_balance (tx_accountId body)
             (if bool_decide (tx_type body = credit) then tx_amount body else - tx_amount body)
             (fun balance => balance +
                (if bool_decide (tx_type body = credit) then tx_amount body
                 else - tx_amount body)) inserted.2;
      Some (inserted.1, d2)
    with
    | None => True
    | Some (transaction, d2) =>
        transaction = transaction_row_of body (next_uuid s)
        /\ d2 = upsert_balance (tx_accountId body)
                  (if bool_decide (tx_type body = credit) then tx_amount body
                   else - tx_amount body)
                  (fun balance => balance +
                     (if bool_decide (tx_type body = credit) then tx_amount body
                      else - tx_amount body))
                  (insert_transaction (transaction_row_of body (next_uuid s))
                     (db s))
    end).
  { destruct (try_insert_transaction _ _) as [[stored d1]|] eqn:H1; [|exact I].
    apply try_insert_transaction_some in H1 as (-> & _ & _ & Hr & Hi).
    cbn [mbind option_bind fst snd].
    destruct (try_upsert_balance _ _ _ _) as [d2|] eqn:H2; [|exact I].
    apply try_upsert_balance_some in H2 as ->. cbn [mbind option_bind].
    assert (stored = transaction_row_of body (next_uuid s)) as ->;
      [|split; reflexivity].
    cbn [reference_id transaction_row_of] in Hr.
    rewrite assign_reference_fits in Hr by exact Hfit. injection Hr as Hr.
    destruct stored; cbn in *. unfold transaction_row_of.
    destruct Hi as (-> & -> & -> & -> & ->). rewrite Hr. reflexivity. }
  destruct (tx_type body) eqn:Htype; rewrite ?Htype in Hcommit.
  - destruct (verifyAccountBalance _ _ _ _); [|intros [= <- <-]; reflexivity].
    cbn [commit]. unfold transaction_commit.
    destruct (_ ≫= _) as [[transaction d2]|]; [|discriminate].
    destruct Hcommit as [-> ->]. intros [= <- <-].
    unfold transaction_row_of. cbn. rewrite ?Htype. reflexivity.
  - cbn [commit]. unfold transaction_commit.
    destruct (_ ≫= _) as [[transaction d2]|]; [|discriminate].
    destruct Hcommit as [-> ->]. intros [= <- <-].
    unfold transaction_row_of. cbn. rewrite ?Htype. reflexivity.
Qed.

(** A handler that answers 500 has rolled back: the tables are as they
    were and nothing was published. *)
Lemma raised_changes_nothing s userId error s' :
  (forall body, post_transfer s userId body = (res_500 error, s') ->
     db s' = db s /\ banking_events s' = banking_events s)
  /\ (forall body, post_transaction s userId body = (res_500 error, s') ->
     db s' = db s /\ banking_events s' = banking_events s).
Proof.
  split; intros body.
  - unfold post_transfer.
    destruct (transferSchema_validate body); [discriminate|]. cbn [uuidv4 db].
    destruct (select_ownership _ _ _) as [[|]|];
      [|discriminate|intros [= _ <-]; split; reflexivity].
    destruct (verifyAccountBalance _ _ _ _); [|discriminate].
    destruct (try_insert_transaction _ _) as [[debitTransaction d1]|];
      [|intros [= _ <-]; split; reflexivity].
    destruct (_ ≫= _) as [[creditTransaction d4]|]; [discriminate|].
    intros [= _ <-]. split; reflexivity.
  - unfold post_transaction.
    destruct (transactionSchema_validate body); [discriminate|]. cbn [uuidv4 db].
    destruct (select_ownership _ _ _) as [[|]|];
      [|discriminate|intros [= _ <-]; split; reflexivity].
    destruct (match tx_type body with debit => _ | credit => _ end); [discriminate|].
    destruct (_ ≫= _) as [[transaction d2]|]; [discriminate|].
    intros [= _ <-]. split; reflexivity.
Qed.

(** ** Transfers *)

(** C8 (as amended): for a valid transfer request of the owner of the source
    account, with ids within [INTEGER] and a description that the column
    takes, a source
    account with no balance row is answered with 'Account not found', and
    then no entry is created and no balance row is created or changed.
    The destination is not looked up: when it has no balance row and the
    source can pay, the transfer is made and the credit leg creates the
    destination row with the amount as its balance, provided the
    destination id fits the [INTEGER] column; when it does not, the
    [INSERT] of the credit leg raises, the answer is 500 and nothing is
    written. *)
Theorem transfer_account_not_found s userId body :
  transferSchema_validate body = None ->
  ownershipCheck (db s) (fromAccountId body) userId = true ->
  fits_integer (fromAccountId body) = true ->
  fits_integer userId = true ->
  fits_text (transfer_description body) = true ->
  (account_balances (db s) !! fromAccountId body = None ->
     (post_transfer s userId body).1
     = answered (res_400 (message "Account not found"))
     /\ db ((post_transfer s userId body).2) = db s)
  /\ (forall balance,
       account_balances (db s) !! fromAccountId body = Some balance ->
       transfer_amount body <= balance ->
       fits_decimal_15_2 balance = true ->
       account_balances (db s) !! toAccountId body = None ->
       (fits_integer (toAccountId body) = true ->
          (exists transferId debitTransaction creditTransaction,
             (post_transfer s userId body).1
             = answered (res_201_transfer transferId debitTransaction creditTransaction))
          /\ account_balances (db ((post_transfer s userId body).2))
               !! toAccountId body
             = Some (transfer_amount body)
          /\ length (transactions (db ((post_transfer s userId body).2)))
             = (length (transactions (db s)) + 2)%nat)
       /\ (fits_integer (toAccountId body) = false ->
          (post_transfer s userId body).1
          = res_500 (message "Transfer failed")
          /\ db ((post_transfer s userId body).2) = db s)).
Proof.
  intros Hv Ho Hfrom Huser Htext.
  pose proof (valid_transfer_amount body Hv) as Hpos.
  assert (Hdebit : fits_text ("Transfer: " +:+ transfer_description body) = true)
    by (rewrite fits_text_app, Htext; reflexivity).
  assert (Hcredit : fits_text ("Transfer received: " +:+ transfer_description body) = true)
    by (rewrite fits_text_app, Htext; reflexivity).
  unfold post_transfer. rewrite Hv. cbn [uuidv4 db].
  rewrite select_ownership_fits, Ho by assumption.
  unfold verifyAccountBalance. split.
  - intros ->. split; reflexivity.
  - intros balance Hb Hle Hbal Hto. rewrite Hb.
    rewrite bool_decide_eq_true_2 by reflexivity. cbn [andb].
    assert ((balance <? transfer_amount body) = false) as -> by lia.
    apply fits_decimal_15_2_iff in Hbal.
    assert (Hamount : fits_decimal_15_2 (transfer_amount body) = true)
      by (apply fits_decimal_15_2_iff; lia).
    rewrite try_insert_transaction_kept by (try assumption; reflexivity).
    assert (Hne : fromAccountId body <> toAccountId body) by congruence.
    split; intros Hfit.
    + rewrite try_insert_transaction_kept by (try assumption; reflexivity).
      cbn [mbind option_bind fst snd].
      rewrite (try_upsert_balance_kept (fromAccountId body));
        [|assumption|assumption|].
      2:{ cbn [insert_transaction account_balances]. intros b Hb'.
          rewrite Hb in Hb'. injection Hb' as <-. apply fits_decimal_15_2_iff. lia. }
      cbn [mbind option_bind].
      rewrite (try_upsert_balance_kept (toAccountId body));
        [|assumption|assumption|].
      2:{ unfold upsert_balance, insert_transaction. cbn [account_balances]. rewrite Hb.
          intros b Hb'. rewrite lookup_insert_ne, Hto in Hb' by assumption.
          discriminate Hb'. }
      cbn [mbind option_bind fst snd].
      split; [eexists _, _, _; reflexivity|].
      rewrite TransactionServiceTheory.publishEvent_db.
      unfold upsert_balance, insert_transaction. cbn [set_db db account_balances transactions].
      rewrite Hb. rewrite lookup_insert_ne, Hto by assumption.
      rewrite lookup_insert_eq. split; [reflexivity|].
      rewrite !length_app. simpl. lia.
    + rewrite (proj2 (try_insert_transaction_none (credit_leg _ _ _) _))
        by (left; exact Hfit).
      split; reflexivity.
Qed.

Lemma transfer_account_not_found_witness :
  (post_transfer (fresh_server [(1, 7)] true) 7 (sample_transfer 2 40000)).1
    = answered (res_400 (message "Account not found"))
  /\ db ((post_transfer (fresh_server [(1, 7)] true) 7
                 (sample_transfer 2 40000)).2)
     = db (fresh_server [(1, 7)] true).
Proof.
  apply (transfer_account_not_found (fresh_server [(1, 7)] true) 7
           (sample_transfer 2 40000)); reflexivity.
Defined.

(** C8 as stated fails for the destination: account 2 has no balance row,
    yet the transfer is made, two entries are added and a balance row for
    account 2 appears. *)
Lemma transfer_to_unknown_destination_succeeds :
  account_balances (db sample_server) !! 2 = None
  /\ (exists transferId debitTransaction creditTransaction,
        (post_transfer sample_server 7 (sample_transfer 2 40000)).1
        = answered (res_201_transfer transferId debitTransaction creditTransaction))
  /\ (post_transfer sample_server 7 (sample_transfer 2 40000)).1
     <> answered (res_400 (message "Account not found"))
  /\ length (transactions
               (db ((post_transfer sample_server 7
                            (sample_transfer 2 40000)).2)))
     = (length (transactions (db sample_server)) + 2)%nat
  /\ account_balances
       (db ((post_transfer sample_server 7 (sample_transfer 2 40000)).2))
       !! 2
     = Some 40000.
Proof.
  split; [reflexivity|]. split; [eexists _, _, _; vm_compute; reflexivity|].
  split; [vm_compute; discriminate|]. split; vm_compute; reflexivity.
Qed.

(** A destination id that Joi accepts and [INTEGER] does not: the [INSERT]
    of the credit leg raises, the debit leg is rolled back with it. *)
Lemma transfer_to_far_account_raises :
  transferSchema_validate far_transfer = None
  /\ (post_transfer sample_server 7 far_transfer).1
     = res_500 (message "Transfer failed")
  /\ db ((post_transfer sample_server 7 far_transfer).2)
     = db sample_server.
Proof. vm_compute. repeat split. Qed.

(** ** Single entries *)

(** X3: for a valid [POST /] request of the owner of the account, with ids
    within [INTEGER], a description and a reference that the columns
    take, a debit needs a balance row that covers
    the amount (otherwise 'Account not found' or 'Insufficient funds', and
    nothing is written), while a credit is looked up nowhere: it is made,
    row or no row, whenever the amount and the balance it leads to fit
    [DECIMAL(15,2)], and is answered 500 with nothing written when they do
    not. *)
Theorem single_leg_needs_funds_only_for_debit s userId body :
  transactionSchema_validate body = None ->
  ownershipCheck (db s) (tx_accountId body) userId = true ->
  fits_integer (tx_accountId body) = true ->
  fits_integer userId = true ->
  fits_text (tx_description body) = true ->
  reference_fits body ->
  (tx_type body = debit ->
     (account_balances (db s) !! tx_accountId body = None ->
        (post_transaction s userId body).1
        = answered (res_400 (message "Account not found"))
        /\ db ((post_transaction s userId body).2) = db s)
     /\ (forall balance,
          account_balances (db s) !! tx_accountId body = Some balance ->
          (balance < tx_amount body ->
             (post_transaction s userId body).1
             = answered (res_400 (message "Insufficient funds"))
             /\ db ((post_transaction s userId body).2) = db s)
          /\ (tx_amount body <= balance -> fits_decimal_15_2 balance = true ->
             (post_transaction s userId body).1
             = answered (res_201_transaction
                           (transaction_row_of body (next_uuid s)))
             /\ balance_of (db ((post_transaction s userId body).2))
                  (tx_accountId body)
                = balance - tx_amount body)))
  /\ (tx_type body = credit ->
      (fits_decimal_15_2 (tx_amount body)
       && fits_decimal_15_2 (balance_of (db s) (tx_accountId body) + tx_amount body)
       = true ->
         (post_transaction s userId body).1
         = answered (res_201_transaction (transaction_row_of body (next_uuid s)))
         /\ account_balances (db ((post_transaction s userId body).2))
              !! tx_accountId body
            = Some (balance_of (db s) (tx_accountId body) + tx_amount body))
      /\ (fits_decimal_15_2 (tx_amount body)
          && fits_decimal_15_2 (balance_of (db s) (tx_accountId body) + tx_amount body)
          = false ->
         (post_transaction s userId body).1
         = res_500 (message "Transaction failed")
         /\ db ((post_transaction s userId body).2) = db s)).
Proof.
  intros Hv Ho Haccount Huser Htext Hfit.
  pose proof (valid_transaction_amount body Hv) as Hpos.
  unfold post_transaction. rewrite Hv. cbn [uuidv4 db].
  rewrite select_ownership_fits, Ho by assumption.
  split; intros Htype; rewrite Htype.
  - unfold verifyAccountBalance. split.
    + intros ->. split; reflexivity.
    + intros balance Hb. rewrite Hb. rewrite bool_decide_eq_true_2 by reflexivity.
      cbn [andb]. split.
      * intros Hlt. assert ((balance <? tx_amount body) = true) as -> by lia.
        split; reflexivity.
      * intros Hle Hbal. assert ((balance <? tx_amount body) = false) as -> by lia.
        apply fits_decimal_15_2_iff in Hbal.
        rewrite bool_decide_eq_false_2 by discriminate.
        rewrite try_insert_transaction_kept;
          [|exact Haccount | apply fits_decimal_15_2_iff; cbn; lia | exact Htext
           |apply assign_reference_fits, Hfit].
        cbn [mbind option_bind fst snd].
        rewrite (try_upsert_balance_kept (tx_accountId body));
          [|exact Haccount | apply fits_decimal_15_2_iff; lia
           |intros b Hb'; cbn [insert_transaction account_balances] in Hb';
            rewrite Hb in Hb'; injection Hb' as <-; apply fits_decimal_15_2_iff; lia].
        cbn [mbind option_bind fst snd]. split; [reflexivity|].
        rewrite TransactionServiceTheory.publishEvent_db.
        unfold balance_of, upsert_balance, insert_transaction.
        cbn [set_db db account_balances]. rewrite Hb, lookup_insert_eq. cbn. lia.
  - rewrite bool_decide_eq_true_2 by reflexivity.
    assert (Hrow : forall b, account_balances (db s) !! tx_accountId body = Some b ->
              balance_of (db s) (tx_accountId body) = b)
      by (intros b Hb; unfold balance_of; rewrite Hb; reflexivity).
    split; intros Hfits.
    + apply andb_true_iff in Hfits as [Hamount Hsum].
      rewrite try_insert_transaction_kept;
        [|exact Haccount | exact Hamount | exact Htext | apply assign_reference_fits, Hfit].
      cbn [mbind option_bind fst snd].
      rewrite (try_upsert_balance_kept (tx_accountId body));
        [|exact Haccount | exact Hamount
         |intros b Hb; cbn [insert_transaction account_balances] in Hb;
          rewrite <- (Hrow b Hb); exact Hsum].
      cbn [mbind option_bind fst snd]. split; [reflexivity|].
      rewrite TransactionServiceTheory.publishEvent_db.
      unfold upsert_balance, insert_transaction, balance_of.
      cbn [set_db db account_balances].
      destruct (account_balances (db s) !! tx_accountId body) as [b|];
        rewrite lookup_insert_eq; cbn [default from_option Datatypes.id];
        [reflexivity | rewrite Z.add_0_l; reflexivity].
    + destruct (fits_decimal_15_2 (tx_amount body)) eqn:Hamount; cbn [andb] in Hfits.
      * rewrite try_insert_transaction_kept;
          [|exact Haccount | exact Hamount | exact Htext
           |apply assign_reference_fits, Hfit].
        cbn [mbind option_bind fst snd].
        destruct (account_balances (db s) !! tx_accountId body) as [b|] eqn:Hb.
        -- rewrite (try_upsert_balance_none _ _ _ _ b);
             [split; reflexivity | exact Hb | rewrite <- (Hrow b eq_refl); exact Hfits].
        -- exfalso. unfold balance_of in Hfits. rewrite Hb in Hfits.
           cbn [default from_option Datatypes.id] in Hfits.
           rewrite Z.add_0_l in Hfits. congruence.
      * rewrite (proj2 (try_insert_transaction_none (transaction_row_of _ _) _))
          by (right; left; exact Hamount).
        split; reflexivity.
Qed.

Lemma single_leg_needs_funds_only_for_debit_witness :
  (post_transaction (fresh_server [(1, 7)] true) 7 sample_deposit).1
    = answered (res_201_transaction (transaction_row_of sample_deposit 0%N))
  /\ account_balances
       (db ((post_transaction (fresh_server [(1, 7)] true) 7
                    sample_deposit).2)) !! 1
     = Some 2500.
Proof.
  apply (single_leg_needs_funds_only_for_debit (fresh_server [(1, 7)] true) 7
           sample_deposit);
    [reflexivity | reflexivity | reflexivity | reflexivity | reflexivity | exact I
     | reflexivity | reflexivity].
Defined.

(** ** The history *)

Section History.
Import TransactionHistory.

Variable newest_first : list transaction_row -> list transaction_row.
Hypothesis newest_first_perm : forall l, newest_first l ≡ₚ l.

(** For ids within [INTEGER] and a page within [BIGINT], the two layers
    give the same answer. *)
Lemma get_history_agrees d userId accountId page limit :
  fits_integer accountId = true -> fits_integer userId = true ->
  fits_bigint (default 20 limit) = true ->
  fits_bigint ((default 1 page - 1) * default 20 limit) = true ->
  get_history newest_first d userId accountId page limit
  = history newest_first d userId accountId page limit.
Proof.
  intros Ha Hu Hl Hoff. unfold get_history, history.
  rewrite select_ownership_fits by assumption. rewrite Hl, Hoff.
  destruct (ownershipCheck d accountId userId); cbn [negb andb]; [|reflexivity].
  rewrite orb_false_r. reflexivity.
Qed.

(** X8: the history is only given to an owner of the account: for ids
    within [INTEGER], a caller who does not own the account is answered
    403; an account id outside [INTEGER] is answered 500.  A page holds
    entries of that account only, taken from the ledger, at most [limit]
    of them; [total] is the number of entries of the account. *)
Theorem history_page_of_the_account d userId accountId page limit :
  (fits_integer accountId = true -> fits_integer userId = true ->
   ownershipCheck d accountId userId = false ->
     get_history newest_first d userId accountId page limit
     = history_403 "Account access denied")
  /\ (fits_integer accountId = false ->
     get_history newest_first d userId accountId page limit
     = history_500 "Failed to retrieve transaction history")
  /\ (forall rows p,
       get_history newest_first d userId accountId page limit = history_200 rows p ->
       ownershipCheck d accountId userId = true
       /\ (forall t, t ∈ rows -> account_id t = accountId /\ t ∈ transactions d)
       /\ Z.of_nat (length rows) <= default 20 limit
       /\ total p = Z.of_nat (length (entries_of accountId (transactions d)))).
Proof.
  unfold get_history, select_ownership. split; [|split].
  - intros -> -> ->. reflexivity.
  - intros ->. reflexivity.
  - intros rows p.
    destruct (fits_integer accountId && fits_integer userId); [|discriminate].
    destruct (ownershipCheck d accountId userId); [|discriminate].
    destruct (_ || _) eqn:Hneg; [discriminate|].
    apply orb_false_iff in Hneg as [Hneg _].
    apply orb_false_iff in Hneg as [Hl Hoff]. intros [= <- <-].
    split; [reflexivity|]. split; [|split; [|reflexivity]].
    + intros t Ht. apply subseteq_take, subseteq_drop in Ht.
      rewrite newest_first_perm in Ht. unfold entries_of in Ht.
      apply list_elem_of_filter in Ht as [Ha Ht]. split; assumption.
    + rewrite length_take. lia.
Qed.

End History.

Lemma history_of_a_far_account_raises :
  get_history reverse (db sample_server) 7 3000000000 None None
  = TransactionHistory.history_500 "Failed to retrieve transaction history".
Proof. reflexivity. Qed.

Lemma history_page_of_the_account_witness :
  get_history reverse (db sample_server) 8 1 None None
  = TransactionHistory.history_403 "Account access denied".
Proof.
  apply (history_page_of_the_account reverse reverse_Permutation
           (db sample_server) 8 1 None None); reflexivity.
Defined.

End TransactionStatementsTheory.

(* ===================================================================== *)
(** * Properties of the payment service on pooled connections             *)
(* ===================================================================== *)

Module PaymentConnectionsTheory.
Import PaymentService PaymentOperations PaymentConnections ColumnTypes ConnectionPool.

(** ** What a client sees *)

Lemma rows_seen_versions c l p' :
  In p' (rows_seen c l) ->
  exists p, In p l /\ (p' = p \/ exists began_at, p' = cancelled_row began_at p).
Proof.
  destruct c as [[began_at mine]|]; cbn [rows_seen];
    try (intros H; exists p'; split; [exact H | left; reflexivity]).
  intros H. apply list_elem_of_In, elem_of_lookup_imap in H as (i & p & -> & Hp).
  exists p. split; [apply list_elem_of_In, list_elem_of_lookup; exists i; exact Hp|].
  destruct (bool_decide (i ∈ mine)); [right; exists began_at; reflexivity | left; reflexivity].
Qed.

Lemma rows_seen_ids c l : map id (rows_seen c l) = map id l.
Proof.
  destruct c as [[began_at mine]|]; cbn [rows_seen]; try reflexivity.
  apply list_eq. intros i. rewrite !list_lookup_fmap, list_lookup_imap.
  destruct (l !! i) as [p|]; cbn; [|reflexivity].
  destruct (bool_decide (i ∈ mine)); reflexivity.
Qed.

Lemma tables_seen_none d : tables_seen None d = d.
Proof. destruct d; reflexivity. Qed.

Lemma cancellable_cancelled d paymentId userId began_at p :
  cancellable d paymentId userId (cancelled_row began_at p) = false.
Proof. unfold cancellable. cbn. apply andb_false_r. Qed.

Lemma cancellable_tables d d' paymentId userId q :
  account_ownership d' = account_ownership d ->
  cancellable d' paymentId userId q = cancellable d paymentId userId q.
Proof. intros H. unfold cancellable, ownershipCheck. rewrite H. reflexivity. Qed.

(** ** The sweep of scheduled payments *)

Lemma sweep_effect clock pick s :
  let c := taken (left_open s) pick in
  db (live (sweep clock pick s)) = db (live s)
  /\ channel (live (sweep clock pick s)) = channel (live s)
  /\ left_open (sweep clock pick s) = left_open s
  /\ payment_processing (live (sweep clock pick s))
     = payment_processing (live s)
       ++ (if channel (live s)
           then map (fun row => process_scheduled (id row))
                  (List.filter (due (now_of c clock))
                     (rows_seen c (payments (db (live s)))))
           else []).
Proof.
  intros c. unfold sweep. fold c.
  destruct (PaymentServiceTheory.send_all (live s)
              (List.filter (due (now_of c clock)) (rows_seen c (payments (db (live s))))))
    as (Hd & Hc & Hq).
  cbn [with_live live left_open]. repeat split; assumption.
Qed.

(** On clients in no transaction the sweeps are those of [PaymentService]. *)
Lemma sweeps_without_transaction clock : forall s,
  sweeps s (map (fun now => (now, None)) clock) = with_live s (ticks (live s) clock).
Proof.
  induction clock as [|now clock IH]; intros s; [destruct s; reflexivity|].
  cbn [map]. change (sweeps s ((now, None) :: map (fun now => (now, None)) clock))
    with (sweeps (sweep now None s) (map (fun now => (now, None)) clock)).
  rewrite IH. reflexivity.
Qed.

(** C9 (as amended): a tick reads the payments table as its [SELECT] sees
    it at that tick and selects exactly the payments whose status is
    'scheduled' and whose [scheduled_at] is not after the [NOW()] of that
    [SELECT]; on a client in no transaction these are the committed rows
    and the time of the tick.  When the channel is set it sends one
    message per selected payment to the [payment.processing] queue, so
    within the tick a selected payment is handed over once and a payment
    that is not 'scheduled', or not yet due, is not handed over; while the
    channel is undefined nothing is sent.  The tick leaves the payments
    table and the pooled clients as it found them. *)
Theorem scheduler_tick clock pick s :
  let c := taken (left_open s) pick in
  let seen := rows_seen c (payments (db (live s))) in
  let selected := List.filter (due (now_of c clock)) seen in
  db (live (sweep clock pick s)) = db (live s)
  /\ left_open (sweep clock pick s) = left_open s
  /\ payment_processing (live (sweep clock pick s))
     = payment_processing (live s)
       ++ (if channel (live s)
           then map (fun row => process_scheduled (id row)) selected
           else [])
  /\ (forall p, In p selected
        <-> In p seen
            /\ status p = "scheduled"%string
            /\ exists at_, scheduled_at p = Some at_ /\ at_ <= now_of c clock)
  /\ (c = None -> now_of c clock = clock /\ seen = payments (db (live s)))
  /\ (payments_pkey (db (live s)) ->
      forall p, In p seen ->
        handed (id p) (live (sweep clock pick s))
        = (handed (id p) (live s)
           + if channel (live s) && due (now_of c clock) p then 1 else 0)%nat).
Proof.
  intros c seen selected.
  destruct (sweep_effect clock pick s) as (Hd & _ & Hl & Hq).
  fold c in Hq. fold seen in Hq. fold selected in Hq.
  split; [exact Hd|]. split; [exact Hl|]. split; [exact Hq|]. split; [|split].
  - intros p. unfold selected. rewrite filter_In, PaymentServiceTheory.due_iff. reflexivity.
  - intros Hnone. unfold seen. rewrite Hnone. split; reflexivity.
  - intros Hpk p Hp. unfold handed. rewrite Hq, List.filter_app, length_app.
    f_equal. destruct (channel (live s)); cbn [andb]; [|reflexivity].
    apply PaymentServiceTheory.selected_once; [|exact Hp].
    unfold seen. rewrite rows_seen_ids. exact Hpk.
Qed.

Lemma scheduler_tick_witness :
  payment_processing (live (sweep 2000 None (sample_service true)))
  = [process_scheduled 0%N].
Proof.
  apply (scheduler_tick 2000 None (sample_service true)).
Defined.

(** On a client that [POST /] left inside a transaction, [NOW()] is the
    time of that [BEGIN]: payment 0, due since 1000, is not selected by
    the ticks sent on the client at 2000 and at 62000.  On a client in no
    transaction the tick at 2000 selects it. *)
Lemma tick_on_a_client_left_in_transaction :
  let refused := post_payment 100 None None (sample_service true) 7 refused_body in
  left_open refused.2 = [in_progress 100 []]
  /\ payment_processing
       (live (sweeps refused.2 [(2000, Some 0%nat); (62000, Some 0%nat)])) = []
  /\ payment_processing (live (sweep 2000 None refused.2)) = [process_scheduled 0%N].
Proof. vm_compute. repeat split. Qed.

(** C9 as stated fails across ticks: payment 0 is scheduled and due, no
    tick changes its status, and two ticks put it on the queue twice. *)
Lemma due_payment_handed_twice :
  due 2000 (sample_row 0%N "scheduled" (Some 1000)) = true
  /\ handed 0%N (live (sample_service true)) = 0%nat
  /\ handed 0%N (live (sweeps (sample_service true) [(2000, None)])) = 1%nat
  /\ handed 0%N (live (sweeps (sample_service true) [(2000, None); (62000, None)])) = 2%nat
  /\ payment_processing (live (sweeps (sample_service true) [(2000, None); (62000, None)]))
     = [process_scheduled 0%N; process_scheduled 0%N].
Proof. vm_compute. repeat split. Qed.

(** ** Creation *)

(** On a client in no transaction, a body that passes the schema and whose
    row the table accepts is handled as [PaymentService] says. *)
Lemma post_payment_without_transaction clock s userId body :
  paymentSchema_validate body = None ->
  fits_integer (fromAccountId body) = true ->
  fits_integer userId = true ->
  accepted body = true ->
  post_payment clock None None s userId body
  = (answered (create_payment clock (live s) userId body).1,
     with_live s (create_payment clock (live s) userId body).2).
Proof.
  intros Hv Hfrom Huser Hacc. unfold post_payment, create_payment.
  cbn [taken mbind option_bind now_of from_option].
  rewrite Hv, Hfrom, Huser, Hacc. cbn [negb andb uuidv4 db].
  unfold second_client. rewrite bool_decide_eq_true_2 by reflexivity.
  cbn [now_of put_back taken mbind option_bind].
  rewrite !tables_seen_none.
  destruct (negb (ownershipCheck _ _ _)); reflexivity.
Qed.

(** A body that the schema refuses leaves the client in the transaction
    that [BEGIN] opened. *)
Lemma post_payment_refused_body clock s userId body key :
  paymentSchema_validate body = Some key ->
  post_payment clock None None s userId body
  = (answered (res_400 (joi_message key)),
     {| live := live s; left_open := left_open s ++ [in_progress clock []] |}).
Proof.
  intros Hv. unfold post_payment.
  cbn [taken mbind option_bind now_of from_option]. rewrite Hv. reflexivity.
Qed.

(** C5 (as amended): a valid payment request of the owner of the source
    account, whose row the payments table accepts (payment type 'transfer'
    or 'payment', amount within [DECIMAL(15,2)], account ids within
    [INTEGER]), creates one payment, on whatever client the pool hands
    out.  Its status is 'scheduled' when [scheduledAt] is present
    and strictly in the future; otherwise 'pending_review' when the fraud
    check requires review; otherwise 'processing'.  Only in the last case
    is a message for the payment sent to the [payment.processing] queue,
    and only when the channel is set: while it is undefined nothing is
    sent.  A row that the table refuses (a 'bill_pay' payment, for one) is
    answered 500: nothing is stored and nothing is sent. *)
Theorem post_payment_initial_status clock pick fraud_pick s userId body :
  let c := taken (left_open s) pick in
  let c2 := second_client (left_open s) pick fraud_pick in
  let fraudCheck :=
    detectFraud (tables_seen c2 (db (live s))) (now_of c2 clock) body userId in
  paymentSchema_validate body = None ->
  ownershipCheck (db (live s)) (fromAccountId body) userId = true ->
  fits_integer (fromAccountId body) = true ->
  fits_integer userId = true ->
  (accepted body = true ->
     exists row s',
       post_payment clock pick fraud_pick s userId body = (answered (res_201 row), s')
       /\ payments (db (live s')) = rows_seen c (payments (db (live s))) ++ [row]
       /\ (forall at_, scheduledAt body = Some at_ -> clock < at_ ->
             status row = "scheduled"%string
             /\ payment_processing (live s') = payment_processing (live s))
       /\ ((scheduledAt body = None
            \/ exists at_, scheduledAt body = Some at_ /\ at_ <= clock) ->
             (requiresReview fraudCheck = true ->
                status row = "pending_review"%string
                /\ payment_processing (live s') = payment_processing (live s))
             /\ (requiresReview fraudCheck = false ->
                status row = "processing"%string
                /\ payment_processing (live s')
                   = payment_processing (live s)
                     ++ (if channel (live s)
                         then [process_created (id row) userId] else []))))
  /\ (accepted body = false ->
       (post_payment clock pick fraud_pick s userId body).1
       = res_500 (message "Payment creation failed")
       /\ db (live (post_payment clock pick fraud_pick s userId body).2) = db (live s)
       /\ payment_processing (live (post_payment clock pick fraud_pick s userId body).2)
          = payment_processing (live s)).
Proof.
  intros c c2 fraudCheck Hv Ho Hfrom Huser.
  unfold post_payment. fold c. rewrite Hv. cbn [uuidv4 db].
  rewrite Hfrom, Huser, Ho. cbn [negb andb]. fold c2.
  fold fraudCheck. split; intros Hacc; rewrite Hacc; cbn [negb];
    [|repeat split].
  eexists _, _. split; [reflexivity|]. cbn [live].
  rewrite PaymentServiceTheory.publishEvent_keeps_queue,
    PaymentServiceTheory.publishEvent_keeps_db.
  cbn [status id].
  split; [|split].
  - destruct (negb _ && negb _); [unfold sendToQueue_if_channel; destruct (channel _)|];
      reflexivity.
  - intros at_ Hat Hlt. unfold isScheduled. rewrite Hat.
    assert ((clock <? at_) = true) as -> by lia. split; reflexivity.
  - intros Hnot.
    assert (isScheduled clock body = false) as ->.
    { unfold isScheduled. destruct Hnot as [-> | (at_ & -> & Hle)]; [reflexivity | lia]. }
    split; intros ->; cbn [negb andb initial_status]; (split; [reflexivity|]);
      [reflexivity|].
    unfold sendToQueue_if_channel, set_db; cbn [channel payment_processing].
    destruct (channel (live s)); [reflexivity | rewrite app_nil_r; reflexivity].
Qed.

Lemma post_payment_initial_status_witness :
  exists row s',
    post_payment 5000 None None (sample_service true) 7 (sample_body None)
    = (answered (res_201 row), s')
    /\ status row = "processing"%string
    /\ payment_processing (live s') = [process_created (id row) 7].
Proof.
  destruct (post_payment_initial_status 5000 None None (sample_service true) 7
              (sample_body None) eq_refl eq_refl eq_refl eq_refl)
    as [Hcreated _].
  destruct (Hcreated eq_refl) as (row & s' & Hres & _ & _ & H).
  exists row, s'. split; [exact Hres|].
  destruct (H (or_introl eq_refl)) as [_ Hp]. apply Hp. reflexivity.
Defined.

(** A 'bill_pay' payment passes the schema and is refused by the [CHECK]
    of the table: 500, nothing stored, nothing sent. *)
Lemma bill_pay_is_refused_by_the_table :
  paymentSchema_validate bill_body = None
  /\ post_payment 5000 None None (sample_service true) 7 bill_body
     = (res_500 (message "Payment creation failed"),
        with_live (sample_service true) (uuidv4 (sample_server true)).2).
Proof. vm_compute. repeat split. Qed.

(** C5 as stated fails while the channel is undefined: the payment is
    created with status 'processing' and nothing is put on the queue. *)
Lemma processing_payment_not_queued_without_channel :
  paymentSchema_validate (sample_body None) = None
  /\ match post_payment 5000 None None (sample_service false) 7 (sample_body None) with
     | (answered (res_201 row), s') =>
         status row = "processing"%string
         /\ payment_processing (live s') = []
         /\ handed (id row) (live s') = 0%nat
     | _ => False
     end.
Proof. vm_compute. repeat split. Qed.

(** ** Cancellation *)

Lemma filter_none {A} (f : A -> bool) l :
  (forall x, In x l -> f x = false) -> List.filter f l = [].
Proof.
  induction l as [|x l IH]; cbn; intros H; [reflexivity|].
  rewrite (H x) by (left; reflexivity). apply IH. intros y Hy. apply H. right. exact Hy.
Qed.

Lemma matching_none d paymentId userId :
  (forall q, In q (payments d) -> cancellable d paymentId userId q = false) ->
  matching d paymentId userId = [].
Proof.
  intros H. unfold matching. rewrite filter_none; [reflexivity|].
  intros [i q] Hq. apply list_elem_of_In, elem_of_lookup_imap in Hq as (j & p & [= -> ->] & Hp).
  apply H, list_elem_of_In, list_elem_of_lookup. exists j. exact Hp.
Qed.

(** On a client in no transaction, while no client is left in one, the
    cancellation is the one of [PaymentService]: committed at once. *)
Lemma delete_payment_without_transaction clock s userId paymentId :
  left_open s = [] ->
  fits_integer userId = true ->
  delete_payment clock None s userId paymentId
  = (answered (cancel_payment clock (live s) userId paymentId).1,
     with_live s (cancel_payment clock (live s) userId paymentId).2).
Proof.
  intros Hl Hu. unfold delete_payment, cancel_payment.
  cbn [taken mbind option_bind now_of others]. rewrite Hu, Hl. cbn [negb].
  assert (forall hits, existsb (locked []) hits = false) as ->
    by (induction hits; [reflexivity | assumption]).
  rewrite tables_seen_none.
  destruct (update_cancel clock (db (live s)) paymentId userId) as [updated rows].
  destruct rows; reflexivity.
Qed.

(** C6 fails on the code.  A [POST /] with a body that the schema refuses
    leaves its client in a transaction.  The cancellation of payment 0,
    which is 'scheduled', is then sent on that client: it is answered 200
    and stays uncommitted.  The next [POST /] on the client, by a user who
    does not own the account, sends [ROLLBACK] (as does the pool when the
    client has been idle for long enough): the payment is 'scheduled' as
    before and the next tick hands it to the queue.  On a client in no
    transaction the same cancellation is committed. *)
Theorem cancelled_payment_comes_back :
  let s0 := sample_service true in
  let refused := post_payment 100 None None s0 7 refused_body in
  let cancelled := delete_payment 200 (Some 0%nat) refused.2 7 0%N in
  let denied := post_payment 300 (Some 0%nat) None cancelled.2 8 (sample_body None) in
  committed_status s0 0%N = ["scheduled"%string]
  /\ refused.1 = answered (res_400 (joi_message "amount"))
  /\ left_open refused.2 = [in_progress 100 []]
  /\ cancelled.1 = answered (res_200 "Payment cancelled successfully")
  /\ left_open cancelled.2 = [in_progress 100 [0%nat]]
  /\ committed_status cancelled.2 0%N = ["scheduled"%string]
  /\ denied.1 = answered (res_403 (message "Account access denied"))
  /\ left_open denied.2 = []
  /\ committed_status denied.2 0%N = ["scheduled"%string]
  /\ committed_status (closed 0 cancelled.2) 0%N = ["scheduled"%string]
  /\ handed 0%N (live (sweep 2000 None denied.2)) = 1%nat
  /\ committed_status (delete_payment 200 None s0 7 0%N).2 0%N = ["cancelled"%string].
Proof. vm_compute. repeat split. Qed.

(** A cancellation whose [UPDATE] raises is answered 500, and the pool
    closes the client it was sent on: what the transaction of that client
    had cancelled is rolled back. *)
Lemma cancellation_that_raises_closes_the_client :
  let s0 := sample_service true in
  let refused := post_payment 100 None None s0 7 refused_body in
  let cancelled := delete_payment 200 (Some 0%nat) refused.2 7 0%N in
  let raised := delete_payment 300 (Some 0%nat) cancelled.2 3000000000 0%N in
  left_open cancelled.2 = [in_progress 100 [0%nat]]
  /\ raised.1 = res_500 (message "Failed to cancel payment")
  /\ left_open raised.2 = []
  /\ committed_status raised.2 0%N = ["scheduled"%string].
Proof. vm_compute. repeat split. Qed.

(** ** A committed cancellation is final *)

Lemma delete_payment_committed clock s userId paymentId res s1 :
  delete_payment clock None s userId paymentId = (answered res, s1) ->
  fits_integer userId = true
  /\ left_open s1 = left_open s
  /\ db (live s1) = (update_cancel clock (db (live s)) paymentId userId).1.
Proof.
  unfold delete_payment. cbn [taken mbind option_bind now_of others].
  destruct (fits_integer userId); cbn [negb]; [|discriminate].
  rewrite tables_seen_none. destruct (existsb _ _); [discriminate|].
  destruct (update_cancel clock (db (live s)) paymentId userId) as [updated rows].
  destruct rows; intros [= _ <-]; cbn [with_live live left_open fst];
    rewrite ?PaymentServiceTheory.publishEvent_keeps_db; repeat split.
Qed.

Lemma nothing_left_to_cancel clock d paymentId userId q :
  In q (payments (update_cancel clock d paymentId userId).1) ->
  cancellable (update_cancel clock d paymentId userId).1 paymentId userId q = false.
Proof.
  cbn [update_cancel fst payments]. intros Hq. apply in_map_iff in Hq as (q0 & <- & _).
  rewrite (cancellable_tables d) by reflexivity.
  destruct (cancellable d paymentId userId q0) eqn:Hc;
    [apply cancellable_cancelled | exact Hc].
Qed.

(** X14: a committed cancellation is final.  When [DELETE /:paymentId] has
    been answered on a client in no transaction (200, or 404), the same
    request of the same caller, on whatever client the pool hands out
    next, is answered 404 and changes nothing. *)
Theorem cancel_again_is_refused clock again pick s userId paymentId res s1 :
  delete_payment clock None s userId paymentId = (answered res, s1) ->
  delete_payment again pick s1 userId paymentId
  = (answered (res_404 (message "Payment not found or cannot be cancelled")), s1).
Proof.
  intros Hfirst.
  destruct (delete_payment_committed _ _ _ _ _ _ Hfirst) as (Hu & _ & Hd).
  assert (Hnone : forall q,
            In q (payments (tables_seen (taken (left_open s1) pick) (db (live s1)))) ->
            cancellable (tables_seen (taken (left_open s1) pick) (db (live s1)))
              paymentId userId q = false).
  { intros q Hq. cbn [tables_seen payments] in Hq.
    apply rows_seen_versions in Hq as (p & Hp & [->|[began_at ->]]).
    - rewrite Hd in Hp. apply (nothing_left_to_cancel clock) in Hp.
      rewrite <- Hd in Hp. exact Hp.
    - apply cancellable_cancelled. }
  unfold delete_payment. rewrite Hu. cbn [negb].
  rewrite matching_none by exact Hnone. cbn [existsb].
  unfold update_cancel.
  destruct (PaymentServiceTheory.update_none
              (cancellable (tables_seen (taken (left_open s1) pick) (db (live s1)))
                 paymentId userId)
              (cancelled_row (now_of (taken (left_open s1) pick) again))
              (payments (tables_seen (taken (left_open s1) pick) (db (live s1)))) Hnone)
    as [-> ->].
  cbn [map]. f_equal.
  destruct (taken (left_open s1) pick) as [[began_at mine]|] eqn:Htaken.
  - rewrite app_nil_r. destruct pick as [i|]; [|discriminate Htaken].
    unfold put_back. rewrite Htaken. cbn in Htaken.
    rewrite list_insert_id by exact Htaken. destruct s1; reflexivity.
  - destruct s1 as [[[? ?] ? ? ? ?] ?]; reflexivity.
Qed.

Lemma cancel_again_is_refused_witness :
  delete_payment 900 None (delete_payment 500 None (sample_service true) 7 0%N).2 7 0%N
  = (answered (res_404 (message "Payment not found or cannot be cancelled")),
     (delete_payment 500 None (sample_service true) 7 0%N).2).
Proof.
  apply (cancel_again_is_refused 500 900 None (sample_service true) 7 0%N
           (res_200 "Payment cancelled successfully")); reflexivity.
Defined.

(** ** A scheduled payment waits for its time *)

Lemma post_payment_created clock pick fraud_pick s userId body row s1 :
  post_payment clock pick fraud_pick s userId body = (answered (res_201 row), s1) ->
  let c2 := second_client (left_open s) pick fraud_pick in
  let review :=
    requiresReview
      (detectFraud (tables_seen c2 (db (live s))) (now_of c2 clock) body userId) in
  id row = next_uuid (live s)
  /\ status row = initial_status (isScheduled clock body) review
  /\ scheduled_at row = scheduledAt body
  /\ payments (db (live s1))
     = rows_seen (taken (left_open s) pick) (payments (db (live s))) ++ [row]
  /\ channel (live s1) = channel (live s)
  /\ payment_processing (live s1)
     = payment_processing (live s)
       ++ (if negb (isScheduled clock body) && negb review && channel (live s)
           then [process_created (next_uuid (live s)) userId] else []).
Proof.
  unfold post_payment.
  destruct (paymentSchema_validate body); [discriminate|]. cbn [uuidv4 db].
  destruct (negb (_ && _)); [discriminate|].
  destruct (negb (ownershipCheck _ _ _)); [discriminate|].
  destruct (negb (accepted body)); [discriminate|].
  intros [= <- <-]. cbn [live id status scheduled_at].
  rewrite PaymentServiceTheory.publishEvent_keeps_db,
    PaymentServiceTheory.publishEvent_keeps_queue.
  do 3 (split; [reflexivity|]).
  match goal with |- context [publishEvent ?e ?d ?s0] =>
    destruct (PaymentProperties.publishEvent_rest e d s0) as [-> _] end.
  unfold sendToQueue_if_channel, set_db.
  destruct (negb _ && negb _); cbn [channel db payments payment_processing andb];
    destruct (channel (live s)); cbn [channel db payments payment_processing];
    rewrite ?app_nil_r; repeat split.
Qed.

Lemma sweep_skips paymentId clock pick s :
  (forall q, In q (rows_seen (taken (left_open s) pick) (payments (db (live s)))) ->
     id q = paymentId -> due (now_of (taken (left_open s) pick) clock) q = false) ->
  handed paymentId (live (sweep clock pick s)) = handed paymentId (live s).
Proof.
  intros Hnot. destruct (sweep_effect clock pick s) as (_ & _ & _ & Hq).
  apply (PaymentProperties.handed_app _ _ _ _ Hq). intros m Hm.
  destruct (channel _); [|destruct Hm].
  apply in_map_iff in Hm as (row & <- & Hrow). apply filter_In in Hrow as [Hrow Hdue].
  cbn [message_payment]. intros Hid. rewrite (Hnot row Hrow Hid) in Hdue. discriminate.
Qed.

Lemma sweeps_effect ticks : forall s,
  db (live (sweeps s ticks)) = db (live s)
  /\ channel (live (sweeps s ticks)) = channel (live s)
  /\ left_open (sweeps s ticks) = left_open s.
Proof.
  unfold sweeps. induction ticks as [|tick ticks IH]; intros s; cbn [foldl]; [auto|].
  destruct (IH (sweep tick.1 tick.2 s)) as (-> & -> & ->).
  destruct (sweep_effect tick.1 tick.2 s) as (-> & -> & -> & _). auto.
Qed.

(** X18: a payment created with [scheduledAt] in the future waits for its
    time.  On a server with unique ids drawn from the supply, its creation
    puts nothing on the queue; no tick whose [SELECT] has its [NOW()]
    before [scheduledAt] hands it over, whatever client the pool picks;
    and after such ticks a tick at or after [scheduledAt] on a client in
    no transaction hands it over once when the channel is set (and not at
    all when it is not). *)
Theorem scheduled_payment_waits clock pick fraud_pick s userId body at_ row s1 :
  payments_pkey (db (live s)) ->
  ids_below_supply (live s) ->
  scheduledAt body = Some at_ ->
  clock < at_ ->
  post_payment clock pick fraud_pick s userId body = (answered (res_201 row), s1) ->
  handed (id row) (live s1) = handed (id row) (live s)
  /\ (forall early,
        (forall tick, In tick early -> now_of (taken (left_open s1) tick.2) tick.1 < at_) ->
        handed (id row) (live (sweeps s1 early)) = handed (id row) (live s)
        /\ forall due_time, at_ <= due_time ->
             handed (id row) (live (sweep due_time None (sweeps s1 early)))
             = (handed (id row) (live s) + if channel (live s) then 1 else 0)%nat).
Proof.
  intros Hpk Hfresh Hat Hlt Hcreated.
  destruct (post_payment_created _ _ _ _ _ _ _ _ Hcreated) as (Hid & Hst & Hsat & Hp & Hch & Hq).
  assert (Hsched : isScheduled clock body = true)
    by (unfold isScheduled; rewrite Hat; lia).
  rewrite Hsched in Hst, Hq. cbn [negb andb initial_status] in Hst, Hq.
  rewrite app_nil_r in Hq. rewrite Hat in Hsat.
  assert (Hnew : handed (id row) (live s1) = handed (id row) (live s))
    by (unfold handed; rewrite Hq; reflexivity).
  assert (Hpk1 : payments_pkey (db (live s1))).
  { unfold payments_pkey. rewrite Hp, map_app, rows_seen_ids. apply NoDup_app.
    split; [exact Hpk|]. split.
    - intros x Hx. cbn. intros Hx'. apply list_elem_of_singleton in Hx'. subst x.
      apply list_elem_of_In, in_map_iff in Hx as (q & Hqid & Hq0).
      apply Hfresh in Hq0. lia.
    - apply NoDup_singleton. }
  assert (Hrow : In row (payments (db (live s1))))
    by (rewrite Hp; apply in_app_iff; right; left; reflexivity).
  assert (Hearly : forall early s2,
            db (live s2) = db (live s1) -> left_open s2 = left_open s1 ->
            (forall tick, In tick early ->
               now_of (taken (left_open s1) tick.2) tick.1 < at_) ->
            handed (id row) (live (sweeps s2 early)) = handed (id row) (live s2)).
  { induction early as [|tick early IH]; intros s2 Hd Hl Hticks; [reflexivity|].
    change (sweeps s2 (tick :: early)) with (sweeps (sweep tick.1 tick.2 s2) early).
    destruct (sweep_effect tick.1 tick.2 s2) as (Hd' & _ & Hl' & _).
    rewrite IH; [| rewrite Hd'; exact Hd | rewrite Hl'; exact Hl
                 | intros t Ht; apply Hticks; right; exact Ht].
    apply sweep_skips. rewrite Hd, Hl. intros q Hq' Hqid.
    apply rows_seen_versions in Hq' as (p & Hp' & [->|[began_at ->]]);
      [|reflexivity].
    assert (p = row) as ->
      by (apply (PaymentServiceTheory.pkey_unique _ _ _ Hpk1 Hp' Hrow Hqid)).
    unfold due. rewrite Hsat.
    specialize (Hticks tick (or_introl eq_refl)).
    assert ((at_ <=? now_of (taken (left_open s1) tick.2) tick.1) = false) as -> by lia.
    apply andb_false_r. }
  split; [exact Hnew|]. intros early Hticks.
  pose proof (Hearly early s1 eq_refl eq_refl Hticks) as Hwait. rewrite Hnew in Hwait.
  split; [exact Hwait|]. intros due_time Hdue.
  destruct (sweeps_effect early s1) as (Hd & Hc & _).
  destruct (sweep_effect due_time None (sweeps s1 early)) as (_ & _ & _ & Hq').
  unfold handed at 1. rewrite Hq', List.filter_app, length_app.
  fold (handed (id row) (live (sweeps s1 early))). rewrite Hwait. f_equal.
  cbn [taken mbind option_bind now_of rows_seen]. rewrite Hc, Hch, Hd.
  destruct (channel (live s)); [|reflexivity].
  rewrite PaymentServiceTheory.selected_once by assumption.
  unfold due. rewrite Hst, Hsat. cbn.
  assert ((at_ <=? due_time) = true) as -> by lia. reflexivity.
Qed.

Lemma scheduled_payment_waits_witness :
  exists row s1,
    post_payment 5000 None None (sample_service true) 7 (sample_body (Some 8000))
    = (answered (res_201 row), s1)
    /\ handed (id row) (live (sweeps s1 [(6000, None); (7000, None)])) = 0%nat
    /\ handed (id row) (live (sweep 9000 None (sweeps s1 [(6000, None); (7000, None)])))
       = 1%nat.
Proof.
  assert (Hpk : payments_pkey (db (live (sample_service true)))).
  { unfold payments_pkey. simpl. apply NoDup_cons. split.
    - intros H. apply list_elem_of_singleton in H. discriminate H.
    - apply NoDup_singleton. }
  assert (Hfresh : ids_below_supply (live (sample_service true))).
  { intros p [<-|[<-|[]]]; cbn; lia. }
  assert (Hlt : 5000 < 8000) by lia.
  eexists _, _. split; [reflexivity|].
  destruct (scheduled_payment_waits 5000 None None (sample_service true) 7
              (sample_body (Some 8000)) 8000 _ _ Hpk Hfresh eq_refl Hlt eq_refl) as [_ H].
  destruct (H [(6000, None); (7000, None)]) as [Hearly Hdue].
  { intros tick [<-|[<-|[]]]; cbn; lia. }
  split; [exact Hearly | apply Hdue; lia].
Defined.

End PaymentConnectionsTheory.
